(** * NijiMarket backend: authentication chain, role gates, the five
    routers and the media store, as a shallow embedding of the Python
    sources.

    Every handler is a pure function from its inputs and the database (or
    file-system) state to a [result] and, where it commits, a new state.
    The tables are lists of rows in storage order; [query_first] is
    SQLAlchemy's [query(...).filter(...).first()]. *)

From Stdlib Require Import ZArith String Ascii List Bool Lia SpecFloat.
From stdpp Require Import base option list strings gmap.

Local Open Scope Z_scope.
Local Open Scope string_scope.

(** ** Exceptions and handler results *)

(** [fastapi.HTTPException(status_code, detail, headers)]; the pydantic
    error raised when a response model is built from a row that lacks a
    required field; and an error raised by the database driver.  FastAPI
    answers the last two with status 500. *)
Inductive exn : Type :=
| HTTPException (status_code : Z) (detail : string)
                (headers : list (string * string))
| ValidationError (field : string)
| DatabaseError (msg : string).

Definition status_of (e : exn) : Z :=
  match e with
  | HTTPException c _ _ => c
  | ValidationError _ | DatabaseError _ => 500
  end.

Definition detail_of (e : exn) : string :=
  match e with
  | HTTPException _ d _ => d
  | ValidationError f => f
  | DatabaseError m => m
  end.

Inductive result (A : Type) : Type :=
| Raise (e : exn)
| Return (a : A).
Arguments Raise {A} e.
Arguments Return {A} a.

Definition bind {A B} (r : result A) (k : A -> result B) : result B :=
  match r with
  | Raise e => Raise e
  | Return a => k a
  end.

#[global] Instance result_bind : MBind result := fun A B k r => bind r k.
#[global] Instance result_ret : MRet result := fun A a => Return a.

(** Python truthiness of a nullable Boolean column: [None] is falsy. *)
Definition truthy (b : option bool) : bool :=
  match b with
  | Some true => true
  | _ => false
  end.

(** [query(T).filter(p).first()] *)
Definition query_first {A} (p : A -> bool) (rows : list A) : option A :=
  List.find p rows.

(** [query(T).filter(p).count()] *)
Definition query_count {A} (p : A -> bool) (rows : list A) : Z :=
  Z.of_nat (List.length (List.filter p rows)).

(** ** models/user.py *)

Inductive UserRole : Type := ADMIN | VENDOR | CONSUMER.

(** [UserRole.value] *)
Definition value (r : UserRole) : string :=
  match r with
  | ADMIN => "admin"
  | VENDOR => "vendor"
  | CONSUMER => "consumer"
  end.

Definition UserRole_eqb (a b : UserRole) : bool :=
  match a, b with
  | ADMIN, ADMIN | VENDOR, VENDOR | CONSUMER, CONSUMER => true
  | _, _ => false
  end.

#[global] Instance UserRole_eq_dec : EqDecision UserRole.
Proof. solve_decision. Defined.

(** A row of the [users] table.  The two timestamp columns and the ORM
    relationships are left out: no handler modelled here reads them. *)
Record User : Type := mkUser {
  id : Z;
  email : string;
  phone : option string;
  hashed_password : string;
  full_name : string;
  role : UserRole;
  is_active : option bool;
  is_verified : option bool;
  profile_image : option string;
  address : option string;
  city : option string;
  prefecture : option string;
  country : option string;
  postal_code : option string
}.

Definition set_is_active (b : option bool) (u : User) : User :=
  mkUser (id u) (email u) (phone u) (hashed_password u) (full_name u)
         (role u) b (is_verified u) (profile_image u) (address u) (city u)
         (prefecture u) (country u) (postal_code u).

Definition set_hashed_password (h : string) (u : User) : User :=
  mkUser (id u) (email u) (phone u) h (full_name u)
         (role u) (is_active u) (is_verified u) (profile_image u) (address u)
         (city u) (prefecture u) (country u) (postal_code u).

(** ** Token claims (schemas/user.py, [TokenData]) *)

(** The decoded claim dictionary, read with [payload.get]: an absent key and
    a null value both read as [None].  Claims carry the types the service
    writes into them: a string subject, an integer user id, a role name. *)
Record Payload : Type := mkPayload {
  sub : option string;
  user_id : option Z;
  role_claim : option string
}.

(** [{"sub": user.email, "user_id": user.id, "role": user.role.value}] *)
Definition token_data (user : User) : Payload :=
  mkPayload (Some (email user)) (Some (id user)) (Some (value (role user))).

(** schemas/user.py, [Token] *)
Record Token : Type := mkToken {
  access_token : string;
  refresh_token : string;
  token_type : string;
  expires_in : Z
}.

(** A Python [float]: an IEEE 754 binary64 value, as the standard library
    specifies one.  The handlers store and return such values and never
    compute with them. *)
Abbreviation float := spec_float.

(** ** models/product.py, models/vendor.py, models/market.py

    Each model lives in a module of its name, so that columns keep their
    source names ([Category.id], [Product.category_id], ...).  Timestamp
    columns are left out.  So are the columns that are only stored,
    searched and shown: the translations, descriptions, harvest date, origin
    and image list of a product and the description, postal code,
    coordinates, type, opening hours and image list of a market, all of them
    nullable and optional in every response; and [Market.country],
    [Vendor.average_rating] and [Vendor.verification_documents], which get
    their value when the row is inserted and which no update schema
    carries. *)

Module Category.
Record t : Type := mk {
  id : Z;
  name : string;
  name_ja : option string;
  name_ne : option string;
  description : option string;
  icon : option string;
  is_active : option bool
}.
End Category.

Module Product.
Record t : Type := mk {
  id : Z;
  vendor_id : Z;
  category_id : Z;
  name : string;
  price_per_unit : float;
  unit : string;
  minimum_order : option float;
  stock_quantity : option float;
  is_available : option bool;
  is_organic : option bool;
  main_image : option string
}.
End Product.

Module Vendor.
Record t : Type := mk {
  id : Z;
  user_id : Z;
  market_id : Z;
  business_name : string;
  business_description : option string;
  specialties : option string;
  is_verified : option bool;
  business_phone : option string;
  website : option string;
  social_media : option string;
  available_days : option string;
  available_from : option string;
  available_to : option string;
  total_reviews : option Z
}.
End Vendor.

Module Market.
Record t : Type := mk {
  id : Z;
  name : string;
  address : string;
  city : string;
  prefecture : string;
  is_active : option bool;
  main_image : option string
}.
End Market.

(** ** The database session

    One list per table, in storage order, and the next value of each
    primary-key sequence that a modelled handler draws from. *)
Record Db : Type := mkDb {
  users : list User;
  next_user_id : Z;
  categories : list Category.t;
  next_category_id : Z;
  products : list Product.t;
  next_product_id : Z;
  vendors : list Vendor.t;
  next_vendor_id : Z;
  markets : list Market.t;
  next_market_id : Z
}.

Definition set_users (us : list User) (db : Db) : Db :=
  mkDb us (next_user_id db) (categories db) (next_category_id db)
       (products db) (next_product_id db) (vendors db) (next_vendor_id db)
       (markets db) (next_market_id db).

Definition add_user (u : User) (db : Db) : Db :=
  mkDb (users db ++ [u]) (next_user_id db + 1) (categories db)
       (next_category_id db) (products db) (next_product_id db) (vendors db)
       (next_vendor_id db) (markets db) (next_market_id db).

Definition set_categories (cs : list Category.t) (db : Db) : Db :=
  mkDb (users db) (next_user_id db) cs (next_category_id db)
       (products db) (next_product_id db) (vendors db) (next_vendor_id db)
       (markets db) (next_market_id db).

Definition add_category (c : Category.t) (db : Db) : Db :=
  mkDb (users db) (next_user_id db) (categories db ++ [c])
       (next_category_id db + 1) (products db) (next_product_id db)
       (vendors db) (next_vendor_id db) (markets db) (next_market_id db).

Definition add_vendor (v : Vendor.t) (db : Db) : Db :=
  mkDb (users db) (next_user_id db) (categories db) (next_category_id db)
       (products db) (next_product_id db) (vendors db ++ [v])
       (next_vendor_id db + 1) (markets db) (next_market_id db).

(** [UPDATE users SET ... WHERE users.id = pk]: the flush of an attribute
    assignment on the ORM object loaded with primary key [pk]. *)
Definition update_user (pk : Z) (f : User -> User) (db : Db) : Db :=
  set_users
    (List.map (fun u => if (id u =? pk)%Z then f u else u) (users db)) db.

(** [DELETE FROM categories WHERE categories.id = pk] *)
Definition delete_category_row (pk : Z) (db : Db) : Db :=
  set_categories
    (List.filter (fun c => negb (Category.id c =? pk)%Z) (categories db)) db.

(** ** core/config.py *)
Definition ACCESS_TOKEN_EXPIRE_MINUTES : Z := 30.

(** ** schemas/user.py *)

Record UserCreate : Type := mkUserCreate {
  uc_email : string;
  uc_full_name : string;
  uc_phone : option string;
  uc_address : option string;
  uc_city : option string;
  uc_prefecture : option string;
  uc_country : string;
  uc_postal_code : option string;
  uc_password : string;
  uc_role : UserRole
}.

Record UserLogin : Type := mkUserLogin {
  ul_email : string;
  ul_password : string
}.

Record PasswordChange : Type := mkPasswordChange {
  current_password : string;
  new_password : string
}.

(** The fields of [UserUpdate], the profile-update schema. *)
Definition UserUpdate_fields : list string :=
  ["full_name"; "phone"; "address"; "city"; "prefecture"; "postal_code";
   "profile_image"].

(** The columns of [User] a handler can assign to. *)
Definition User_columns : list string :=
  ["id"; "email"; "phone"; "hashed_password"; "full_name"; "role";
   "is_active"; "is_verified"; "profile_image"; "address"; "city";
   "prefecture"; "country"; "postal_code"; "created_at"; "updated_at"].

(** Python truthiness of an optional string: [None] and [""] are falsy. *)
Definition truthy_str (s : option string) : bool :=
  match s with
  | Some (String _ _) => true
  | _ => false
  end.

(** [sep.join(parts)] *)
Fixpoint join (sep : string) (parts : list string) : string :=
  match parts with
  | [] => ""
  | [p] => p
  | p :: ps => p ++ sep ++ join sep ps
  end.

(** The new state a mutating handler leaves behind: what it committed on
    return, the old state when it raised before committing. *)
Definition state_after {A} (db : Db) (r : result (A * Db)) : Db :=
  match r with
  | Return (_, db') => db'
  | Raise _ => db
  end.

Section Auth.

(** ** core/auth.py (the credential codec)

    The handlers below call the codec through these six names.  Each one
    stands for the codec at the instant of the request: the signing key
    and the clock are inside them. *)
Variable decode_access_token : string -> option Payload.
Variable decode_refresh_token : string -> option Payload.
Variable verify_password : string -> string -> bool.
Variable get_password_hash : string -> string.
Variable create_access_token : Payload -> Z -> string.
Variable create_refresh_token : Payload -> string.

(** ** core/dependencies.py *)

Definition credentials_exception : exn :=
  HTTPException 401 "Could not validate credentials"
                [("WWW-Authenticate", "Bearer")].

Definition inactive_user : exn := HTTPException 400 "Inactive user" [].

Definition get_current_user (credentials : string) (db : Db) : result User :=
  match decode_access_token credentials with
  | None => Raise credentials_exception
  | Some payload =>
      match sub payload, user_id payload with
      | Some _, Some uid =>
          match query_first (fun u => (id u =? uid)%Z) (users db) with
          | None => Raise credentials_exception
          | Some user =>
              if negb (truthy (is_active user)) then Raise inactive_user
              else Return user
          end
      | _, _ => Raise credentials_exception
      end
  end.

Definition get_current_active_user (current_user : User) : result User :=
  if negb (truthy (is_active current_user)) then Raise inactive_user
  else Return current_user.

(** [require_role(required_role)] is the closure [role_checker]; its
    argument is what [Depends(get_current_active_user)] resolved. *)
Definition require_role (required_role : UserRole) (current_user : User)
  : result User :=
  if negb (UserRole_eqb (role current_user) required_role) then
    Raise (HTTPException 403
             ("Operation requires " ++ value required_role ++ " role") [])
  else Return current_user.

Definition require_roles (required_roles : list UserRole)
           (current_user : User) : result User :=
  if negb (existsb (UserRole_eqb (role current_user)) required_roles) then
    let role_names := List.map value required_roles in
    Raise (HTTPException 403
             ("Operation requires one of these roles: " ++
              join ", " role_names) [])
  else Return current_user.

Definition require_admin := require_role ADMIN.
Definition require_vendor := require_role VENDOR.
Definition require_consumer := require_role CONSUMER.
Definition require_vendor_or_admin := require_roles [VENDOR; ADMIN].

(** The dependency chain FastAPI resolves for a handler that declares
    [Depends(gate)], from the bearer token that the bearer scheme handed on:
    live user, active check, role gate.  The bearer scheme itself is the
    first link of [secured] below. *)
Definition Depends (gate : User -> result User) (credentials : string)
           (db : Db) : result User :=
  user ← get_current_user credentials db;
  active ← get_current_active_user user;
  gate active.

(** ** api/auth.py *)

Definition register_user (user_data : UserCreate) (db : Db)
  : result (User * Db) :=
  match query_first (fun u => email u =? uc_email user_data) (users db) with
  | Some _ => Raise (HTTPException 400 "Email already registered" [])
  | None =>
      let existing_phone :=
        match uc_phone user_data with
        | Some p =>
            query_first (fun u => match phone u with
                                  | Some q => q =? p
                                  | None => false
                                  end) (users db)
        | None => None
        end in
      if truthy_str (uc_phone user_data)
         && bool_decide (is_Some existing_phone)
      then Raise (HTTPException 400 "Phone number already registered" [])
      else
        (* [db.commit()]: an empty, non-null phone skipped the check above
           and still meets the unique index on [users.phone] *)
        if bool_decide (is_Some existing_phone)
        then Raise (DatabaseError "unique constraint: users.phone")
        else
          let db_user :=
            mkUser (next_user_id db) (uc_email user_data)
                   (uc_phone user_data)
                   (get_password_hash (uc_password user_data))
                   (uc_full_name user_data) (uc_role user_data)
                   (Some true) (Some false) None
                   (uc_address user_data) (uc_city user_data)
                   (uc_prefecture user_data) (Some (uc_country user_data))
                   (uc_postal_code user_data) in
          Return (db_user, add_user db_user db)
  end.

Definition invalid_credentials : exn :=
  HTTPException 401 "Incorrect email or password"
                [("WWW-Authenticate", "Bearer")].

Definition issue_tokens (user : User) : Token :=
  let access_token_expires := ACCESS_TOKEN_EXPIRE_MINUTES in
  let access_token :=
    create_access_token (token_data user) access_token_expires in
  let refresh_token := create_refresh_token (token_data user) in
  mkToken access_token refresh_token "bearer"
          (ACCESS_TOKEN_EXPIRE_MINUTES * 60).

Definition login_user (login_data : UserLogin) (db : Db) : result Token :=
  match query_first (fun u => email u =? ul_email login_data) (users db) with
  | None => Raise invalid_credentials
  | Some user =>
      if negb (verify_password (ul_password login_data)
                               (hashed_password user))
      then Raise invalid_credentials
      else if negb (truthy (is_active user))
      then Raise (HTTPException 400 "Inactive user account" [])
      else Return (issue_tokens user)
  end.

Definition refresh_access_token (refresh_data : string) (db : Db)
  : result Token :=
  match decode_refresh_token refresh_data with
  | None =>
      Raise (HTTPException 401 "Invalid refresh token"
               [("WWW-Authenticate", "Bearer")])
  | Some payload =>
      let user :=
        match user_id payload with
        | Some uid => query_first (fun u => (id u =? uid)%Z) (users db)
        | None => None   (* [users.id = NULL] selects no row *)
        end in
      match user with
      | None => Raise (HTTPException 401 "User not found or inactive" [])
      | Some user =>
          if negb (truthy (is_active user))
          then Raise (HTTPException 401 "User not found or inactive" [])
          else Return (issue_tokens user)
      end
  end.

Definition get_current_user_profile (current_user : User) : result User :=
  Return current_user.

Definition change_password (password_data : PasswordChange)
           (current_user : User) (db : Db) : result (string * Db) :=
  if negb (verify_password (current_password password_data)
                           (hashed_password current_user))
  then Raise (HTTPException 400 "Incorrect current password" [])
  else
    Return ("Password changed successfully",
            update_user (id current_user)
              (set_hashed_password
                 (get_password_hash (new_password password_data))) db).

Definition logout_user (current_user : User) : result string :=
  Return "Successfully logged out".

Definition list_all_users (skip limit : Z) (current_user : User) (db : Db)
  : result (list User) :=
  if (skip <? 0)%Z || (limit <? 0)%Z
  then Raise (DatabaseError "OFFSET/LIMIT must not be negative")
  else Return (take (Z.to_nat limit) (drop (Z.to_nat skip) (users db))).

Definition toggle_user_active_status (uid : Z) (current_user : User)
           (db : Db) : result (string * Db) :=
  match query_first (fun u => (id u =? uid)%Z) (users db) with
  | None => Raise (HTTPException 404 "User not found" [])
  | Some user =>
      let flipped := negb (truthy (is_active user)) in
      let db' := update_user (id user) (set_is_active (Some flipped)) db in
      let status_text := if flipped then "activated" else "deactivated" in
      Return ("User " ++ status_text ++ " successfully", db')
  end.

End Auth.

(** ** schemas/category.py and api/categories.py *)

Record CategoryResponse : Type := mkCategoryResponse {
  cr_id : Z;
  cr_name : string;
  cr_name_ja : option string;
  cr_name_ne : option string;
  cr_description : option string;
  cr_icon : option string;
  cr_is_active : bool;
  cr_product_count : Z
}.

(** The [CategoryResponse] constructor: [is_active: bool] is required, so a
    row whose [is_active] is NULL does not validate. *)
Definition category_response (category : Category.t) (product_count : Z)
  : result CategoryResponse :=
  match Category.is_active category with
  | Some b =>
      Return (mkCategoryResponse
                (Category.id category) (Category.name category)
                (Category.name_ja category) (Category.name_ne category)
                (Category.description category) (Category.icon category)
                b product_count)
  | None => Raise (ValidationError "is_active")
  end.

Definition category_not_found : exn :=
  HTTPException 404 "Category not found" [].

Definition get_category (category_id : Z) (db : Db)
  : result CategoryResponse :=
  match query_first (fun c => (Category.id c =? category_id)%Z)
                    (categories db) with
  | None => Raise category_not_found
  | Some category =>
      let product_count :=
        query_count (fun p => (Product.category_id p =? category_id)%Z)
                    (products db) in
      category_response category product_count
  end.

(** The body of [delete_category]; [current_user] is what
    [Depends(require_admin)] resolved. *)
Definition delete_category (category_id : Z) (current_user : User) (db : Db)
  : result (string * Db) :=
  match query_first (fun c => (Category.id c =? category_id)%Z)
                    (categories db) with
  | None => Raise category_not_found
  | Some category =>
      let product_count :=
        query_count (fun p => (Product.category_id p =? category_id)%Z)
                    (products db) in
      if (product_count >? 0)%Z then
        Raise (HTTPException 400
                 "Cannot delete category with existing products" [])
      else
        Return ("Category deleted successfully",
                delete_category_row (Category.id category) db)
  end.

(** ** schemas/vendor.py and api/vendors.py *)

Record VendorCreate : Type := mkVendorCreate {
  vc_business_name : string;
  vc_business_description : option string;
  vc_specialties : option string;
  vc_business_phone : option string;
  vc_website : option string;
  vc_social_media : option string;
  vc_available_days : option string;
  vc_available_from : option string;
  vc_available_to : option string;
  vc_market_id : Z
}.

Record VendorResponse : Type := mkVendorResponse {
  vr_vendor : Vendor.t;
  vr_user : User;
  vr_market_name : option string;
  vr_product_count : Z
}.

Definition create_vendor_profile (vendor_data : VendorCreate)
           (current_user : User) (db : Db) : result (VendorResponse * Db) :=
  if negb (UserRole_eqb (role current_user) VENDOR) then
    Raise (HTTPException 403
             "Only users with vendor role can create vendor profiles" [])
  else
    match query_first (fun v => (Vendor.user_id v =? id current_user)%Z)
                      (vendors db) with
    | Some _ =>
        Raise (HTTPException 400 "User already has a vendor profile" [])
    | None =>
        match query_first (fun m => (Market.id m =? vc_market_id vendor_data)%Z)
                          (markets db) with
        | None => Raise (HTTPException 404 "Market not found" [])
        | Some market =>
            let db_vendor :=
              Vendor.mk (next_vendor_id db) (id current_user)
                        (vc_market_id vendor_data)
                        (vc_business_name vendor_data)
                        (vc_business_description vendor_data)
                        (vc_specialties vendor_data)
                        (Some false)
                        (vc_business_phone vendor_data)
                        (vc_website vendor_data)
                        (vc_social_media vendor_data)
                        (vc_available_days vendor_data)
                        (vc_available_from vendor_data)
                        (vc_available_to vendor_data)
                        (Some 0%Z) in
            Return (mkVendorResponse db_vendor current_user
                                     (Some (Market.name market)) 0,
                    add_vendor db_vendor db)
        end
    end.

(** ** schemas/product.py and api/products.py *)

Record ProductListResponse : Type := mkProductListResponse {
  plr_id : Z;
  plr_name : string;
  plr_unit : string;
  plr_vendor_id : Z;
  plr_vendor_name : string;
  plr_market_name : string;
  plr_category_name : string;
  plr_is_available : bool;
  plr_is_organic : bool;
  plr_main_image : option string
}.

(** The [ProductListResponse] constructor with its required fields. *)
Definition product_list_response (product : Product.t) (category_name : string)
           (vendor : Vendor.t) (market : option Market.t)
  : result ProductListResponse :=
  match market, Product.is_available product, Product.is_organic product with
  | None, _, _ => Raise (ValidationError "market_name")
  | Some _, None, _ => Raise (ValidationError "is_available")
  | Some _, Some _, None => Raise (ValidationError "is_organic")
  | Some m, Some avail, Some organic =>
      Return (mkProductListResponse
                (Product.id product) (Product.name product)
                (Product.unit product) (Product.vendor_id product)
                (Vendor.business_name vendor) (Market.name m) category_name
                avail organic (Product.main_image product))
  end.

Fixpoint collect {A B} (f : A -> result B) (rows : list A) : result (list B) :=
  match rows with
  | [] => Return []
  | x :: rest =>
      y ← f x;
      ys ← collect f rest;
      Return (y :: ys)
  end.

(** [query(Product, Category.name).join(Category, ...)]: an inner join, one
    pair per product and category row with that id. *)
Definition products_with_category (db : Db) : list (Product.t * string) :=
  p ← products db;
  c ← List.filter (fun c => (Product.category_id p =? Category.id c)%Z)
                  (categories db);
  [(p, Category.name c)].

Definition get_vendor_products (vendor_id : Z) (available_only : bool)
           (db : Db) : result (list ProductListResponse) :=
  match query_first (fun v => (Vendor.id v =? vendor_id)%Z) (vendors db) with
  | None => Raise (HTTPException 404 "Vendor not found" [])
  | Some vendor =>
      let query :=
        List.filter (fun pc => (Product.vendor_id (fst pc) =? vendor_id)%Z)
                    (products_with_category db) in
      let query :=
        if available_only
        then List.filter (fun pc => truthy (Product.is_available (fst pc)))
                         query
        else query in
      let market :=
        query_first (fun m => (Market.id m =? Vendor.market_id vendor)%Z)
                    (markets db) in
      collect (fun pc => product_list_response (fst pc) (snd pc) vendor market)
              query
  end.

Definition get_my_products (current_user : User) (db : Db)
  : result (list ProductListResponse) :=
  if negb (UserRole_eqb (role current_user) VENDOR) then
    Raise (HTTPException 403 "Only vendors can access this endpoint" [])
  else
    match query_first (fun v => (Vendor.user_id v =? id current_user)%Z)
                      (vendors db) with
    | None => Raise (HTTPException 404 "Vendor profile not found" [])
    | Some vendor => get_vendor_products (Vendor.id vendor) false db
    end.

(** ** core/file_handler.py: paths

    A [pathlib] path (POSIX flavour) is its tuple of parts; an absolute path
    has ["/"] as its first part.  Strings are byte strings here, so
    [lower] folds the ASCII letters only; [suffix] is the last dot of the
    name onwards unless that dot is the first or the last character. *)

Abbreviation Path := (list string).

Fixpoint split_on (c : ascii) (s : string) : list string :=
  match s with
  | EmptyString => [EmptyString]
  | String a rest =>
      if Ascii.eqb a c then EmptyString :: split_on c rest
      else match split_on c rest with
           | [] => [String a EmptyString]
           | part :: parts => String a part :: parts
           end
  end.

(** [Path(s)]: empty and ["."] components vanish. *)
Definition path_of (s : string) : Path :=
  ((if String.prefix "/" s then ["/"] else []) ++
   List.filter (fun part => negb (part =? "") && negb (part =? "."))
               (split_on "/" s))%list.

Definition is_absolute (p : Path) : bool :=
  match p with
  | root :: _ => root =? "/"
  | [] => false
  end.

(** [a / b]: an absolute right operand replaces the left one. *)
Definition path_join (a : Path) (b : string) : Path :=
  if is_absolute (path_of b) then path_of b else (a ++ path_of b)%list.

(** [Path.name]: the last part, empty for the root and for ["."]. *)
Definition path_name (p : Path) : string :=
  if bool_decide (p = ["/"]) then "" else List.last p "".

(** [Path.parent] *)
Definition path_parent (p : Path) : Path :=
  if bool_decide (p = ["/"]) then ["/"] else List.removelast p.

(** [name.rfind(".")] counted from index [i]. *)
Fixpoint rfind_from (c : ascii) (s : string) (i : nat) : option nat :=
  match s with
  | EmptyString => None
  | String a rest =>
      match rfind_from c rest (S i) with
      | Some j => Some j
      | None => if Ascii.eqb a c then Some i else None
      end
  end.

(** [Path.suffix] of a path with the given [name]. *)
Definition suffix_of_name (name : string) : string :=
  match rfind_from "." name 0 with
  | Some i =>
      if (0 <? i)%nat && (i <? String.length name - 1)%nat
      then String.substring i (String.length name - i) name
      else ""
  | None => ""
  end.

Definition suffix (p : Path) : string := suffix_of_name (path_name p).

(** [str.lower()] on the ASCII letters. *)
Definition lower_ascii (a : ascii) : ascii :=
  let n := nat_of_ascii a in
  if (65 <=? n)%nat && (n <=? 90)%nat then ascii_of_nat (n + 32) else a.

Fixpoint lower (s : string) : string :=
  match s with
  | EmptyString => EmptyString
  | String a rest => String (lower_ascii a) (lower rest)
  end.

(** ** core/file_handler.py: configuration *)

Definition UPLOAD_DIR : Path := ["uploads"].
Definition ALLOWED_EXTENSIONS : gset string :=
  {[ ".jpg"; ".jpeg"; ".png"; ".gif"; ".webp" ]}.
Definition MAX_FILE_SIZE : Z := 5 * 1024 * 1024.

(** ** The upload directory tree

    Regular files by path.  [exists] and [unlink] are the [pathlib] calls;
    [unlink] raises on a path that is not there. *)
Abbreviation bytes := (list Byte.byte).
Abbreviation Fs := (gmap Path bytes).

Definition path_exists (p : Path) (fs : Fs) : bool :=
  bool_decide (is_Some (fs !! p)).

(** What an I/O step leaves: the value or the text of the exception it
    raised, and the file system at that point. *)
Definition io (A : Type) : Type := Fs -> (string + A) * Fs.

Definition io_ret {A} (a : A) : io A := fun fs => (inr a, fs).
Definition io_bind {A B} (m : io A) (k : A -> io B) : io B :=
  fun fs =>
    match m fs with
    | (inl e, fs') => (inl e, fs')
    | (inr a, fs') => k a fs'
    end.

Definition unlink (p : Path) : io unit :=
  fun fs =>
    match fs !! p with
    | Some _ => (inr tt, delete p fs)
    | None => (inl "FileNotFoundError", fs)
    end.

(** How the operating system answers the write of one upload: the file is
    written in full, [open] fails, or the write stops after [written] bytes. *)
Inductive write_outcome : Type :=
| WriteOk
| OpenFails (msg : string)
| WriteFails (written : nat) (msg : string).

(** How the imaging library answers [create_thumbnail]: the encoded
    thumbnail, or an exception that may leave a partial file behind. *)
Inductive thumbnail_outcome : Type :=
| ThumbSaved (data : bytes)
| ThumbRaises (msg : string) (leftover : option bytes).

(** What one call of [save_image] draws from its environment. *)
Record Env : Type := mkEnv {
  uuid4 : string;
  write_env : write_outcome;
  thumbnail_env : thumbnail_outcome
}.

(** [UploadFile] *)
Record UploadFile : Type := mkUploadFile {
  filename : option string;
  content_type : option string;
  content : bytes
}.

Definition or_default (s : option string) (d : string) : string :=
  match s with
  | Some (String a r) => String a r
  | _ => d
  end.

(** ** core/file_handler.py: operations *)

Definition generate_filename (uuid : string) (original_filename : string)
  : string :=
  let ext := lower (suffix (path_of original_filename)) in
  uuid ++ ext.

Definition validate_image_file (file : UploadFile) : bool :=
  match content_type file with
  | Some ct =>
      if negb (String.prefix "image/" ct) then false
      else
        let ext := lower (suffix (path_of (or_default (filename file) ""))) in
        bool_decide (ext ∈ ALLOWED_EXTENSIONS)
  | None => false
  end.

(** [async with aiofiles.open(file_path, 'wb') as f: await f.write(content)] *)
Definition write_file (w : write_outcome) (file_path : Path) (data : bytes)
  : io unit :=
  fun fs =>
    match w with
    | WriteOk => (inr tt, <[file_path := data]> fs)
    | OpenFails msg => (inl msg, fs)
    | WriteFails written msg =>
        (inl msg, <[file_path := take written data]> fs)
    end.

(** [create_thumbnail]: every exception is caught and printed, so the call
    itself never raises. *)
Definition create_thumbnail (t : thumbnail_outcome) (image_path : Path)
  : io unit :=
  fun fs =>
    let thumbnail_path :=
      path_join (path_parent image_path) ("thumb_" ++ path_name image_path) in
    match t with
    | ThumbSaved data => (inr tt, <[thumbnail_path := data]> fs)
    | ThumbRaises _ (Some partial) =>
        (inr tt, <[thumbnail_path := partial]> fs)
    | ThumbRaises _ None => (inr tt, fs)
    end.

Definition save_image (env : Env) (file : UploadFile) (subdir : string)
           (fs : Fs) : result string * Fs :=
  if negb (validate_image_file file) then
    (Raise (HTTPException 400 "Invalid image file" []), fs)
  else if (Z.of_nat (List.length (content file)) >? MAX_FILE_SIZE)%Z then
    (Raise (HTTPException 400 "File too large" []), fs)
  else
    let filename :=
      generate_filename (uuid4 env) (or_default (filename file) "image") in
    let file_path := path_join (path_join UPLOAD_DIR subdir) filename in
    let attempt :=
      io_bind (write_file (write_env env) file_path (content file)) (fun _ =>
      io_bind (create_thumbnail (thumbnail_env env) file_path) (fun _ =>
      io_ret filename)) in
    match attempt fs with
    | (inr name, fs') => (Return name, fs')
    | (inl e, fs') =>
        let fs'' :=
          if path_exists file_path fs' then delete file_path fs' else fs' in
        (Raise (HTTPException 500 ("Failed to save image: " ++ e) []), fs'')
    end.

Definition delete_image (filename : string) (subdir : string) (fs : Fs)
  : bool * Fs :=
  let file_path := path_join (path_join UPLOAD_DIR subdir) filename in
  let thumb_path :=
    path_join (path_join UPLOAD_DIR subdir) ("thumb_" ++ filename) in
  let attempt :=
    io_bind (fun fs => if path_exists file_path fs then unlink file_path fs
                       else (inr tt, fs)) (fun _ =>
    io_bind (fun fs => if path_exists thumb_path fs then unlink thumb_path fs
                       else (inr tt, fs)) (fun _ =>
    io_ret true)) in
  match attempt fs with
  | (inr ok, fs') => (ok, fs')
  | (inl _, fs') => (false, fs')
  end.

(** ** The credential codec of core/auth.py *)

Module Codec.

(** Modelled from the spec: the two kinds of token that core/auth.py issues
    (that file is not among the sources).  The spec's glossary separates
    the access token from the refresh token, and its testable properties
    call presenting one for the other a wrong token kind. *)
Inductive TokenKind : Type := AccessToken | RefreshToken.

Definition TokenKind_eqb (a b : TokenKind) : bool :=
  match a, b with
  | AccessToken, AccessToken | RefreshToken, RefreshToken => true
  | _, _ => false
  end.

(** Modelled from the spec: a signed token of core/auth.py, as the claims
    [{sub, user_id, role}] with the expiry instant, the kind it was issued
    as and the key it was signed with. *)
Record SignedToken : Type := mkSignedToken {
  kind : TokenKind;
  claims : Payload;
  exp : Z;
  signed_with : string
}.

(** Modelled from the spec: [issue_access(claims, ttl_minutes)] of
    core/auth.py signs the claims with the process-wide secret; the expiry
    is the issue time plus the time to live. *)
Definition issue_access (secret : string) (issued_at : Z) (data : Payload)
           (ttl_minutes : Z) : SignedToken :=
  mkSignedToken AccessToken data (issued_at + ttl_minutes * 60) secret.

(** Modelled from the spec: [issue_refresh(claims)] of core/auth.py has the
    same claim shape and signing key and an expiry policy of its own. *)
Definition issue_refresh (secret : string) (issued_at : Z)
           (refresh_ttl_seconds : Z) (data : Payload) : SignedToken :=
  mkSignedToken RefreshToken data (issued_at + refresh_ttl_seconds) secret.

(** Modelled from the spec: [decode_refresh(token)] of core/auth.py fails
    on a bad signature and on a token expired by the clock, and rejects a
    token of the wrong kind; otherwise it yields the claims. *)
Definition decode_refresh (secret : string) (now : Z) (t : SignedToken)
  : option Payload :=
  if negb (signed_with t =? secret) then None
  else if negb (now <? exp t)%Z then None
  else if negb (TokenKind_eqb (kind t) RefreshToken) then None
  else Some (claims t).

(** Modelled from the spec: [decode_refresh_token] on the wire form.  A
    malformed string does not parse; [parse] is the wire format's reader. *)
Definition decode_refresh_token (parse : string -> option SignedToken)
           (secret : string) (now : Z) (token : string) : option Payload :=
  match parse token with
  | None => None
  | Some t => decode_refresh secret now t
  end.

End Codec.

(** ** The /auth router as a transition on the database *)

(** The requests of the [/auth] router, with the bearer token of the
    protected ones. *)
Inductive AuthRequest : Type :=
| Register (user_data : UserCreate)
| Login (login_data : UserLogin)
| Refresh (refresh_data : string)
| Me (credentials : string)
| ChangePassword (credentials : string) (password_data : PasswordChange)
| Logout (credentials : string)
| ListUsers (credentials : string) (skip limit : Z)
| ToggleActive (credentials : string) (uid : Z).

Section Surface.

Variable decode_access_token : string -> option Payload.
Variable decode_refresh_token : string -> option Payload.
Variable verify_password : string -> string -> bool.
Variable get_password_hash : string -> string.
Variable create_access_token : Payload -> Z -> string.
Variable create_refresh_token : Payload -> string.

(** The database after the [/auth] router served one request. *)
Definition serve_auth (req : AuthRequest) (db : Db) : Db :=
  match req with
  | Register user_data =>
      state_after db (register_user get_password_hash user_data db)
  | Login _ | Refresh _ | Me _ | Logout _ | ListUsers _ _ _ => db
  | ChangePassword credentials password_data =>
      match Depends decode_access_token Return credentials db with
      | Return current_user =>
          state_after db
            (change_password verify_password get_password_hash
                             password_data current_user db)
      | Raise _ => db
      end
  | ToggleActive credentials uid =>
      match Depends decode_access_token require_admin credentials db with
      | Return current_user =>
          state_after db (toggle_user_active_status uid current_user db)
      | Raise _ => db
      end
  end.

End Surface.

(** [(id, role)] of each row, in storage order. *)
Definition roles_of (db : Db) : list (Z * UserRole) :=
  List.map (fun u => (id u, role u)) (users db).

(** [needle in hay] on strings. *)
Definition occurs_in (needle hay : string) : Prop :=
  exists before after, hay = before ++ needle ++ after.

(** What a role gate over the allowed roles does to a resolved user. *)
Definition role_gate (allowed : list UserRole) (gate : User -> result User)
  : Prop :=
  forall u,
    (role u ∈ allowed -> gate u = Return u) /\
    (role u ∉ allowed ->
     exists detail,
       gate u = Raise (HTTPException 403 detail []) /\
       forall r, r ∈ allowed -> occurs_in (value r) detail).

(** ** Well-formed paths *)

Fixpoint has_char (c : ascii) (s : string) : bool :=
  match s with
  | EmptyString => false
  | String a rest => Ascii.eqb a c || has_char c rest
  end.

Definition no_slash (part : string) : Prop := has_char "/" part = false.

(** The parts of a path hold no separator, the root apart. *)
Definition canonical (p : Path) : Prop :=
  if is_absolute p then Forall no_slash (List.tl p) else Forall no_slash p.

(** ** Sample data used to exercise the statements *)

Definition alice : User :=
  mkUser 1 "alice@example.com" None "h:password1" "Alice" ADMIN
         (Some true) (Some false) None None None None (Some "Japan") None.

Definition bob : User :=
  mkUser 2 "bob@example.com" None "h:hunter2hunter2" "Bob" VENDOR
         (Some true) (Some false) None None None None (Some "Japan") None.

Definition carol : User :=
  mkUser 3 "carol@example.com" None "h:carolcarol" "Carol" CONSUMER
         (Some false) (Some false) None None None None (Some "Japan") None.

(** The floats 1.0 and 150.0 *)
Definition float_1 : float := S754_finite false 4503599627370496 (-52).
Definition float_150 : float := S754_finite false 5277655813324800 (-45).

Definition niji_market : Market.t :=
  Market.mk 1 "Niji market" "1-2-3 Kita" "Sapporo" "Hokkaido" (Some true)
            None.

Definition sample_db : Db :=
  mkDb [alice; bob; carol] 4
       [Category.mk 1 "Vegetables" None None None None (Some true);
        Category.mk 2 "Fruits" None None None None (Some true)] 3
       [Product.mk 1 1 1 "Daikon" float_150 "piece" (Some float_1) None
                   (Some true) (Some false) None] 2
       [Vendor.mk 1 2 1 "Bob's farm" None None (Some false) None None None
                  None None None (Some 0)] 2
       [niji_market] 2.

(** A toy codec: the token of a user is ["token-of-"] and the e-mail. *)
Definition sample_decode (token : string) : option Payload :=
  token_data <$>
    query_first (fun u => token =? "token-of-" ++ email u) (users sample_db).

Definition sample_verify (password hashed : string) : bool :=
  hashed =? "h:" ++ password.

Definition sample_hash (password : string) : string := "h:" ++ password.

Definition sample_access (data : Payload) (minutes : Z) : string :=
  "token-of-" ++ default "" (sub data).

Definition sample_refresh (data : Payload) : string :=
  "refresh-of-" ++ default "" (sub data).

(** A codec whose access token shows the role claim it was minted with. *)
Definition sample_access_role (data : Payload) (minutes : Z) : string :=
  default "" (role_claim data).

(** A refresh token whose claims still say "consumer" for a user who is a
    vendor in the database. *)
Definition stale_refresh_decode (token : string) : option Payload :=
  if token =? "refresh-of-bob@example.com"
  then Some (mkPayload (Some "old@example.com") (Some 2) (Some "consumer"))
  else None.

(** The wire form of Bob's access token, issued at time 1000 for 30 minutes. *)
Definition sample_parse (token : string) : option Codec.SignedToken :=
  if token =? "access.bob"
  then Some (Codec.issue_access "k" 1000 (token_data bob) 30)
  else None.

Definition sample_fs : Fs :=
  <[ ["uploads"; "products"; "u1.png"] := [Byte.x89; Byte.x50] ]>
  (<[ ["uploads"; "products"; "thumb_u1.png"] := [Byte.x89] ]>
   (<[ ["uploads"; "markets"; "m.jpg"] := [Byte.xff] ]> ∅)).

(** An upload that claims to be a PNG and is not one. *)
Definition sample_upload : UploadFile :=
  mkUploadFile (Some "photo.PNG") (Some "image/png") [Byte.x68; Byte.x69].

Definition sample_env_no_thumbnail : Env :=
  mkEnv "u1" WriteOk (ThumbRaises "cannot identify image file" None).

Definition sample_env_disk_full : Env :=
  mkEnv "u1" (WriteFails 1 "disk full") (ThumbSaved [Byte.x89]).

(** * The rest of the routers *)

(** ** schemas/category.py and api/categories.py, continued *)

Record CategoryCreate : Type := mkCategoryCreate {
  cc_name : string;
  cc_name_ja : option string;
  cc_name_ne : option string;
  cc_description : option string;
  cc_icon : option string
}.

(** A field of an update schema as [dict(exclude_unset=True)] sees it: left
    out of the request, or given, possibly as null. *)
Inductive field (A : Type) : Type :=
| Unset
| Given (v : option A).
Arguments Unset {A}.
Arguments Given {A} v.

(** [setattr(row, name, value)] for every given field. *)
Definition assign {A} (f : field A) (old : option A) : option A :=
  match f with
  | Unset => old
  | Given v => v
  end.

Record CategoryUpdate : Type := mkCategoryUpdate {
  cu_name : field string;
  cu_name_ja : field string;
  cu_name_ne : field string;
  cu_description : field string;
  cu_icon : field string;
  cu_is_active : field bool
}.

(** [get_categories]; without ORDER BY the rows come in storage order.  The
    outer join grouped by [Category.id] counts, for each category, the
    products that reference it. *)
Definition get_categories (skip limit : Z) (active_only : bool) (db : Db)
  : result (list CategoryResponse) :=
  if (skip <? 0)%Z || (limit <? 0)%Z
  then Raise (DatabaseError "OFFSET/LIMIT must not be negative")
  else
    let query :=
      if active_only
      then List.filter (fun c => truthy (Category.is_active c)) (categories db)
      else categories db in
    let rows := take (Z.to_nat limit) (drop (Z.to_nat skip) query) in
    collect
      (fun category =>
         category_response category
           (query_count
              (fun p => (Product.category_id p =? Category.id category)%Z)
              (products db)))
      rows.

Definition create_category (category_data : CategoryCreate)
           (current_user : User) (db : Db) : result (CategoryResponse * Db) :=
  match query_first (fun c => Category.name c =? cc_name category_data)
                    (categories db) with
  | Some _ =>
      Raise (HTTPException 400 "Category with this name already exists" [])
  | None =>
      let db_category :=
        Category.mk (next_category_id db) (cc_name category_data)
                    (cc_name_ja category_data) (cc_name_ne category_data)
                    (cc_description category_data) (cc_icon category_data)
                    (Some true) in
      response ← category_response db_category 0;
      Return (response, add_category db_category db)
  end.

(** The row after the assignments of [update_category]; [None] when the
    request nulls the [name] column, which is NOT NULL. *)
Definition updated_category (category_data : CategoryUpdate)
           (category : Category.t) : option Category.t :=
  match assign (cu_name category_data) (Some (Category.name category)) with
  | None => None
  | Some name =>
      Some (Category.mk
              (Category.id category) name
              (assign (cu_name_ja category_data) (Category.name_ja category))
              (assign (cu_name_ne category_data) (Category.name_ne category))
              (assign (cu_description category_data)
                      (Category.description category))
              (assign (cu_icon category_data) (Category.icon category))
              (assign (cu_is_active category_data)
                      (Category.is_active category)))
  end.

(** [update_category].  The commit is refused by the database when the new
    name is null or is the name of another category; a response that does
    not validate is raised after the commit, so the handler returns the
    database it left next to its result. *)
Definition update_category (category_id : Z) (category_data : CategoryUpdate)
           (current_user : User) (db : Db) : result CategoryResponse * Db :=
  match query_first (fun c => (Category.id c =? category_id)%Z)
                    (categories db) with
  | None => (Raise category_not_found, db)
  | Some category =>
      match updated_category category_data category with
      | None => (Raise (DatabaseError "not-null constraint: categories.name"),
                 db)
      | Some category' =>
          if negb (Category.name category' =? Category.name category)
             && existsb (fun c =>
                           negb (Category.id c =? Category.id category)%Z
                           && (Category.name c =? Category.name category'))
                        (categories db)
          then (Raise (DatabaseError "unique constraint: categories.name"), db)
          else
            let db' :=
              set_categories
                (List.map (fun c => if (Category.id c =? Category.id category)%Z
                                    then category' else c)
                          (categories db)) db in
            let product_count :=
              query_count (fun p => (Product.category_id p =? category_id)%Z)
                          (products db') in
            (category_response category' product_count, db')
      end
  end.

(** ** seed_data.py *)

Definition initial_categories : list CategoryCreate :=
  [mkCategoryCreate "Vegetables" (Some "野菜") (Some "तरकारी")
                    (Some "Fresh vegetables and greens") (Some "🥬");
   mkCategoryCreate "Fruits" (Some "果物") (Some "फलफूल")
                    (Some "Fresh seasonal fruits") (Some "🍎");
   mkCategoryCreate "Herbs & Spices" (Some "ハーブ・スパイス")
                    (Some "जडिबुटी र मसला")
                    (Some "Fresh herbs and dried spices") (Some "🌿");
   mkCategoryCreate "Grains & Cereals" (Some "穀物") (Some "अनाज")
                    (Some "Rice, wheat, and other grains") (Some "🌾");
   mkCategoryCreate "Dairy Products" (Some "乳製品") (Some "दूध उत्पादन")
                    (Some "Fresh milk, cheese, and dairy") (Some "🥛");
   mkCategoryCreate "Meat & Poultry" (Some "肉類") (Some "मासु")
                    (Some "Fresh meat and poultry products") (Some "🥩")].

(** One turn of the seeding loop: the category is added unless a category of
    that name is already there. *)
Definition seed_category (db : Db) (cat_data : CategoryCreate) : Db :=
  match query_first (fun c => Category.name c =? cc_name cat_data)
                    (categories db) with
  | Some _ => db
  | None =>
      add_category
        (Category.mk (next_category_id db) (cc_name cat_data)
                     (cc_name_ja cat_data) (cc_name_ne cat_data)
                     (cc_description cat_data) (cc_icon cat_data) (Some true))
        db
  end.

Definition create_initial_categories (db : Db) : Db :=
  fold_left seed_category initial_categories db.

(** ** api/products.py, continued

    Handlers that also touch the upload directory take and return the file
    system next to the database.  The booking tables, which no endpoint
    writes, are empty and stay out of the model. *)

Definition set_products (ps : list Product.t) (db : Db) : Db :=
  mkDb (users db) (next_user_id db) (categories db) (next_category_id db)
       ps (next_product_id db) (vendors db) (next_vendor_id db) (markets db)
       (next_market_id db).

Definition set_vendors (vs : list Vendor.t) (db : Db) : Db :=
  mkDb (users db) (next_user_id db) (categories db) (next_category_id db)
       (products db) (next_product_id db) vs (next_vendor_id db) (markets db)
       (next_market_id db).

Definition set_markets (ms : list Market.t) (db : Db) : Db :=
  mkDb (users db) (next_user_id db) (categories db) (next_category_id db)
       (products db) (next_product_id db) (vendors db) (next_vendor_id db) ms
       (next_market_id db).

Definition set_main_image (image : option string) (p : Product.t)
  : Product.t :=
  Product.mk (Product.id p) (Product.vendor_id p) (Product.category_id p)
             (Product.name p) (Product.price_per_unit p) (Product.unit p)
             (Product.minimum_order p) (Product.stock_quantity p)
             (Product.is_available p) (Product.is_organic p) image.

Definition set_vendor_is_verified (b : option bool) (v : Vendor.t)
  : Vendor.t :=
  Vendor.mk (Vendor.id v) (Vendor.user_id v) (Vendor.market_id v)
            (Vendor.business_name v) (Vendor.business_description v)
            (Vendor.specialties v) b (Vendor.business_phone v)
            (Vendor.website v) (Vendor.social_media v)
            (Vendor.available_days v) (Vendor.available_from v)
            (Vendor.available_to v) (Vendor.total_reviews v).

Definition set_market_is_active (b : option bool) (m : Market.t)
  : Market.t :=
  Market.mk (Market.id m) (Market.name m) (Market.address m) (Market.city m)
            (Market.prefecture m) b (Market.main_image m).

Definition delete_product (product_id : Z) (current_user : User) (db : Db)
           (fs : Fs) : result (string * Db * Fs) :=
  match query_first (fun p => (Product.id p =? product_id)%Z)
                    (products db) with
  | None => Raise (HTTPException 404 "Product not found" [])
  | Some product =>
      let forbidden :=
        if UserRole_eqb (role current_user) VENDOR then
          match query_first (fun v => (Vendor.user_id v =? id current_user)%Z)
                            (vendors db) with
          | None => Some "Not authorized to delete this product"
          | Some vendor =>
              if negb (Product.vendor_id product =? Vendor.id vendor)%Z
              then Some "Not authorized to delete this product"
              else None
          end
        else if negb (UserRole_eqb (role current_user) ADMIN)
        then Some "Not authorized to delete products"
        else None in
      match forbidden with
      | Some detail => Raise (HTTPException 403 detail [])
      | None =>
          let fs' :=
            match Product.main_image product with
            | Some (String a rest) =>
                snd (delete_image (String a rest) "products" fs)
            | _ => fs
            end in
          let db' :=
            set_products
              (List.filter
                 (fun p => negb (Product.id p =? Product.id product)%Z)
                 (products db)) db in
          Return ("Product deleted successfully", db', fs')
      end
  end.

(** [upload_product_image]: the result, the database and the file system it
    leaves.  A failed [save_image] propagates before anything is committed. *)
Definition upload_product_image (env : Env) (product_id : Z)
           (file : UploadFile) (current_user : User) (db : Db) (fs : Fs)
  : result (string * string) * Db * Fs :=
  match query_first (fun p => (Product.id p =? product_id)%Z)
                    (products db) with
  | None => (Raise (HTTPException 404 "Product not found" []), db, fs)
  | Some product =>
      let forbidden :=
        if UserRole_eqb (role current_user) VENDOR then
          match query_first (fun v => (Vendor.user_id v =? id current_user)%Z)
                            (vendors db) with
          | None => Some "Not authorized to update this product"
          | Some vendor =>
              if negb (Product.vendor_id product =? Vendor.id vendor)%Z
              then Some "Not authorized to update this product"
              else None
          end
        else if negb (UserRole_eqb (role current_user) ADMIN)
        then Some "Not authorized to update products"
        else None in
      match forbidden with
      | Some detail => (Raise (HTTPException 403 detail []), db, fs)
      | None =>
          match save_image env file "products" fs with
          | (Raise e, fs1) => (Raise e, db, fs1)
          | (Return filename, fs1) =>
              let fs2 :=
                match Product.main_image product with
                | Some (String a rest) =>
                    snd (delete_image (String a rest) "products" fs1)
                | _ => fs1
                end in
              let db' :=
                set_products
                  (List.map
                     (fun p => if (Product.id p =? Product.id product)%Z
                               then set_main_image (Some filename) p else p)
                     (products db)) db in
              (Return ("Image uploaded successfully", filename), db', fs2)
          end
      end
  end.

(** ** api/vendors.py, continued *)

Definition vendor_not_found : exn := HTTPException 404 "Vendor not found" [].

Definition update_vendor_rows (pk : Z) (f : Vendor.t -> Vendor.t) (db : Db)
  : Db :=
  set_vendors
    (List.map (fun v => if (Vendor.id v =? pk)%Z then f v else v)
              (vendors db)) db.

Definition verify_vendor (vendor_id : Z) (current_user : User) (db : Db)
  : result (string * Db) :=
  match query_first (fun v => (Vendor.id v =? vendor_id)%Z) (vendors db) with
  | None => Raise vendor_not_found
  | Some vendor =>
      Return ("Vendor verified successfully",
              update_vendor_rows (Vendor.id vendor)
                                 (set_vendor_is_verified (Some true)) db)
  end.

Definition unverify_vendor (vendor_id : Z) (current_user : User) (db : Db)
  : result (string * Db) :=
  match query_first (fun v => (Vendor.id v =? vendor_id)%Z) (vendors db) with
  | None => Raise vendor_not_found
  | Some vendor =>
      Return ("Vendor verification removed",
              update_vendor_rows (Vendor.id vendor)
                                 (set_vendor_is_verified (Some false)) db)
  end.

(** ** api/markets.py *)

Definition delete_market (market_id : Z) (current_user : User) (db : Db)
  : result (string * Db) :=
  match query_first (fun m => (Market.id m =? market_id)%Z) (markets db) with
  | None => Raise (HTTPException 404 "Market not found" [])
  | Some market =>
      let active_vendors :=
        query_count (fun v => (Vendor.market_id v =? market_id)%Z)
                    (vendors db) in
      if (active_vendors >? 0)%Z then
        Return ("Market deactivated successfully",
                set_markets
                  (List.map
                     (fun m => if (Market.id m =? Market.id market)%Z
                               then set_market_is_active (Some false) m
                               else m)
                     (markets db)) db)
      else
        Return ("Market deleted successfully",
                set_markets
                  (List.filter
                     (fun m => negb (Market.id m =? Market.id market)%Z)
                     (markets db)) db)
  end.

(** ** schemas/market.py and api/markets.py, continued *)

(** [MarketCreate] and [MarketUpdate], on the columns of [Market.t]. *)
Record MarketCreate : Type := mkMarketCreate {
  mc_name : string;
  mc_address : string;
  mc_city : string;
  mc_prefecture : string
}.

Record MarketUpdate : Type := mkMarketUpdate {
  mu_name : field string;
  mu_address : field string;
  mu_city : field string;
  mu_prefecture : field string;
  mu_is_active : field bool
}.

Record MarketResponse : Type := mkMarketResponse {
  mr_id : Z;
  mr_name : string;
  mr_address : string;
  mr_city : string;
  mr_prefecture : string;
  mr_is_active : bool;
  mr_main_image : option string;
  mr_vendor_count : Z
}.

(** The [MarketResponse] constructor: [is_active: bool] is required. *)
Definition market_response (market : Market.t) (vendor_count : Z)
  : result MarketResponse :=
  match Market.is_active market with
  | Some b =>
      Return (mkMarketResponse
                (Market.id market) (Market.name market)
                (Market.address market) (Market.city market)
                (Market.prefecture market) b (Market.main_image market)
                vendor_count)
  | None => Raise (ValidationError "is_active")
  end.

Definition add_market (m : Market.t) (db : Db) : Db :=
  mkDb (users db) (next_user_id db) (categories db) (next_category_id db)
       (products db) (next_product_id db) (vendors db) (next_vendor_id db)
       (markets db ++ [m]) (next_market_id db + 1).

Definition update_market_rows (pk : Z) (f : Market.t -> Market.t) (db : Db)
  : Db :=
  set_markets
    (List.map (fun m => if (Market.id m =? pk)%Z then f m else m)
              (markets db)) db.

Definition create_market (market_data : MarketCreate) (current_user : User)
           (db : Db) : result (MarketResponse * Db) :=
  match query_first (fun m => (Market.name m =? mc_name market_data)
                              && (Market.city m =? mc_city market_data))
                    (markets db) with
  | Some _ =>
      Raise (HTTPException 400
               "Market with this name already exists in this city" [])
  | None =>
      let db_market :=
        Market.mk (next_market_id db) (mc_name market_data)
                  (mc_address market_data) (mc_city market_data)
                  (mc_prefecture market_data) (Some true) None in
      response ← market_response db_market 0;
      Return (response, add_market db_market db)
  end.

(** The row after the assignments of [update_market]; [None] when the
    request nulls one of the NOT NULL columns. *)
Definition updated_market (market_data : MarketUpdate) (market : Market.t)
  : option Market.t :=
  match assign (mu_name market_data) (Some (Market.name market)),
        assign (mu_address market_data) (Some (Market.address market)),
        assign (mu_city market_data) (Some (Market.city market)),
        assign (mu_prefecture market_data)
               (Some (Market.prefecture market)) with
  | Some name, Some address, Some city, Some prefecture =>
      Some (Market.mk (Market.id market) name address city prefecture
                      (assign (mu_is_active market_data)
                              (Market.is_active market))
                      (Market.main_image market))
  | _, _, _, _ => None
  end.

(** [update_market].  The database refuses the commit when a NOT NULL
    column is nulled; a response that does not validate is raised after the
    commit. *)
Definition update_market (market_id : Z) (market_data : MarketUpdate)
           (current_user : User) (db : Db) : result MarketResponse * Db :=
  match query_first (fun m => (Market.id m =? market_id)%Z) (markets db) with
  | None => (Raise (HTTPException 404 "Market not found" []), db)
  | Some market =>
      match updated_market market_data market with
      | None => (Raise (DatabaseError "not-null constraint: markets"), db)
      | Some market' =>
          let db' :=
            update_market_rows (Market.id market) (fun _ => market') db in
          let vendor_count :=
            query_count (fun v => (Vendor.market_id v =? market_id)%Z)
                        (vendors db') in
          (market_response market' vendor_count, db')
      end
  end.

(** [upload_market_image] is a plain [def] and calls the coroutine function
    [save_image] without awaiting it: no file is validated or written, and
    [filename] is a coroutine object.  The old image is deleted all the
    same; then the commit has to bind the coroutine object to the text
    column [main_image], which the database driver refuses, so the handler
    never returns and the row keeps its old value. *)
Definition upload_market_image (market_id : Z) (file : UploadFile)
           (current_user : User) (db : Db) (fs : Fs)
  : result (string * string) * Db * Fs :=
  match query_first (fun m => (Market.id m =? market_id)%Z) (markets db) with
  | None => (Raise (HTTPException 404 "Market not found" []), db, fs)
  | Some market =>
      let fs' :=
        match Market.main_image market with
        | Some (String a rest) =>
            snd (delete_image (String a rest) "markets" fs)
        | _ => fs
        end in
      (Raise (DatabaseError "can't adapt type 'coroutine'"), db, fs')
  end.

(** ** schemas/vendor.py and api/vendors.py, continued *)

Record VendorUpdate : Type := mkVendorUpdate {
  vu_business_name : field string;
  vu_business_description : field string;
  vu_specialties : field string;
  vu_business_phone : field string;
  vu_website : field string;
  vu_social_media : field string;
  vu_available_days : field string;
  vu_available_from : field string;
  vu_available_to : field string;
  vu_market_id : field Z
}.

(** The [VendorResponse] constructor on a stored row: [is_verified] and
    [total_reviews] are required, and so is [user], validated in turn as a
    [UserResponse] with its required [country], [is_active] and
    [is_verified]. *)
Definition vendor_response (vendor : Vendor.t) (user : option User)
           (market_name : option string) (product_count : Z)
  : result VendorResponse :=
  match Vendor.is_verified vendor, Vendor.total_reviews vendor, user with
  | None, _, _ => Raise (ValidationError "is_verified")
  | Some _, None, _ => Raise (ValidationError "total_reviews")
  | Some _, Some _, None => Raise (ValidationError "user")
  | Some _, Some _, Some u =>
      match country u, is_active u, is_verified u with
      | Some _, Some _, Some _ =>
          Return (mkVendorResponse vendor u market_name product_count)
      | _, _, _ => Raise (ValidationError "user")
      end
  end.

(** The row after the assignments of [update_vendor]; [None] when the
    request nulls [business_name] or [market_id]. *)
Definition updated_vendor (vendor_data : VendorUpdate) (vendor : Vendor.t)
  : option Vendor.t :=
  match assign (vu_business_name vendor_data)
               (Some (Vendor.business_name vendor)),
        assign (vu_market_id vendor_data) (Some (Vendor.market_id vendor)) with
  | Some business_name, Some market_id =>
      Some (Vendor.mk
              (Vendor.id vendor) (Vendor.user_id vendor) market_id
              business_name
              (assign (vu_business_description vendor_data)
                      (Vendor.business_description vendor))
              (assign (vu_specialties vendor_data) (Vendor.specialties vendor))
              (Vendor.is_verified vendor)
              (assign (vu_business_phone vendor_data)
                      (Vendor.business_phone vendor))
              (assign (vu_website vendor_data) (Vendor.website vendor))
              (assign (vu_social_media vendor_data)
                      (Vendor.social_media vendor))
              (assign (vu_available_days vendor_data)
                      (Vendor.available_days vendor))
              (assign (vu_available_from vendor_data)
                      (Vendor.available_from vendor))
              (assign (vu_available_to vendor_data)
                      (Vendor.available_to vendor))
              (Vendor.total_reviews vendor))
  | _, _ => None
  end.

(** [update_vendor].  The handler looks the new market up only when the
    given id is truthy and differs from the stored one; what it lets through
    still meets the NOT NULL columns and the foreign key of
    [vendors.market_id] at the commit (the database of core/config.py is
    PostgreSQL, which enforces both). *)
Definition update_vendor (vendor_id : Z) (vendor_data : VendorUpdate)
           (current_user : User) (db : Db) : result VendorResponse * Db :=
  match query_first (fun v => (Vendor.id v =? vendor_id)%Z) (vendors db) with
  | None => (Raise vendor_not_found, db)
  | Some vendor =>
      if negb (UserRole_eqb (role current_user) ADMIN)
         && negb (Vendor.user_id vendor =? id current_user)%Z
      then (Raise (HTTPException 403
                     "Not authorized to update this vendor profile" []), db)
      else
        let new_market_missing :=
          match vu_market_id vendor_data with
          | Given (Some market_id) =>
              negb (market_id =? 0)%Z
              && negb (market_id =? Vendor.market_id vendor)%Z
              && negb (bool_decide (is_Some
                   (query_first (fun m => (Market.id m =? market_id)%Z)
                                (markets db))))
          | _ => false
          end in
        if new_market_missing
        then (Raise (HTTPException 404 "New market not found" []), db)
        else
          match updated_vendor vendor_data vendor with
          | None => (Raise (DatabaseError "not-null constraint: vendors"), db)
          | Some vendor' =>
              if negb (Vendor.market_id vendor' =? Vendor.market_id vendor)%Z
                 && negb (existsb
                            (fun m =>
                               (Market.id m =? Vendor.market_id vendor')%Z)
                            (markets db))
              then (Raise (DatabaseError
                             "foreign key constraint: vendors.market_id"), db)
              else
                let db' :=
                  update_vendor_rows (Vendor.id vendor) (fun _ => vendor')
                                     db in
                let user :=
                  query_first (fun u => (id u =? Vendor.user_id vendor')%Z)
                              (users db') in
                let market :=
                  query_first
                    (fun m => (Market.id m =? Vendor.market_id vendor')%Z)
                    (markets db') in
                let product_count :=
                  query_count (fun p => (Product.vendor_id p =? vendor_id)%Z)
                              (products db') in
                (vendor_response vendor' user (Market.name <$> market)
                                 product_count, db')
          end
  end.

(** ** schemas/product.py and api/products.py, continued *)

Record ProductCreate : Type := mkProductCreate {
  pc_name : string;
  pc_price_per_unit : float;
  pc_unit : string;
  pc_minimum_order : float;
  pc_stock_quantity : option float;
  pc_is_organic : bool;
  pc_category_id : Z
}.

Record ProductUpdate : Type := mkProductUpdate {
  pu_name : field string;
  pu_price_per_unit : field float;
  pu_unit : field string;
  pu_minimum_order : field float;
  pu_stock_quantity : field float;
  pu_is_available : field bool;
  pu_is_organic : field bool;
  pu_category_id : field Z
}.

Record ProductResponse : Type := mkProductResponse {
  pr_id : Z;
  pr_vendor_id : Z;
  pr_category_id : Z;
  pr_name : string;
  pr_price_per_unit : float;
  pr_unit : string;
  pr_minimum_order : float;
  pr_stock_quantity : option float;
  pr_is_available : bool;
  pr_is_organic : bool;
  pr_main_image : option string;
  pr_category : CategoryResponse;
  pr_vendor_name : option string;
  pr_market_name : option string
}.

(** The [ProductResponse] constructor on a stored row: [minimum_order],
    [is_organic] and [is_available] are required, and so is [category],
    validated in turn as a [CategoryResponse] whose [product_count] takes
    its default. *)
Definition product_response (product : Product.t)
           (category : option Category.t)
           (vendor_name market_name : option string)
  : result ProductResponse :=
  match Product.minimum_order product, Product.is_organic product,
        Product.is_available product, category with
  | None, _, _, _ => Raise (ValidationError "minimum_order")
  | Some _, None, _, _ => Raise (ValidationError "is_organic")
  | Some _, Some _, None, _ => Raise (ValidationError "is_available")
  | Some _, Some _, Some _, None => Raise (ValidationError "category")
  | Some minimum_order, Some organic, Some available, Some c =>
      match category_response c 0 with
      | Raise _ => Raise (ValidationError "category")
      | Return category =>
          Return (mkProductResponse
                    (Product.id product) (Product.vendor_id product)
                    (Product.category_id product) (Product.name product)
                    (Product.price_per_unit product) (Product.unit product)
                    minimum_order (Product.stock_quantity product)
                    available organic (Product.main_image product)
                    category vendor_name market_name)
      end
  end.

Definition add_product (p : Product.t) (db : Db) : Db :=
  mkDb (users db) (next_user_id db) (categories db) (next_category_id db)
       (products db ++ [p]) (next_product_id db + 1) (vendors db)
       (next_vendor_id db) (markets db) (next_market_id db).

Definition update_product_rows (pk : Z) (f : Product.t -> Product.t)
           (db : Db) : Db :=
  set_products
    (List.map (fun p => if (Product.id p =? pk)%Z then f p else p)
              (products db)) db.

(** [create_product].  [ProductCreate] has no [vendor_id]: the handler fills
    it in from the vendor profile of a vendor, and for an admin leaves it
    out, so that the insert meets the NOT NULL column [products.vendor_id]
    at the commit. *)
Definition create_product (product_data : ProductCreate)
           (current_user : User) (db : Db) : result ProductResponse * Db :=
  let vendor : result (option Vendor.t) :=
    if UserRole_eqb (role current_user) VENDOR then
      match query_first (fun v => (Vendor.user_id v =? id current_user)%Z)
                        (vendors db) with
      | None => Raise (HTTPException 400 "Vendor profile not found" [])
      | Some vendor => Return (Some vendor)
      end
    else if UserRole_eqb (role current_user) ADMIN then Return None
    else Raise (HTTPException 403 "Only vendors can create products" []) in
  match vendor with
  | Raise e => (Raise e, db)
  | Return vendor =>
      match query_first
              (fun c => (Category.id c =? pc_category_id product_data)%Z)
              (categories db) with
      | None => (Raise category_not_found, db)
      | Some category =>
          match vendor with
          | None =>
              (Raise (DatabaseError
                        "not-null constraint: products.vendor_id"), db)
          | Some vendor =>
              let db_product :=
                Product.mk (next_product_id db) (Vendor.id vendor)
                           (pc_category_id product_data)
                           (pc_name product_data)
                           (pc_price_per_unit product_data)
                           (pc_unit product_data)
                           (Some (pc_minimum_order product_data))
                           (pc_stock_quantity product_data)
                           (Some true)
                           (Some (pc_is_organic product_data))
                           None in
              let db' := add_product db_product db in
              let market :=
                query_first
                  (fun m => (Market.id m =? Vendor.market_id vendor)%Z)
                  (markets db') in
              (product_response db_product (Some category)
                                (Some (Vendor.business_name vendor))
                                (Market.name <$> market), db')
          end
      end
  end.

(** The row after the assignments of [update_product]; [None] when the
    request nulls one of the NOT NULL columns. *)
Definition updated_product (product_data : ProductUpdate)
           (product : Product.t) : option Product.t :=
  match assign (pu_name product_data) (Some (Product.name product)),
        assign (pu_price_per_unit product_data)
               (Some (Product.price_per_unit product)),
        assign (pu_unit product_data) (Some (Product.unit product)),
        assign (pu_category_id product_data)
               (Some (Product.category_id product)) with
  | Some name, Some price_per_unit, Some unit, Some category_id =>
      Some (Product.mk
              (Product.id product) (Product.vendor_id product) category_id
              name price_per_unit unit
              (assign (pu_minimum_order product_data)
                      (Product.minimum_order product))
              (assign (pu_stock_quantity product_data)
                      (Product.stock_quantity product))
              (assign (pu_is_available product_data)
                      (Product.is_available product))
              (assign (pu_is_organic product_data)
                      (Product.is_organic product))
              (Product.main_image product))
  | _, _, _, _ => None
  end.

(** [update_product], with the permission check of [upload_product_image]
    and, at the commit, the NOT NULL columns and the foreign key of
    [products.category_id]. *)
Definition update_product (product_id : Z) (product_data : ProductUpdate)
           (current_user : User) (db : Db) : result ProductResponse * Db :=
  match query_first (fun p => (Product.id p =? product_id)%Z)
                    (products db) with
  | None => (Raise (HTTPException 404 "Product not found" []), db)
  | Some product =>
      let forbidden :=
        if UserRole_eqb (role current_user) VENDOR then
          match query_first (fun v => (Vendor.user_id v =? id current_user)%Z)
                            (vendors db) with
          | None => Some "Not authorized to update this product"
          | Some vendor =>
              if negb (Product.vendor_id product =? Vendor.id vendor)%Z
              then Some "Not authorized to update this product"
              else None
          end
        else if negb (UserRole_eqb (role current_user) ADMIN)
        then Some "Not authorized to update products"
        else None in
      match forbidden with
      | Some detail => (Raise (HTTPException 403 detail []), db)
      | None =>
          let new_category_missing :=
            match pu_category_id product_data with
            | Given (Some category_id) =>
                negb (category_id =? 0)%Z
                && negb (category_id =? Product.category_id product)%Z
                && negb (bool_decide (is_Some
                     (query_first (fun c => (Category.id c =? category_id)%Z)
                                  (categories db))))
            | _ => false
            end in
          if new_category_missing
          then (Raise (HTTPException 404 "New category not found" []), db)
          else
            match updated_product product_data product with
            | None =>
                (Raise (DatabaseError "not-null constraint: products"), db)
            | Some product' =>
                if negb (Product.category_id product'
                         =? Product.category_id product)%Z
                   && negb (existsb
                              (fun c => (Category.id c
                                         =? Product.category_id product')%Z)
                              (categories db))
                then (Raise (DatabaseError
                               "foreign key constraint: products.category_id"),
                      db)
                else
                  let db' :=
                    update_product_rows (Product.id product)
                                        (fun _ => product') db in
                  let category :=
                    query_first
                      (fun c => (Category.id c
                                 =? Product.category_id product')%Z)
                      (categories db') in
                  let vendor :=
                    query_first
                      (fun v => (Vendor.id v =? Product.vendor_id product')%Z)
                      (vendors db') in
                  let market :=
                    match vendor with
                    | Some v =>
                        query_first
                          (fun m => (Market.id m =? Vendor.market_id v)%Z)
                          (markets db')
                    | None => None
                    end in
                  (product_response product' category
                                    (Vendor.business_name <$> vendor)
                                    (Market.name <$> market), db')
            end
      end
  end.

(** ** core/dependencies.py, continued: the bearer scheme

    [security = HTTPBearer()] is the first link of every protected chain:
    FastAPI's own class reads the [Authorization] header of the request and
    either hands the credentials on or raises.  It is not among the sources
    and enters as a parameter. *)
Definition secured (security : option string -> result string)
           (decode_access_token : string -> option Payload)
           (gate : User -> result User) (authorization : option string)
           (db : Db) : result User :=
  credentials ← security authorization;
  Depends decode_access_token gate credentials db.

(** ** The exposed surface, router by router

    The state of the service is the database and the upload directory.  A
    request is served by the handler of its route behind the dependency the
    route declares; a request refused before the handler runs, and a handler
    that raises before its [db.commit()], leave the state as it was.  The
    handlers that only query hold no [db.add], no [db.delete], no attribute
    assignment and no [db.commit()]: the session they used is closed with
    nothing to write. *)

(** The routes of main.py, which take no database session: the two
    handlers and the read-only mount of the upload directory. *)
Inductive MainRequest : Type :=
| ReadRoot
| HealthCheck
| GetUpload (path : string).

Inductive MarketsRequest : Type :=
| GetMarkets (skip limit : Z) (city prefecture market_type : option string)
             (active_only : bool)
| GetMarket (market_id : Z)
| CreateMarket (credentials : string) (market_data : MarketCreate)
| UpdateMarket (credentials : string) (market_id : Z)
               (market_data : MarketUpdate)
| DeleteMarket (credentials : string) (market_id : Z)
| UploadMarketImage (credentials : string) (market_id : Z)
                    (file : UploadFile)
| GetMarketSuggestions (q : string) (limit : Z).

Inductive VendorsRequest : Type :=
| GetVendors (skip limit : Z) (market_id : option Z) (verified_only : bool)
| GetVendor (vendor_id : Z)
| CreateVendorProfile (credentials : string) (vendor_data : VendorCreate)
| UpdateVendor (credentials : string) (vendor_id : Z)
               (vendor_data : VendorUpdate)
| GetMyVendorProfile (credentials : string)
| VerifyVendor (credentials : string) (vendor_id : Z)
| UnverifyVendor (credentials : string) (vendor_id : Z)
| GetVendorsByMarket (market_id : Z) (verified_only : bool).

Inductive CategoriesRequest : Type :=
| GetCategories (skip limit : Z) (active_only : bool)
| GetCategory (category_id : Z)
| CreateCategory (credentials : string) (category_data : CategoryCreate)
| UpdateCategory (credentials : string) (category_id : Z)
                 (category_data : CategoryUpdate)
| DeleteCategory (credentials : string) (category_id : Z).

(** [UploadProductImage] comes with what [save_image] draws from its
    environment while the request is served. *)
Inductive ProductsRequest : Type :=
| GetProducts (skip limit : Z) (vendor_id category_id market_id : option Z)
              (is_organic : option bool) (available_only : bool)
              (search : option string) (min_price max_price : option float)
| GetProduct (product_id : Z)
| CreateProduct (credentials : string) (product_data : ProductCreate)
| UpdateProduct (credentials : string) (product_id : Z)
                (product_data : ProductUpdate)
| DeleteProduct (credentials : string) (product_id : Z)
| UploadProductImage (env : Env) (credentials : string) (product_id : Z)
                     (file : UploadFile)
| GetVendorProducts (vendor_id : Z) (available_only : bool)
| GetMyProducts (credentials : string)
| GetProductSearchSuggestions (q : string) (limit : Z).

Section Routers.

Variable decode_access_token : string -> option Payload.

(** The state after the markets router served one request. *)
Definition serve_markets (req : MarketsRequest) (s : Db * Fs) : Db * Fs :=
  let (db, fs) := s in
  match req with
  (* [get_markets], [get_market], [get_market_suggestions]: queries only *)
  | GetMarkets _ _ _ _ _ _ | GetMarket _ | GetMarketSuggestions _ _ => s
  | CreateMarket credentials market_data =>
      match Depends decode_access_token require_admin credentials db with
      | Return current_user =>
          (state_after db (create_market market_data current_user db), fs)
      | Raise _ => s
      end
  | UpdateMarket credentials market_id market_data =>
      match Depends decode_access_token require_admin credentials db with
      | Return current_user =>
          (snd (update_market market_id market_data current_user db), fs)
      | Raise _ => s
      end
  | DeleteMarket credentials market_id =>
      match Depends decode_access_token require_admin credentials db with
      | Return current_user =>
          (state_after db (delete_market market_id current_user db), fs)
      | Raise _ => s
      end
  | UploadMarketImage credentials market_id file =>
      match Depends decode_access_token require_admin credentials db with
      | Return current_user =>
          let '(_, db', fs') :=
            upload_market_image market_id file current_user db fs in
          (db', fs')
      | Raise _ => s
      end
  end.

(** The state after the vendors router served one request. *)
Definition serve_vendors (req : VendorsRequest) (s : Db * Fs) : Db * Fs :=
  let (db, fs) := s in
  match req with
  (* [get_vendors], [get_vendor], [get_my_vendor_profile],
     [get_vendors_by_market]: queries only *)
  | GetVendors _ _ _ _ | GetVendor _ | GetMyVendorProfile _
  | GetVendorsByMarket _ _ => s
  | CreateVendorProfile credentials vendor_data =>
      match Depends decode_access_token Return credentials db with
      | Return current_user =>
          (state_after db (create_vendor_profile vendor_data current_user db),
           fs)
      | Raise _ => s
      end
  | UpdateVendor credentials vendor_id vendor_data =>
      match Depends decode_access_token Return credentials db with
      | Return current_user =>
          (snd (update_vendor vendor_id vendor_data current_user db), fs)
      | Raise _ => s
      end
  | VerifyVendor credentials vendor_id =>
      match Depends decode_access_token require_admin credentials db with
      | Return current_user =>
          (state_after db (verify_vendor vendor_id current_user db), fs)
      | Raise _ => s
      end
  | UnverifyVendor credentials vendor_id =>
      match Depends decode_access_token require_admin credentials db with
      | Return current_user =>
          (state_after db (unverify_vendor vendor_id current_user db), fs)
      | Raise _ => s
      end
  end.

(** The state after the categories router served one request. *)
Definition serve_categories (req : CategoriesRequest) (s : Db * Fs)
  : Db * Fs :=
  let (db, fs) := s in
  match req with
  (* [get_categories], [get_category]: queries only *)
  | GetCategories _ _ _ | GetCategory _ => s
  | CreateCategory credentials category_data =>
      match Depends decode_access_token require_admin credentials db with
      | Return current_user =>
          (state_after db (create_category category_data current_user db), fs)
      | Raise _ => s
      end
  | UpdateCategory credentials category_id category_data =>
      match Depends decode_access_token require_admin credentials db with
      | Return current_user =>
          (snd (update_category category_id category_data current_user db),
           fs)
      | Raise _ => s
      end
  | DeleteCategory credentials category_id =>
      match Depends decode_access_token require_admin credentials db with
      | Return current_user =>
          (state_after db (delete_category category_id current_user db), fs)
      | Raise _ => s
      end
  end.

(** The state after the products router served one request. *)
Definition serve_products (req : ProductsRequest) (s : Db * Fs) : Db * Fs :=
  let (db, fs) := s in
  match req with
  (* [get_products], [get_product], [get_vendor_products],
     [get_my_products], [get_product_search_suggestions]: queries only *)
  | GetProducts _ _ _ _ _ _ _ _ _ _ | GetProduct _ | GetVendorProducts _ _
  | GetMyProducts _ | GetProductSearchSuggestions _ _ => s
  | CreateProduct credentials product_data =>
      match Depends decode_access_token Return credentials db with
      | Return current_user =>
          (snd (create_product product_data current_user db), fs)
      | Raise _ => s
      end
  | UpdateProduct credentials product_id product_data =>
      match Depends decode_access_token Return credentials db with
      | Return current_user =>
          (snd (update_product product_id product_data current_user db), fs)
      | Raise _ => s
      end
  | DeleteProduct credentials product_id =>
      match Depends decode_access_token Return credentials db with
      | Return current_user =>
          match delete_product product_id current_user db fs with
          | Return (_, db', fs') => (db', fs')
          | Raise _ => s
          end
      | Raise _ => s
      end
  | UploadProductImage env credentials product_id file =>
      match Depends decode_access_token Return credentials db with
      | Return current_user =>
          let '(_, db', fs') :=
            upload_product_image env product_id file current_user db fs in
          (db', fs')
      | Raise _ => s
      end
  end.

End Routers.

(** One request against the service.  The codec a request meets is the
    codec of its instant, so every step comes with its own. *)
Inductive step : Db * Fs -> Db * Fs -> Prop :=
| step_main (req : MainRequest) (s : Db * Fs) :
    step s s
| step_auth (decode_access_token : string -> option Payload)
            (verify_password : string -> string -> bool)
            (get_password_hash : string -> string)
            (req : AuthRequest) (db : Db) (fs : Fs) :
    step (db, fs)
         (serve_auth decode_access_token verify_password get_password_hash
                     req db, fs)
| step_markets (decode_access_token : string -> option Payload)
               (req : MarketsRequest) (s : Db * Fs) :
    step s (serve_markets decode_access_token req s)
| step_vendors (decode_access_token : string -> option Payload)
               (req : VendorsRequest) (s : Db * Fs) :
    step s (serve_vendors decode_access_token req s)
| step_categories (decode_access_token : string -> option Payload)
                  (req : CategoriesRequest) (s : Db * Fs) :
    step s (serve_categories decode_access_token req s)
| step_products (decode_access_token : string -> option Payload)
                (req : ProductsRequest) (s : Db * Fs) :
    step s (serve_products decode_access_token req s).

(** ** Well-formed tables *)

(** What the schema's primary keys and unique indexes say about [users],
    with the sequence ahead of every id in use. *)
Definition users_wf (db : Db) : Prop :=
  NoDup (List.map id (users db)) /\
  NoDup (List.map email (users db)) /\
  Forall (fun u => (id u < next_user_id db)%Z) (users db).

(** Every vendor belongs to a market that is there, and no user has two
    vendor profiles. *)
Definition vendors_wf (db : Db) : Prop :=
  Forall (fun v => exists m, In m (markets db) /\
                             Market.id m = Vendor.market_id v)
         (vendors db) /\
  NoDup (List.map Vendor.user_id (vendors db)).

(** Two rows of [users] that agree on every column but the two timestamps:
    [updated_at] is rewritten by every UPDATE of a row, whatever the handler
    assigns. *)
Definition same_user_columns (u u' : User) : Prop :=
  id u' = id u /\ email u' = email u /\ phone u' = phone u /\
  hashed_password u' = hashed_password u /\ full_name u' = full_name u /\
  role u' = role u /\ is_active u' = is_active u /\
  is_verified u' = is_verified u /\ profile_image u' = profile_image u /\
  address u' = address u /\ city u' = city u /\
  prefecture u' = prefecture u /\ country u' = country u /\
  postal_code u' = postal_code u.

(** A name that is one plain path component. *)
Definition plain_name (name : string) : Prop :=
  has_char "/" name = false /\ name <> "" /\ name <> ".".

(** ** More sample data *)

Definition dave_data : UserCreate :=
  mkUserCreate "dave@example.com" "Dave" None None None None "Japan" None
               "davedave1" VENDOR.

(** Two users on file with a telephone number, one of them the empty
    string. *)
Definition erin : User :=
  mkUser 1 "erin@example.com" (Some "") "h:erinerin1" "Erin" CONSUMER
         (Some true) (Some false) None None None None (Some "Japan") None.

Definition frank : User :=
  mkUser 2 "frank@example.com" (Some "0312345678") "h:frankfrank" "Frank"
         CONSUMER (Some true) (Some false) None None None None (Some "Japan")
         None.

Definition phone_db : Db := mkDb [erin; frank] 3 [] 1 [] 1 [] 1 [] 1.

Definition grace_data (number : string) : UserCreate :=
  mkUserCreate "grace@example.com" "Grace" (Some number) None None None
               "Japan" None "gracegrace" CONSUMER.

(** What the schema says about [categories]: a primary key, unique names,
    and the id sequence ahead of every id in use. *)
Definition categories_wf (db : Db) : Prop :=
  NoDup (List.map Category.id (categories db)) /\
  NoDup (List.map Category.name (categories db)) /\
  Forall (fun c => (Category.id c < next_category_id db)%Z) (categories db).

(** The foreign key of [products.category_id]. *)
Definition products_categorised (db : Db) : Prop :=
  Forall (fun p => exists c, In c (categories db) /\
                             Category.id c = Product.category_id p)
         (products db).

Definition sample_category_update : CategoryUpdate :=
  mkCategoryUpdate Unset Unset Unset Unset Unset (Given None).

Definition rename_to_vegetables : CategoryUpdate :=
  mkCategoryUpdate (Given (Some "Vegetables")) Unset Unset Unset Unset Unset.

(** Who may change or delete a product: an admin, or the vendor user whose
    profile the product belongs to. *)
Definition may_change_product (user : User) (product : Product.t) (db : Db)
  : Prop :=
  role user = ADMIN \/
  (role user = VENDOR /\
   exists vendor,
     query_first (fun v => (Vendor.user_id v =? id user)%Z) (vendors db) =
       Some vendor /\
     Product.vendor_id product = Vendor.id vendor).

(** A store with one product image and its thumbnail, and the database
    whose product points at it. *)
Definition image_db : Db :=
  mkDb [alice; bob; carol] 4
       [Category.mk 1 "Vegetables" None None None None (Some true)] 2
       [Product.mk 1 1 1 "Daikon" float_150 "piece" (Some float_1) None
                   (Some true) (Some false) (Some "old.png");
        Product.mk 2 7 1 "Yuzu" float_150 "piece" (Some float_1) None
                   (Some true) (Some true) None] 3
       [Vendor.mk 1 2 1 "Bob's farm" None None (Some false) None None None
                  None None None (Some 0)] 2
       [niji_market] 2.

Definition image_fs : Fs :=
  <[ ["uploads"; "products"; "old.png"] := [Byte.x01] ]>
  (<[ ["uploads"; "products"; "thumb_old.png"] := [Byte.x02] ]> ∅).

(** The sample database before Bob has a vendor profile. *)
Definition vendorless_db : Db :=
  mkDb [alice; bob; carol] 4 (categories sample_db) 3 (products sample_db)
       2 [] 1 (markets sample_db) 2.

Definition stall_data (name : string) : VendorCreate :=
  mkVendorCreate name None None None None None None None None 1.

(** Bob renames his stall and puts the daikon up to 150. *)
Definition rename_stall : VendorUpdate :=
  mkVendorUpdate (Given (Some "Bob's organic farm")) Unset Unset Unset Unset
                 Unset Unset Unset Unset Unset.

Definition reprice_daikon : ProductUpdate :=
  mkProductUpdate Unset (Given (Some float_150)) Unset Unset Unset Unset
                  Unset Unset.

(** A stand-in for the bearer scheme: a request without an [Authorization]
    header, or with one of another scheme, is refused with a 403. *)
Definition sample_security (authorization : option string) : result string :=
  match authorization with
  | None => Raise (HTTPException 403 "Not authenticated" [])
  | Some header =>
      if String.prefix "Bearer " header
      then Return (String.substring 7 (String.length header - 7) header)
      else Raise (HTTPException 403 "Invalid authentication credentials" [])
  end.

(** A codec of a later hour: it mints tokens that show their generation. *)
Definition later_access (data : Payload) (minutes : Z) : string :=
  "token2-of-" ++ default "" (sub data).

Definition later_refresh (data : Payload) : string :=
  "refresh2-of-" ++ default "" (sub data).


(** The sample database once its market has a picture, and the upload
    directory with that picture and its thumbnail. *)
Definition pictured_db : Db :=
  set_markets
    [Market.mk 1 "Niji market" "1-2-3 Kita" "Sapporo" "Hokkaido" (Some true)
               (Some "gate.png")] sample_db.

Definition pictured_fs : Fs :=
  <[ ["uploads"; "markets"; "gate.png"] := [Byte.x01] ]>
  (<[ ["uploads"; "markets"; "thumb_gate.png"] := [Byte.x02] ]> ∅).

(** The refresh side of the toy codec. *)
Definition sample_refresh_decode (token : string) : option Payload :=
  token_data <$>
    query_first (fun u => token =? "refresh-of-" ++ email u)
                (users sample_db).

Definition mallory_data : UserCreate :=
  mkUserCreate "mallory@example.com" "Mallory" None None None None "Japan"
               None "malloryyy" ADMIN.

Definition mallory_decode (token : string) : option Payload :=
  if token =? "token-of-mallory@example.com"
  then Some (mkPayload (Some "mallory@example.com") (Some 4) (Some "admin"))
  else None.

(** * Properties *)

(** ** The model on the sample data *)

Example resolve_active_user :
  get_current_user sample_decode "token-of-bob@example.com" sample_db =
    Return bob.
Proof. reflexivity. Qed.

Example resolve_inactive_user :
  get_current_user sample_decode "token-of-carol@example.com" sample_db =
    Raise (HTTPException 400 "Inactive user" []).
Proof. reflexivity. Qed.

Example resolve_unknown_token :
  get_current_user sample_decode "garbage" sample_db =
    Raise (HTTPException 401 "Could not validate credentials"
             [("WWW-Authenticate", "Bearer")]).
Proof. reflexivity. Qed.

Example vendor_or_admin_message :
  require_vendor_or_admin carol =
    Raise (HTTPException 403
             "Operation requires one of these roles: vendor, admin" []).
Proof. reflexivity. Qed.

Example suffix_examples :
  List.map (fun s => lower (suffix (path_of s)))
           ["a/b/photo.PNG"; "archive.tar.gz"; ".bashrc"; "trailing.";
            "noext"; "dir.d/name"] =
    [".png"; ".gz"; ""; ""; ""; ""].
Proof. reflexivity. Qed.

Example validate_examples :
  List.map validate_image_file
           [mkUploadFile (Some "a.png") (Some "image/png") [];
            mkUploadFile (Some "a.png") (Some "text/plain") [];
            mkUploadFile (Some "a.exe") (Some "image/png") [];
            mkUploadFile None (Some "image/png") [];
            mkUploadFile (Some "a.JPEG") (Some "image/jpeg") []] =
    [true; false; false; false; true].
Proof. vm_compute. reflexivity. Qed.

Example save_then_delete :
  let saved :=
    save_image (mkEnv "u1" WriteOk (ThumbSaved [Byte.x89]))
               sample_upload "products" ∅ in
  fst saved = Return "u1.png" /\
  map_to_list (snd saved) =
    [(["uploads"; "products"; "u1.png"], [Byte.x68; Byte.x69]);
     (["uploads"; "products"; "thumb_u1.png"], [Byte.x89])] /\
  delete_image "u1.png" "products" (snd saved) = (true, ∅).
Proof. vm_compute. repeat split. Qed.

(** ** Queries and updates *)

Lemma query_first_map {A} (p : A -> bool) (g : A -> A) (rows : list A) :
  (forall x, p (g x) = p x) ->
  query_first p (List.map g rows) = g <$> query_first p rows.
Proof.
  intros Hp. unfold query_first.
  induction rows as [|x rows IH]; simpl; [reflexivity|].
  rewrite Hp. destruct (p x); [reflexivity|exact IH].
Qed.

Lemma query_first_holds {A} (p : A -> bool) (rows : list A) (x : A) :
  query_first p rows = Some x -> p x = true /\ In x rows.
Proof.
  unfold query_first. intros H. apply List.find_some in H. tauto.
Qed.

Lemma query_first_filter_out {A} (p q : A -> bool) (rows : list A) :
  (forall x, p x = true -> q x = false) ->
  query_first p (List.filter q rows) = None.
Proof.
  intros Hpq. unfold query_first.
  induction rows as [|x rows IH]; simpl; [reflexivity|].
  destruct (q x) eqn:Hq; [|exact IH].
  simpl. destruct (p x) eqn:Hpx; [|exact IH].
  apply Hpq in Hpx. congruence.
Qed.

Lemma id_set_is_active b u : id (set_is_active b u) = id u.
Proof. reflexivity. Qed.

Lemma users_update_user pk f db :
  users (update_user pk f db) =
  List.map (fun u => if (id u =? pk)%Z then f u else u) (users db).
Proof. reflexivity. Qed.

(** After [UPDATE users ... WHERE id = pk], the row found under a key is the
    old row under that key, updated when the key is [pk]. *)
Lemma query_first_update_user pk f db k :
  (forall u, id (f u) = id u) ->
  query_first (fun u => (id u =? k)%Z) (users (update_user pk f db)) =
  (fun u => if (id u =? pk)%Z then f u else u) <$>
    query_first (fun u => (id u =? k)%Z) (users db).
Proof.
  intros Hid. rewrite users_update_user.
  apply (query_first_map (fun u => (id u =? k)%Z)).
  intros u. destruct (id u =? pk)%Z; [rewrite Hid|]; reflexivity.
Qed.

(** ** Identity resolution *)

Section Resolver.

Variable decode_access_token : string -> option Payload.

Local Abbreviation resolve := (get_current_user decode_access_token).

Lemma resolve_decode_fails credentials db :
  decode_access_token credentials = None ->
  resolve credentials db = Raise credentials_exception.
Proof. intros H. unfold get_current_user. rewrite H. reflexivity. Qed.

Lemma resolve_claim_missing credentials db payload :
  decode_access_token credentials = Some payload ->
  sub payload = None \/ user_id payload = None ->
  resolve credentials db = Raise credentials_exception.
Proof.
  intros H [Hs|Hu]; unfold get_current_user; rewrite H.
  - rewrite Hs. reflexivity.
  - rewrite Hu. destruct (sub payload); reflexivity.
Qed.

Lemma resolve_found credentials db payload subject uid :
  decode_access_token credentials = Some payload ->
  sub payload = Some subject ->
  user_id payload = Some uid ->
  resolve credentials db =
  match query_first (fun u => (id u =? uid)%Z) (users db) with
  | None => Raise credentials_exception
  | Some user =>
      if truthy (is_active user) then Return user else Raise inactive_user
  end.
Proof.
  intros H Hs Hu. unfold get_current_user. rewrite H, Hs, Hu.
  destruct (query_first _ _) as [user|]; [|reflexivity].
  destruct (truthy (is_active user)); reflexivity.
Qed.

Lemma toggle_deactivates uid admin db user :
  query_first (fun u => (id u =? uid)%Z) (users db) = Some user ->
  truthy (is_active user) = true ->
  exists db',
    toggle_user_active_status uid admin db =
      Return ("User deactivated successfully", db') /\
    query_first (fun u => (id u =? uid)%Z) (users db') =
      Some (set_is_active (Some false) user).
Proof.
  intros Hq Hact. unfold toggle_user_active_status. rewrite Hq, Hact. simpl.
  eexists. split; [reflexivity|].
  rewrite query_first_update_user by apply id_set_is_active.
  rewrite Hq. simpl. rewrite Z.eqb_refl. reflexivity.
Qed.

End Resolver.

(** C1.  Identity resolution classifies its failures: a token that does not
    decode, a missing subject or user id claim, and a user id with no row
    each raise the 401 credentials exception; a row that is found but not
    active raises the distinct 400 "Inactive user" error; an active row is
    returned as it stands in the database.  Since the row is read at every
    request, deactivating an active user through the toggle makes the next
    request with that user's still decodable token raise "Inactive user". *)
Theorem C1_identity_resolution
    (decode_access_token : string -> option Payload)
    (credentials : string) (db : Db) :
  status_of credentials_exception = 401 /\
  status_of inactive_user = 400 /\
  (decode_access_token credentials = None ->
   get_current_user decode_access_token credentials db =
     Raise credentials_exception) /\
  (forall payload,
     decode_access_token credentials = Some payload ->
     sub payload = None \/ user_id payload = None ->
     get_current_user decode_access_token credentials db =
       Raise credentials_exception) /\
  (forall payload subject uid,
     decode_access_token credentials = Some payload ->
     sub payload = Some subject ->
     user_id payload = Some uid ->
     (query_first (fun u => (id u =? uid)%Z) (users db) = None ->
      get_current_user decode_access_token credentials db =
        Raise credentials_exception) /\
     (forall user,
        query_first (fun u => (id u =? uid)%Z) (users db) = Some user ->
        (truthy (is_active user) = false ->
         get_current_user decode_access_token credentials db =
           Raise inactive_user) /\
        (truthy (is_active user) = true ->
         get_current_user decode_access_token credentials db = Return user /\
         forall admin, exists db',
           toggle_user_active_status uid admin db =
             Return ("User deactivated successfully", db') /\
           get_current_user decode_access_token credentials db' =
             Raise inactive_user))).
Proof.
  split; [reflexivity|]. split; [reflexivity|].
  split; [apply resolve_decode_fails|].
  split; [intros payload; apply resolve_claim_missing|].
  intros payload subject uid Hdec Hsub Huid.
  split.
  - intros Hnone.
    rewrite (resolve_found _ _ _ _ _ _ Hdec Hsub Huid), Hnone. reflexivity.
  - intros user Hq. split; intros Hact.
    + rewrite (resolve_found _ _ _ _ _ _ Hdec Hsub Huid), Hq, Hact.
      reflexivity.
    + split.
      * rewrite (resolve_found _ _ _ _ _ _ Hdec Hsub Huid), Hq, Hact.
        reflexivity.
      * intros admin.
        destruct (toggle_deactivates uid admin db user Hq Hact)
          as (db' & Htoggle & Hq').
        exists db'. split; [exact Htoggle|].
        rewrite (resolve_found _ _ _ _ _ _ Hdec Hsub Huid), Hq'.
        reflexivity.
Qed.

Lemma C1_identity_resolution_witness :
  exists db',
    toggle_user_active_status 2 alice sample_db =
      Return ("User deactivated successfully", db') /\
    get_current_user sample_decode "token-of-bob@example.com" db' =
      Raise inactive_user.
Proof.
  destruct (C1_identity_resolution sample_decode "token-of-bob@example.com"
              sample_db) as (_ & _ & _ & _ & H).
  destruct (H (token_data bob) "bob@example.com" 2
              eq_refl eq_refl eq_refl) as [_ Hfound].
  destruct (Hfound bob eq_refl) as [_ Hactive].
  destruct (Hactive eq_refl) as [_ Htoggle].
  exact (Htoggle alice).
Defined.

(** ** Login and refresh *)

(** C2.  Login answers an unknown e-mail and a password that does not verify
    with one and the same "Incorrect email or password" error, whether or
    not the account is active; only an existing account whose password
    verifies can see "Inactive user account"; an existing, verified and
    active account receives an access and a refresh token minted from its
    row. *)
Theorem C2_login
    (verify_password : string -> string -> bool)
    (create_access_token : Payload -> Z -> string)
    (create_refresh_token : Payload -> string)
    (login_data : UserLogin) (db : Db) :
  let login :=
    login_user verify_password create_access_token create_refresh_token
               login_data db in
  let by_email :=
    query_first (fun u => email u =? ul_email login_data) (users db) in
  (by_email = None -> login = Raise invalid_credentials) /\
  (forall user,
     by_email = Some user ->
     (verify_password (ul_password login_data) (hashed_password user) = false ->
      login = Raise invalid_credentials) /\
     (verify_password (ul_password login_data) (hashed_password user) = true ->
      (truthy (is_active user) = false ->
       login = Raise (HTTPException 400 "Inactive user account" [])) /\
      (truthy (is_active user) = true ->
       login =
         Return (mkToken
                   (create_access_token (token_data user)
                                        ACCESS_TOKEN_EXPIRE_MINUTES)
                   (create_refresh_token (token_data user))
                   "bearer" 1800)))) /\
  status_of invalid_credentials = 401.
Proof.
  intros login by_email. subst login by_email. unfold login_user.
  split; [intros ->; reflexivity|].
  split; [|reflexivity].
  intros user ->. split.
  - intros ->. reflexivity.
  - intros ->. simpl. split; intros ->; reflexivity.
Qed.

(** C4.  Refresh raises 401 on a token that does not decode, and 401 when
    the token's user id has no row or the row is not active; otherwise it
    re-issues both tokens from the row as it now stands in the database, so
    the subject and role written in the presented token play no part. *)
Theorem C4_refresh
    (decode_refresh_token : string -> option Payload)
    (create_access_token : Payload -> Z -> string)
    (create_refresh_token : Payload -> string)
    (refresh_data : string) (db : Db) :
  let refresh :=
    refresh_access_token decode_refresh_token create_access_token
                         create_refresh_token refresh_data db in
  (decode_refresh_token refresh_data = None ->
   refresh = Raise (HTTPException 401 "Invalid refresh token"
                      [("WWW-Authenticate", "Bearer")])) /\
  (forall payload,
     decode_refresh_token refresh_data = Some payload ->
     (user_id payload = None ->
      refresh = Raise (HTTPException 401 "User not found or inactive" [])) /\
     (forall uid,
        user_id payload = Some uid ->
        (query_first (fun u => (id u =? uid)%Z) (users db) = None ->
         refresh =
           Raise (HTTPException 401 "User not found or inactive" [])) /\
        (forall user,
           query_first (fun u => (id u =? uid)%Z) (users db) = Some user ->
           (truthy (is_active user) = false ->
            refresh =
              Raise (HTTPException 401 "User not found or inactive" [])) /\
           (truthy (is_active user) = true ->
            refresh =
              Return (mkToken
                        (create_access_token
                           (mkPayload (Some (email user)) (Some (id user))
                                      (Some (value (role user))))
                           ACCESS_TOKEN_EXPIRE_MINUTES)
                        (create_refresh_token
                           (mkPayload (Some (email user)) (Some (id user))
                                      (Some (value (role user)))))
                        "bearer" 1800))))) /\
  (forall decode' payload payload',
     decode_refresh_token refresh_data = Some payload ->
     decode' refresh_data = Some payload' ->
     user_id payload' = user_id payload ->
     refresh_access_token decode' create_access_token create_refresh_token
                          refresh_data db = refresh).
Proof.
  intros refresh. subst refresh. unfold refresh_access_token.
  split; [intros ->; reflexivity|].
  split.
  - intros payload ->. split; [intros ->; reflexivity|].
    intros uid ->. split; [intros ->; reflexivity|].
    intros user ->. split; intros ->; reflexivity.
  - intros decode' payload payload' -> -> ->. reflexivity.
Qed.

Lemma C2_login_witness :
  login_user sample_verify sample_access sample_refresh
             (mkUserLogin "bob@example.com" "hunter2hunter2") sample_db =
    Return (mkToken "token-of-bob@example.com" "refresh-of-bob@example.com"
                    "bearer" 1800) /\
  login_user sample_verify sample_access sample_refresh
             (mkUserLogin "carol@example.com" "wrong-password") sample_db =
    Raise invalid_credentials /\
  login_user sample_verify sample_access sample_refresh
             (mkUserLogin "carol@example.com" "carolcarol") sample_db =
    Raise (HTTPException 400 "Inactive user account" []).
Proof.
  split; [|split].
  - destruct (C2_login sample_verify sample_access sample_refresh
                (mkUserLogin "bob@example.com" "hunter2hunter2") sample_db)
      as (_ & H & _).
    destruct (H bob eq_refl) as [_ Hok].
    destruct (Hok eq_refl) as [_ Hactive].
    exact (Hactive eq_refl).
  - destruct (C2_login sample_verify sample_access sample_refresh
                (mkUserLogin "carol@example.com" "wrong-password") sample_db)
      as (_ & H & _).
    destruct (H carol eq_refl) as [Hbad _].
    exact (Hbad eq_refl).
  - destruct (C2_login sample_verify sample_access sample_refresh
                (mkUserLogin "carol@example.com" "carolcarol") sample_db)
      as (_ & H & _).
    destruct (H carol eq_refl) as [_ Hok].
    destruct (Hok eq_refl) as [Hinactive _].
    exact (Hinactive eq_refl).
Defined.

Lemma C4_refresh_witness :
  refresh_access_token stale_refresh_decode sample_access_role
                       sample_refresh "refresh-of-bob@example.com" sample_db =
    Return (mkToken "vendor" "refresh-of-bob@example.com" "bearer" 1800).
Proof.
  destruct (C4_refresh stale_refresh_decode sample_access_role
              sample_refresh
              "refresh-of-bob@example.com" sample_db) as (_ & H & _).
  destruct (H _ eq_refl) as [_ Hid].
  destruct (Hid 2 eq_refl) as [_ Hfound].
  destruct (Hfound bob eq_refl) as [_ Hactive].
  exact (Hactive eq_refl).
Defined.

(** ** Role gates *)

Lemma append_assoc (a b c : string) : (a ++ b) ++ c = a ++ b ++ c.
Proof.
  induction a as [|x a IH]; [reflexivity|].
  change (String x ((a ++ b) ++ c) = String x (a ++ b ++ c)). congruence.
Qed.

Lemma append_empty_r (a : string) : a ++ "" = a.
Proof.
  induction a as [|x a IH]; [reflexivity|].
  change (String x (a ++ "") = String x a). congruence.
Qed.

Lemma occurs_in_self (x : string) : occurs_in x x.
Proof. exists "", "". simpl. rewrite append_empty_r. reflexivity. Qed.

Lemma occurs_in_append_l (x a s : string) :
  occurs_in x s -> occurs_in x (a ++ s).
Proof.
  intros (before & after & ->). exists (a ++ before), after.
  rewrite append_assoc. reflexivity.
Qed.

Lemma occurs_in_append_r (x s a : string) :
  occurs_in x s -> occurs_in x (s ++ a).
Proof.
  intros (before & after & ->). exists before, (after ++ a).
  rewrite !append_assoc. reflexivity.
Qed.

Lemma occurs_in_join (sep x : string) (parts : list string) :
  x ∈ parts -> occurs_in x (join sep parts).
Proof.
  induction parts as [|p [|q ps] IH]; intros Hx.
  - inversion Hx.
  - apply list_elem_of_singleton in Hx as ->. apply occurs_in_self.
  - apply elem_of_cons in Hx as [->|Hx].
    + change (join sep (p :: q :: ps)) with (p ++ sep ++ join sep (q :: ps)).
      apply occurs_in_append_r, occurs_in_self.
    + change (join sep (p :: q :: ps)) with (p ++ sep ++ join sep (q :: ps)).
      apply occurs_in_append_l, occurs_in_append_l, IH, Hx.
Qed.

Lemma UserRole_eqb_eq (a b : UserRole) : UserRole_eqb a b = true <-> a = b.
Proof. destruct a, b; simpl; split; congruence. Qed.

Lemma role_in_allowed (r : UserRole) (allowed : list UserRole) :
  existsb (UserRole_eqb r) allowed = true <-> r ∈ allowed.
Proof.
  rewrite existsb_exists. split.
  - intros (x & Hin & Heq). apply UserRole_eqb_eq in Heq as ->.
    apply list_elem_of_In, Hin.
  - intros Hin. exists r. split; [apply list_elem_of_In, Hin|].
    apply UserRole_eqb_eq. reflexivity.
Qed.

Lemma require_roles_is_gate (allowed : list UserRole) :
  role_gate allowed (require_roles allowed).
Proof.
  intros u. unfold require_roles. split.
  - intros Hin. apply role_in_allowed in Hin. rewrite Hin. reflexivity.
  - intros Hnot.
    destruct (existsb (UserRole_eqb (role u)) allowed) eqn:E.
    { apply role_in_allowed in E. contradiction. }
    simpl. eexists. split; [reflexivity|].
    intros r Hr. apply occurs_in_append_l, occurs_in_join.
    apply list_elem_of_fmap. exists r. split; [reflexivity|exact Hr].
Qed.

Lemma require_role_is_gate (r : UserRole) : role_gate [r] (require_role r).
Proof.
  intros u. unfold require_role. split.
  - intros Hin. apply list_elem_of_singleton in Hin. rewrite Hin.
    replace (UserRole_eqb r r) with true
      by (symmetry; apply UserRole_eqb_eq; reflexivity).
    reflexivity.
  - intros Hnot.
    destruct (UserRole_eqb (role u) r) eqn:E.
    { apply UserRole_eqb_eq in E. exfalso. apply Hnot.
      apply list_elem_of_singleton, E. }
    simpl. eexists. split; [reflexivity|].
    intros r' Hr'. apply list_elem_of_singleton in Hr' as ->.
    apply occurs_in_append_l, occurs_in_append_r, occurs_in_self.
Qed.

(** C3.  The role gate returns the resolved user unchanged when the user's
    role is among the allowed ones and otherwise raises 403 with a message
    that names every allowed role; the admin-only, vendor-only,
    consumer-only and vendor-or-admin gates are the gate constructors applied
    to their role or role list. *)
Theorem C3_role_gate :
  (forall allowed, role_gate allowed (require_roles allowed)) /\
  (forall r, role_gate [r] (require_role r)) /\
  (require_admin = require_role ADMIN /\ role_gate [ADMIN] require_admin) /\
  (require_vendor = require_role VENDOR /\ role_gate [VENDOR] require_vendor) /\
  (require_consumer = require_role CONSUMER /\
   role_gate [CONSUMER] require_consumer) /\
  (require_vendor_or_admin = require_roles [VENDOR; ADMIN] /\
   role_gate [VENDOR; ADMIN] require_vendor_or_admin).
Proof.
  split; [exact require_roles_is_gate|].
  split; [exact require_role_is_gate|].
  repeat split;
    first [apply (require_role_is_gate _) | apply (require_roles_is_gate _)].
Qed.

Lemma C3_role_gate_witness :
  require_vendor_or_admin bob = Return bob /\
  exists detail,
    require_vendor_or_admin carol = Raise (HTTPException 403 detail []) /\
    forall r, r ∈ [VENDOR; ADMIN] -> occurs_in (value r) detail.
Proof.
  destruct C3_role_gate as (_ & _ & _ & _ & _ & _ & Hgate).
  split.
  - apply (Hgate bob). apply role_in_allowed. reflexivity.
  - apply (Hgate carol). intros Hin. apply role_in_allowed in Hin.
    discriminate Hin.
Defined.

Lemma resolved_user_is_active decode_access_token credentials db user :
  get_current_user decode_access_token credentials db = Return user ->
  truthy (is_active user) = true.
Proof.
  unfold get_current_user.
  destruct (decode_access_token credentials) as [payload|]; [|discriminate].
  destruct (sub payload); [|discriminate].
  destruct (user_id payload) as [uid|]; [|discriminate].
  destruct (query_first _ _) as [found|]; [|discriminate].
  destruct (truthy (is_active found)) eqn:E; [|discriminate].
  intros [= <-]. exact E.
Qed.

Lemma Depends_resolved decode_access_token gate credentials db user :
  get_current_user decode_access_token credentials db = Return user ->
  Depends decode_access_token gate credentials db = gate user.
Proof.
  intros H. unfold Depends. rewrite H.
  apply resolved_user_is_active in H.
  unfold get_current_active_user, mbind, result_bind, bind. rewrite H.
  reflexivity.
Qed.

Lemma require_role_exact (r : UserRole) (u : User) :
  require_role r u = Return u <-> role u = r.
Proof.
  unfold require_role. split.
  - destruct (UserRole_eqb (role u) r) eqn:E; [|discriminate].
    intros _. apply UserRole_eqb_eq, E.
  - intros <-.
    replace (UserRole_eqb (role u) (role u)) with true
      by (symmetry; apply UserRole_eqb_eq; reflexivity).
    reflexivity.
Qed.

(** C10.  A single-role gate passes a resolved, active user exactly when the
    user's role is the required one; nothing lets an admin through.  An
    admin gets 403 from the vendor-only gate, from creating a vendor profile
    and from listing "my products", and passes the vendor-or-admin gate. *)
Theorem C10_exact_role_match
    (decode_access_token : string -> option Payload)
    (credentials : string) (db : Db) (user : User) (r : UserRole) :
  get_current_user decode_access_token credentials db = Return user ->
  (Depends decode_access_token (require_role r) credentials db = Return user
   <-> role user = r) /\
  (role user <> r ->
   Depends decode_access_token (require_role r) credentials db =
     Raise (HTTPException 403 ("Operation requires " ++ value r ++ " role")
                          [])) /\
  (role user = ADMIN ->
   Depends decode_access_token require_vendor credentials db =
     Raise (HTTPException 403 "Operation requires vendor role" []) /\
   (forall vendor_data,
      create_vendor_profile vendor_data user db =
        Raise (HTTPException 403
                 "Only users with vendor role can create vendor profiles"
                 [])) /\
   get_my_products user db =
     Raise (HTTPException 403 "Only vendors can access this endpoint" []) /\
   Depends decode_access_token require_vendor_or_admin credentials db =
     Return user).
Proof.
  intros Hres. rewrite !(Depends_resolved _ _ _ _ _ Hres).
  split; [apply require_role_exact|].
  split.
  - intros Hne. unfold require_role.
    destruct (UserRole_eqb (role user) r) eqn:E; [|reflexivity].
    apply UserRole_eqb_eq in E. contradiction.
  - intros Hadmin.
    unfold require_vendor, require_vendor_or_admin, require_role,
      require_roles, create_vendor_profile, get_my_products.
    rewrite Hadmin. simpl. repeat split; reflexivity.
Qed.

Lemma C10_exact_role_match_witness :
  (Depends sample_decode (require_role VENDOR) "token-of-alice@example.com"
           sample_db = Return alice <-> role alice = VENDOR) /\
  Depends sample_decode require_vendor "token-of-alice@example.com" sample_db =
    Raise (HTTPException 403 "Operation requires vendor role" []) /\
  get_my_products alice sample_db =
    Raise (HTTPException 403 "Only vendors can access this endpoint" []) /\
  Depends sample_decode require_vendor_or_admin "token-of-alice@example.com"
          sample_db = Return alice.
Proof.
  destruct (C10_exact_role_match sample_decode "token-of-alice@example.com"
              sample_db alice VENDOR eq_refl) as (Hiff & _ & Hadmin).
  destruct (Hadmin eq_refl) as (Hv & _ & Hmine & Hva).
  repeat split; try assumption; apply Hiff.
Defined.

(** ** Token kinds *)

(** The modelled decoder is not a decoder that rejects everything: it yields
    the claims of an unexpired refresh token signed with the secret. *)
Lemma decode_refresh_accepts_refresh secret issued_at ttl now data :
  (now < issued_at + ttl)%Z ->
  Codec.decode_refresh secret now
    (Codec.issue_refresh secret issued_at ttl data) = Some data.
Proof.
  intros Hlt. unfold Codec.decode_refresh, Codec.issue_refresh. simpl.
  rewrite String.eqb_refl. simpl.
  apply Z.ltb_lt in Hlt. rewrite Hlt. reflexivity.
Qed.

(** C5.  An access token presented to the refresh operation is refused: the
    refresh decoder rejects a token issued as an access token, whatever the
    clock and the claims, and the refresh handler then raises 401 "Invalid
    refresh token" and issues nothing. *)
Theorem C5_refresh_rejects_access_token
    (parse : string -> option Codec.SignedToken)
    (secret : string) (now issued_at ttl_minutes : Z) (data : Payload)
    (create_access_token : Payload -> Z -> string)
    (create_refresh_token : Payload -> string)
    (token : string) (db : Db) :
  parse token =
    Some (Codec.issue_access secret issued_at data ttl_minutes) ->
  Codec.decode_refresh secret now
    (Codec.issue_access secret issued_at data ttl_minutes) = None /\
  refresh_access_token (Codec.decode_refresh_token parse secret now)
                       create_access_token create_refresh_token token db =
    Raise (HTTPException 401 "Invalid refresh token"
             [("WWW-Authenticate", "Bearer")]).
Proof.
  intros Hparse.
  assert (Hrej : Codec.decode_refresh secret now
                   (Codec.issue_access secret issued_at data ttl_minutes)
                 = None).
  { unfold Codec.decode_refresh, Codec.issue_access. simpl.
    destruct (negb (secret =? secret)); [reflexivity|].
    destruct (negb (now <? issued_at + ttl_minutes * 60)%Z); reflexivity. }
  split; [exact Hrej|].
  unfold refresh_access_token, Codec.decode_refresh_token.
  rewrite Hparse, Hrej. reflexivity.
Qed.

Lemma C5_refresh_rejects_access_token_witness :
  refresh_access_token (Codec.decode_refresh_token sample_parse "k" 1001)
                       sample_access sample_refresh "access.bob" sample_db =
    Raise (HTTPException 401 "Invalid refresh token"
             [("WWW-Authenticate", "Bearer")]).
Proof.
  apply (C5_refresh_rejects_access_token sample_parse "k" 1001 1000 30
           (token_data bob) sample_access sample_refresh "access.bob"
           sample_db eq_refl).
Defined.

(** ** The role column *)

Lemma roles_of_update_user pk f db :
  (forall u, id (f u) = id u) ->
  (forall u, role (f u) = role u) ->
  roles_of (update_user pk f db) = roles_of db.
Proof.
  intros Hid Hrole. unfold roles_of. rewrite users_update_user.
  rewrite List.map_map. apply List.map_ext. intros u.
  destruct (id u =? pk)%Z; [rewrite Hid, Hrole|]; reflexivity.
Qed.

Lemma roles_of_add_user u db :
  roles_of (add_user u db) = (roles_of db ++ [(id u, role u)])%list.
Proof. unfold roles_of. simpl. rewrite List.map_app. reflexivity. Qed.

Lemma register_user_roles get_password_hash user_data db :
  roles_of db `prefix_of`
  roles_of (state_after db (register_user get_password_hash user_data db)).
Proof.
  unfold register_user.
  destruct (query_first _ (users db)); [reflexivity|].
  destruct (truthy_str _ && _); [reflexivity|].
  destruct (bool_decide _); [reflexivity|].
  simpl. rewrite roles_of_add_user. apply prefix_app_r. reflexivity.
Qed.

Lemma change_password_roles verify_password get_password_hash
      password_data current_user db :
  roles_of (state_after db
              (change_password verify_password get_password_hash
                               password_data current_user db)) =
  roles_of db.
Proof.
  unfold change_password.
  destruct (negb _); [reflexivity|].
  simpl. apply roles_of_update_user; reflexivity.
Qed.

Lemma toggle_roles uid current_user db :
  roles_of (state_after db (toggle_user_active_status uid current_user db)) =
  roles_of db.
Proof.
  unfold toggle_user_active_status.
  destruct (query_first _ (users db)); [|reflexivity].
  simpl. apply roles_of_update_user; reflexivity.
Qed.

Lemma serve_auth_roles decode_access_token verify_password
      get_password_hash req db :
  roles_of db `prefix_of`
  roles_of (serve_auth decode_access_token verify_password get_password_hash
                       req db).
Proof.
  destruct req; simpl; try reflexivity.
  - apply register_user_roles.
  - destruct (Depends _ _ _ _); [reflexivity|].
    rewrite change_password_roles. reflexivity.
  - destruct (Depends _ _ _ _); [reflexivity|].
    rewrite toggle_roles. reflexivity.
Qed.

(** The handlers of the other four routers, one by one: whatever they
    answer, the [users] table they leave is the one they found. *)
Ltac users_kept :=
  intros;
  repeat (first [reflexivity | progress cbn | case_match]).

Lemma create_market_users market_data current_user db :
  users (state_after db (create_market market_data current_user db)) =
  users db.
Proof. unfold create_market. users_kept. Qed.

Lemma update_market_users market_id market_data current_user db :
  users (snd (update_market market_id market_data current_user db)) =
  users db.
Proof. unfold update_market. users_kept. Qed.

Lemma delete_market_users market_id current_user db :
  users (state_after db (delete_market market_id current_user db)) =
  users db.
Proof. unfold delete_market. users_kept. Qed.

Lemma upload_market_image_users market_id file current_user db fs :
  users (snd (fst (upload_market_image market_id file current_user db fs))) =
  users db.
Proof. unfold upload_market_image. users_kept. Qed.

Lemma create_vendor_profile_users vendor_data current_user db :
  users (state_after db (create_vendor_profile vendor_data current_user db)) =
  users db.
Proof. unfold create_vendor_profile. users_kept. Qed.

Lemma update_vendor_users vendor_id vendor_data current_user db :
  users (snd (update_vendor vendor_id vendor_data current_user db)) =
  users db.
Proof. unfold update_vendor. users_kept. Qed.

Lemma verify_vendor_users vendor_id current_user db :
  users (state_after db (verify_vendor vendor_id current_user db)) =
  users db.
Proof. unfold verify_vendor. users_kept. Qed.

Lemma unverify_vendor_users vendor_id current_user db :
  users (state_after db (unverify_vendor vendor_id current_user db)) =
  users db.
Proof. unfold unverify_vendor. users_kept. Qed.

Lemma create_category_users category_data current_user db :
  users (state_after db (create_category category_data current_user db)) =
  users db.
Proof. unfold create_category. users_kept. Qed.

Lemma update_category_users category_id category_data current_user db :
  users (snd (update_category category_id category_data current_user db)) =
  users db.
Proof. unfold update_category. users_kept. Qed.

Lemma delete_category_users category_id current_user db :
  users (state_after db (delete_category category_id current_user db)) =
  users db.
Proof. unfold delete_category. users_kept. Qed.

Lemma create_product_users product_data current_user db :
  users (snd (create_product product_data current_user db)) = users db.
Proof. unfold create_product. users_kept. Qed.

Lemma update_product_users product_id product_data current_user db :
  users (snd (update_product product_id product_data current_user db)) =
  users db.
Proof. unfold update_product. users_kept. Qed.

Lemma delete_product_users product_id current_user db fs message db' fs' :
  delete_product product_id current_user db fs = Return (message, db', fs') ->
  users db' = users db.
Proof.
  unfold delete_product. intros H.
  repeat case_match; try discriminate H; injection H as _ <- _; reflexivity.
Qed.

Lemma upload_product_image_users env product_id file current_user db fs :
  users (snd (fst (upload_product_image env product_id file current_user
                                        db fs))) =
  users db.
Proof. unfold upload_product_image. users_kept. Qed.

Lemma serve_markets_users decode_access_token req s :
  users (fst (serve_markets decode_access_token req s)) = users (fst s).
Proof.
  destruct s as [db fs].
  destruct req; cbn [serve_markets fst]; try reflexivity;
    destruct (Depends _ _ _ _) as [e|current_user]; try reflexivity.
  - apply create_market_users.
  - apply update_market_users.
  - apply delete_market_users.
  - pose proof (upload_market_image_users market_id file current_user db fs)
      as H.
    destruct (upload_market_image _ _ _ _ _) as [[r db'] fs']. exact H.
Qed.

Lemma serve_vendors_users decode_access_token req s :
  users (fst (serve_vendors decode_access_token req s)) = users (fst s).
Proof.
  destruct s as [db fs].
  destruct req; cbn [serve_vendors fst]; try reflexivity;
    destruct (Depends _ _ _ _) as [e|current_user]; try reflexivity.
  - apply create_vendor_profile_users.
  - apply update_vendor_users.
  - apply verify_vendor_users.
  - apply unverify_vendor_users.
Qed.

Lemma serve_categories_users decode_access_token req s :
  users (fst (serve_categories decode_access_token req s)) = users (fst s).
Proof.
  destruct s as [db fs].
  destruct req; cbn [serve_categories fst]; try reflexivity;
    destruct (Depends _ _ _ _) as [e|current_user]; try reflexivity.
  - apply create_category_users.
  - apply update_category_users.
  - apply delete_category_users.
Qed.

Lemma serve_products_users decode_access_token req s :
  users (fst (serve_products decode_access_token req s)) = users (fst s).
Proof.
  destruct s as [db fs].
  destruct req; cbn [serve_products fst]; try reflexivity;
    destruct (Depends _ _ _ _) as [e|current_user]; try reflexivity.
  - apply create_product_users.
  - apply update_product_users.
  - destruct (delete_product _ _ _ _) as [e|[[message db'] fs']] eqn:Hdel;
      [reflexivity|].
    apply (delete_product_users _ _ _ _ _ _ _ Hdel).
  - pose proof (upload_product_image_users env product_id file current_user
                                           db fs) as H.
    destruct (upload_product_image _ _ _ _ _ _) as [[r db'] fs']. exact H.
Qed.

Lemma step_roles s s' :
  step s s' -> roles_of (fst s) `prefix_of` roles_of (fst s').
Proof.
  intros [req s0|dec verify hash req db fs|dec req s0|dec req s0|dec req s0
         |dec req s0]; unfold roles_of.
  - reflexivity.
  - apply serve_auth_roles.
  - rewrite serve_markets_users. reflexivity.
  - rewrite serve_vendors_users. reflexivity.
  - rewrite serve_categories_users. reflexivity.
  - rewrite serve_products_users. reflexivity.
Qed.

(** What the admin toggle writes: every row it leaves agrees with the row
    it found on every column but [is_active] and the timestamps. *)
Lemma toggle_writes_is_active uid current_user db message db' :
  toggle_user_active_status uid current_user db = Return (message, db') ->
  Forall2 (fun u u' => same_user_columns (set_is_active (is_active u') u) u')
          (users db) (users db').
Proof.
  unfold toggle_user_active_status.
  destruct (query_first _ (users db)) as [user|]; [|discriminate].
  intros [= _ <-]. rewrite users_update_user.
  induction (users db) as [|u rest IH]; simpl; constructor; [|exact IH].
  destruct (id u =? id user)%Z; repeat split.
Qed.

(** C6.  No request changes the role of an existing user.  A step of the
    service is one request to a route of main.py or of one of the five
    routers, served by the handler of that route; along any sequence of
    steps the [(id, role)] column pair of the rows present at the start is
    still there, in place, at the end: every user keeps the role it was
    registered with.  The profile-update schema has no [role] field, and
    the one admin handler that writes a user row, the toggle, leaves every
    column of every row but [is_active] (and the timestamps) as it was. *)
Theorem C6_role_immutable (db db' : Db) (fs fs' : Fs) :
  rtc step (db, fs) (db', fs') ->
  roles_of db `prefix_of` roles_of db' /\
  (forall u, u ∈ users db ->
     exists u', u' ∈ users db' /\ id u' = id u /\ role u' = role u) /\
  ("role" ∉ UserUpdate_fields) /\
  (forall uid admin,
     roles_of (state_after db' (toggle_user_active_status uid admin db')) =
     roles_of db') /\
  (forall uid admin message db'',
     toggle_user_active_status uid admin db' = Return (message, db'') ->
     Forall2
       (fun u u' => same_user_columns (set_is_active (is_active u') u) u')
       (users db') (users db'')).
Proof.
  intros Hsteps.
  assert (Hprefix : roles_of db `prefix_of` roles_of db').
  { change db with (fst (db, fs)). change db' with (fst (db', fs')).
    induction Hsteps as [|x y z Hxy _ IH]; [reflexivity|].
    etrans; [|exact IH]. apply step_roles, Hxy. }
  split; [exact Hprefix|]. split; [|split; [|split]].
  - intros u Hu. destruct Hprefix as [rest Hrest].
    assert (Hin : (id u, role u) ∈ roles_of db').
    { rewrite Hrest. apply elem_of_app. left.
      unfold roles_of. apply list_elem_of_fmap. exists u.
      split; [reflexivity|exact Hu]. }
    unfold roles_of in Hin. apply list_elem_of_fmap in Hin as (u' & Heq & Hu').
    exists u'. split; [exact Hu'|]. inversion Heq. split; reflexivity.
  - unfold UserUpdate_fields. intros Hin.
    repeat (apply elem_of_cons in Hin as [Hin|Hin]; [discriminate Hin|]).
    inversion Hin.
  - intros uid admin. apply toggle_roles.
  - intros uid admin message db''. apply toggle_writes_is_active.
Qed.

Lemma C6_role_immutable_witness :
  roles_of sample_db `prefix_of`
  roles_of
    (fst (serve_products sample_decode
            (UpdateProduct "token-of-bob@example.com" 1 reprice_daikon)
            (serve_vendors sample_decode
               (UpdateVendor "token-of-bob@example.com" 1 rename_stall)
               (serve_auth sample_decode sample_verify sample_hash
                  (ToggleActive "token-of-alice@example.com" 3)
                  (serve_auth sample_decode sample_verify sample_hash
                     (Register dave_data) sample_db), ∅)))).
Proof.
  refine (proj1 (C6_role_immutable sample_db _ ∅ ∅ _)).
  eapply rtc_l; [apply (step_auth sample_decode sample_verify sample_hash
                                   (Register dave_data))|].
  eapply rtc_l; [apply (step_auth sample_decode sample_verify sample_hash
                                   (ToggleActive "token-of-alice@example.com"
                                                 3))|].
  eapply rtc_l; [apply (step_vendors sample_decode
                          (UpdateVendor "token-of-bob@example.com" 1
                                        rename_stall))|].
  eapply rtc_l; [apply (step_products sample_decode
                          (UpdateProduct "token-of-bob@example.com" 1
                                         reprice_daikon))|].
  vm_compute. apply rtc_refl.
Defined.

(** ** Categories *)

Lemma query_count_pos {A} (p : A -> bool) (rows : list A) (x : A) :
  In x rows -> p x = true -> (query_count p rows > 0)%Z.
Proof.
  intros Hin Hp. unfold query_count.
  assert (Hf : In x (List.filter p rows)) by (apply List.filter_In; tauto).
  destruct (List.filter p rows); [destruct Hf|]. simpl length. lia.
Qed.

Lemma query_count_zero {A} (p : A -> bool) (rows : list A) :
  (forall x, In x rows -> p x = false) -> query_count p rows = 0%Z.
Proof.
  intros Hall. unfold query_count.
  induction rows as [|x rows IH]; [reflexivity|].
  simpl. rewrite (Hall x) by (left; reflexivity).
  apply IH. intros y Hy. apply Hall. right. exact Hy.
Qed.

Lemma category_response_found category product_count :
  category_response category product_count <> Raise category_not_found.
Proof.
  unfold category_response.
  destruct (Category.is_active category); discriminate.
Qed.

Lemma get_category_after_delete cid db :
  get_category cid (delete_category_row cid db) = Raise category_not_found.
Proof.
  unfold get_category, delete_category_row. simpl.
  rewrite query_first_filter_out; [reflexivity|].
  intros c Hc. rewrite Hc. reflexivity.
Qed.

(** C8.  Deleting a category that at least one product references raises
    400 "Cannot delete category with existing products", changes nothing,
    and leaves the category fetchable exactly as before; deleting a category
    no product references succeeds, and fetching it by id afterwards raises
    404 "Category not found". *)
Theorem C8_delete_category
    (category_id : Z) (current_user : User) (db : Db)
    (category : Category.t) :
  query_first (fun c => (Category.id c =? category_id)%Z) (categories db) =
    Some category ->
  let deleted := delete_category category_id current_user db in
  let linked :=
    query_count (fun p => (Product.category_id p =? category_id)%Z)
                (products db) in
  ((exists p, In p (products db) /\ Product.category_id p = category_id) ->
   deleted =
     Raise (HTTPException 400
              "Cannot delete category with existing products" []) /\
   state_after db deleted = db /\
   get_category category_id (state_after db deleted) =
     category_response category linked /\
   get_category category_id (state_after db deleted) <>
     Raise category_not_found /\
   (forall b, Category.is_active category = Some b ->
      exists response,
        get_category category_id (state_after db deleted) = Return response /\
        cr_id response = category_id /\
        (cr_product_count response > 0)%Z)) /\
  ((forall p, In p (products db) -> Product.category_id p <> category_id) ->
   deleted =
     Return ("Category deleted successfully", state_after db deleted) /\
   get_category category_id (state_after db deleted) =
     Raise category_not_found /\
   status_of category_not_found = 404 /\
   products (state_after db deleted) = products db).
Proof.
  intros Hfound deleted linked.
  destruct (query_first_holds _ _ _ Hfound) as [Hid _].
  apply Z.eqb_eq in Hid.
  split.
  - intros (p & Hin & Hp).
    assert (Hpos : (linked > 0)%Z).
    { apply (query_count_pos _ _ p Hin). apply Z.eqb_eq, Hp. }
    assert (Hdel : deleted =
              Raise (HTTPException 400
                       "Cannot delete category with existing products" [])).
    { subst deleted. unfold delete_category. rewrite Hfound.
      fold linked. apply Z.gtb_gt in Hpos. rewrite Hpos. reflexivity. }
    rewrite Hdel. simpl.
    assert (Hget : get_category category_id db =
                   category_response category linked).
    { unfold get_category. rewrite Hfound. reflexivity. }
    repeat split; try exact Hget.
    + rewrite Hget. apply category_response_found.
    + intros b Hb. rewrite Hget. unfold category_response. rewrite Hb.
      eexists. split; [reflexivity|]. simpl. split; [exact Hid|exact Hpos].
  - intros Hnone.
    assert (Hzero : linked = 0%Z).
    { apply query_count_zero. intros p Hin. apply Z.eqb_neq, Hnone, Hin. }
    assert (Hdel : deleted =
              Return ("Category deleted successfully",
                      delete_category_row category_id db)).
    { subst deleted. unfold delete_category. rewrite Hfound.
      fold linked. rewrite Hzero, Hid. reflexivity. }
    rewrite Hdel. simpl.
    repeat split. apply get_category_after_delete.
Qed.

Lemma C8_delete_category_witness :
  delete_category 1 alice sample_db =
    Raise (HTTPException 400
             "Cannot delete category with existing products" []) /\
  get_category 2
    (state_after sample_db (delete_category 2 alice sample_db)) =
    Raise category_not_found.
Proof.
  split.
  - refine (proj1 (proj1 (C8_delete_category 1 alice sample_db _ eq_refl) _)).
    eexists. split; [left; reflexivity|reflexivity].
  - refine (proj1 (proj2 (proj2 (C8_delete_category 2 alice sample_db _
                                   eq_refl) _))).
    intros p [<-|[]]. discriminate.
Defined.

(** ** The media store: removal *)

(** A guarded [unlink] never raises: it removes the path when it is there
    and does nothing when it is not. *)
Lemma guarded_unlink (p : Path) (fs : Fs) :
  (if path_exists p fs then unlink p fs else (inr tt, fs)) =
  (inr tt, delete p fs).
Proof.
  unfold path_exists, unlink.
  destruct (fs !! p) as [data|] eqn:E.
  - rewrite bool_decide_eq_true_2 by (eexists; reflexivity). reflexivity.
  - rewrite bool_decide_eq_false_2 by apply is_Some_None.
    rewrite delete_id by exact E. reflexivity.
Qed.

Lemma delete_image_removes (filename subdir : string) (fs : Fs) :
  delete_image filename subdir fs =
  (true,
   delete (path_join (path_join UPLOAD_DIR subdir) ("thumb_" ++ filename))
          (delete (path_join (path_join UPLOAD_DIR subdir) filename) fs)).
Proof.
  unfold delete_image, io_bind, io_ret.
  rewrite guarded_unlink. rewrite guarded_unlink. reflexivity.
Qed.

(** C9.  Removing an image always reports success: afterwards neither the
    original nor its thumbnail is there, every other file is untouched, a
    store that held neither file is left as it was, and a second removal in a
    row reports the same success and changes nothing. *)
Theorem C9_delete_image (filename subdir : string) (fs : Fs) :
  let file_path := path_join (path_join UPLOAD_DIR subdir) filename in
  let thumb_path :=
    path_join (path_join UPLOAD_DIR subdir) ("thumb_" ++ filename) in
  let once := delete_image filename subdir fs in
  fst once = true /\
  snd once !! file_path = None /\
  snd once !! thumb_path = None /\
  (forall p, p <> file_path -> p <> thumb_path -> snd once !! p = fs !! p) /\
  (fs !! file_path = None -> fs !! thumb_path = None -> once = (true, fs)) /\
  delete_image filename subdir (snd once) = (true, snd once).
Proof.
  intros file_path thumb_path once. subst once.
  rewrite delete_image_removes. fold file_path thumb_path. simpl.
  split; [reflexivity|].
  split.
  { destruct (decide (thumb_path = file_path)) as [->|Hne].
    - apply lookup_delete_eq.
    - rewrite lookup_delete_ne by exact Hne. apply lookup_delete_eq. }
  split; [apply lookup_delete_eq|].
  split.
  { intros p Hf Ht. rewrite !lookup_delete_ne by congruence. reflexivity. }
  split.
  { intros Hf Ht. rewrite (delete_id fs file_path) by exact Hf.
    rewrite delete_id by exact Ht. reflexivity. }
  rewrite delete_image_removes. fold file_path thumb_path.
  f_equal.
  apply map_eq. intros p.
  destruct (decide (p = thumb_path)) as [->|Ht].
  { rewrite !lookup_delete_eq. reflexivity. }
  rewrite (lookup_delete_ne _ thumb_path p) by congruence.
  destruct (decide (p = file_path)) as [->|Hf].
  { rewrite lookup_delete_eq, lookup_delete_ne by congruence.
    rewrite lookup_delete_eq. reflexivity. }
  rewrite !lookup_delete_ne by congruence. reflexivity.
Qed.

Lemma C9_delete_image_witness :
  delete_image "u1.png" "products" sample_fs =
    (true, <[ ["uploads"; "markets"; "m.jpg"] := [Byte.xff] ]> ∅) /\
  delete_image "u1.png" "products"
               (<[ ["uploads"; "markets"; "m.jpg"] := [Byte.xff] ]> ∅) =
    (true, <[ ["uploads"; "markets"; "m.jpg"] := [Byte.xff] ]> ∅).
Proof.
  assert (H1 : delete_image "u1.png" "products" sample_fs =
               (true, <[ ["uploads"; "markets"; "m.jpg"] := [Byte.xff] ]> ∅))
    by (vm_compute; reflexivity).
  split; [exact H1|].
  pose proof (C9_delete_image "u1.png" "products" sample_fs) as H.
  simpl in H. destruct H as (_ & _ & _ & _ & _ & H).
  rewrite H1 in H. exact H.
Defined.

(** ** The media store: paths *)

Lemma split_on_parts (c : ascii) (s part : string) :
  In part (split_on c s) -> has_char c part = false.
Proof.
  revert part. induction s as [|a rest IH]; intros part Hin.
  - destruct Hin as [<-|[]]. reflexivity.
  - simpl in Hin. destruct (Ascii.eqb a c) eqn:Eac.
    + destruct Hin as [<-|Hin]; [reflexivity|]. apply IH, Hin.
    + destruct (split_on c rest) as [|p ps].
      * destruct Hin as [<-|[]]. simpl. rewrite Eac. reflexivity.
      * destruct Hin as [<-|Hin].
        -- simpl. rewrite Eac. apply IH. left. reflexivity.
        -- apply IH. right. exact Hin.
Qed.

Lemma split_on_whole (c : ascii) (s : string) :
  has_char c s = false -> split_on c s = [s].
Proof.
  induction s as [|a rest IH]; intros H; [reflexivity|].
  simpl in H. apply orb_false_iff in H as [Hac Hrest].
  simpl. rewrite Hac, (IH Hrest). reflexivity.
Qed.

Lemma string_length_append (a b : string) :
  String.length (a ++ b) = (String.length a + String.length b)%nat.
Proof.
  induction a as [|x a IH]; [reflexivity|].
  change (S (String.length (a ++ b)) =
          S (String.length a + String.length b)). congruence.
Qed.

Lemma canonical_of_parts (p : Path) : Forall no_slash p -> canonical p.
Proof.
  intros H. unfold canonical. destruct (is_absolute p); [|exact H].
  destruct p; [constructor|]. inversion H. assumption.
Qed.

Lemma path_of_canonical (s : string) : canonical (path_of s).
Proof.
  assert (Hparts : Forall no_slash
            (List.filter (fun part => negb (part =? "") && negb (part =? "."))
                         (split_on "/" s))).
  { apply List.Forall_forall. intros part Hin.
    apply List.filter_In in Hin as [Hin _].
    apply (split_on_parts _ _ _ Hin). }
  unfold path_of. destruct (String.prefix "/" s).
  - exact Hparts.
  - apply canonical_of_parts, Hparts.
Qed.

Lemma path_join_canonical (a : Path) (b : string) :
  canonical a -> canonical (path_join a b).
Proof.
  intros Ha. unfold path_join.
  destruct (is_absolute (path_of b)) eqn:Eabs; [apply path_of_canonical|].
  pose proof (path_of_canonical b) as Hb. unfold canonical in Hb.
  rewrite Eabs in Hb.
  unfold canonical in *. destruct a as [|root rest].
  - simpl. rewrite Eabs. exact Hb.
  - simpl in *. destruct (root =? "/").
    + apply Forall_app. split; assumption.
    + apply (Forall_app no_slash (root :: rest)). split; assumption.
Qed.

Lemma path_name_no_slash (p : Path) : canonical p -> no_slash (path_name p).
Proof.
  intros Hp. unfold path_name. case_bool_decide as Hroot; [reflexivity|].
  destruct p as [|root rest]; [reflexivity|].
  unfold canonical in Hp. simpl in Hp.
  destruct (root =? "/") eqn:Eroot.
  - apply String.eqb_eq in Eroot. subst root.
    destruct rest as [|q rest]; [contradiction Hroot; reflexivity|].
    change (List.last ("/" :: q :: rest) "") with (List.last (q :: rest) "").
    rewrite List.Forall_forall in Hp. apply Hp.
    assert (Hne : q :: rest <> []) by discriminate.
    rewrite (app_removelast_last "" Hne) at 2.
    apply List.in_or_app. right. left. reflexivity.
  - rewrite List.Forall_forall in Hp. apply Hp.
    assert (Hne : root :: rest <> []) by discriminate.
    rewrite (app_removelast_last "" Hne) at 2.
    apply List.in_or_app. right. left. reflexivity.
Qed.

Lemma path_of_single (name : string) :
  no_slash name -> path_of ("thumb_" ++ name) = ["thumb_" ++ name].
Proof.
  intros Hname. unfold path_of.
  rewrite split_on_whole by exact Hname. reflexivity.
Qed.

(** The thumbnail of an image never lands on the image itself. *)
Lemma thumbnail_path_distinct (p : Path) :
  canonical p ->
  path_join (path_parent p) ("thumb_" ++ path_name p) <> p.
Proof.
  intros Hp. pose proof (path_name_no_slash p Hp) as Hname.
  unfold path_join. rewrite (path_of_single _ Hname).
  change (is_absolute ["thumb_" ++ path_name p]) with false. cbv iota.
  unfold path_parent, path_name. case_bool_decide as Hroot.
  - subst p. discriminate.
  - destruct p as [|root rest]; [discriminate|].
    assert (Hne : root :: rest <> []) by discriminate.
    intros Heq.
    rewrite (app_removelast_last "" Hne) in Heq at 3.
    apply app_inv_head in Heq. injection Heq as Heq.
    apply (f_equal String.length) in Heq.
    rewrite string_length_append in Heq. simpl in Heq. lia.
Qed.

(** ** The media store: saving *)

Lemma upload_path_canonical (subdir name : string) :
  canonical (path_join (path_join UPLOAD_DIR subdir) name).
Proof.
  apply path_join_canonical, path_join_canonical, canonical_of_parts.
  repeat constructor.
Qed.

Lemma allowed_extensions (ext : string) :
  ext ∈ ALLOWED_EXTENSIONS <->
  ext = ".jpg" \/ ext = ".jpeg" \/ ext = ".png" \/ ext = ".gif" \/
  ext = ".webp".
Proof. unfold ALLOWED_EXTENSIONS. set_unfold. tauto. Qed.

Lemma allowed_extension_cases (ext : string) :
  ext ∈ ALLOWED_EXTENSIONS ->
  ext = ".jpg" \/ ext = ".jpeg" \/ ext = ".png" \/ ext = ".gif" \/
  ext = ".webp".
Proof. apply allowed_extensions. Qed.

(** No allowed extension ends in another one. *)
Lemma allowed_extension_no_tail (pre ext ext' : string) :
  ext ∈ ALLOWED_EXTENSIONS -> ext' ∈ ALLOWED_EXTENSIONS ->
  ext = pre ++ ext' -> pre = "".
Proof.
  intros Hext Hext' Heq.
  destruct pre as [|c0 [|c1 [|c2 [|c3 [|c4 [|c5 pre]]]]]]; [reflexivity|..];
    exfalso;
    destruct (allowed_extension_cases _ Hext) as [->|[->|[->|[->| ->]]]];
    destruct (allowed_extension_cases _ Hext') as [->|[->|[->|[->| ->]]]];
    cbv [String.append] in Heq; congruence.
Qed.

(** A stored name determines the identifier it was generated from. *)
Lemma stored_name_inj (uuid uuid' ext ext' : string) :
  ext ∈ ALLOWED_EXTENSIONS -> ext' ∈ ALLOWED_EXTENSIONS ->
  uuid ++ ext = uuid' ++ ext' -> uuid = uuid'.
Proof.
  intros Hext Hext'. revert uuid'.
  induction uuid as [|a uuid IH]; intros [|a' uuid'] Heq.
  - reflexivity.
  - apply (allowed_extension_no_tail _ _ _ Hext Hext') in Heq.
    discriminate Heq.
  - symmetry in Heq.
    apply (allowed_extension_no_tail _ _ _ Hext' Hext) in Heq.
    discriminate Heq.
  - cbn [String.append] in Heq. injection Heq as -> Heq. f_equal.
    apply IH, Heq.
Qed.

(** A validated upload has a file name, and the generated name is the drawn
    identifier followed by that name's lower-cased, allowed extension. *)
Lemma generated_name (uuid : string) (file : UploadFile) :
  validate_image_file file = true ->
  lower (suffix (path_of (or_default (filename file) "")))
    ∈ ALLOWED_EXTENSIONS /\
  generate_filename uuid (or_default (filename file) "image") =
    uuid ++ lower (suffix (path_of (or_default (filename file) ""))).
Proof.
  unfold validate_image_file, generate_filename.
  destruct (content_type file) as [ct|]; [|discriminate].
  destruct (negb (String.prefix "image/" ct)); [discriminate|].
  intros Hext. apply bool_decide_eq_true in Hext.
  assert (Hempty : "" ∉ ALLOWED_EXTENSIONS).
  { apply (bool_decide_eq_false ("" ∈ ALLOWED_EXTENSIONS)).
    vm_compute. reflexivity. }
  destruct (filename file) as [[|a rest]|].
  - contradiction Hempty.
  - split; [exact Hext|]. reflexivity.
  - contradiction Hempty.
Qed.

Lemma validated_extension (uuid : string) (file : UploadFile) :
  validate_image_file file = true ->
  exists ext,
    ext ∈ ALLOWED_EXTENSIONS /\
    generate_filename uuid (or_default (filename file) "image") = uuid ++ ext.
Proof.
  intros Hv. destruct (generated_name uuid file Hv) as [Hext Hname].
  eexists. split; [exact Hext|exact Hname].
Qed.

Lemma validate_image_file_spec (file : UploadFile) :
  validate_image_file file = true <->
  (exists ct, content_type file = Some ct /\ String.prefix "image/" ct = true)
  /\ lower (suffix (path_of (or_default (filename file) "")))
       ∈ ALLOWED_EXTENSIONS.
Proof.
  unfold validate_image_file. split.
  - destruct (content_type file) as [ct|]; [|discriminate].
    destruct (String.prefix "image/" ct) eqn:E; [|discriminate]. simpl.
    intros H. apply bool_decide_eq_true in H.
    split; [exists ct; split; [reflexivity|exact E]|exact H].
  - intros [(ct & -> & ->) H]. simpl. apply bool_decide_eq_true, H.
Qed.

(** C7 (as the code has it).  [save_image] rejects an upload whose content
    type is not an image type or whose extension is outside the allowed set
    ([.jpg], [.jpeg], [.png], [.gif], [.webp]) with 400 "Invalid image file";
    content above the ceiling of 5 MiB is always rejected with a 400, which
    is "File too large" once the file has passed validation; neither touches
    the store.  An accepted upload is written under a freshly generated
    unique name: the identifier drawn for this call followed by the upload's
    own lower-cased extension, a name that no other identifier can give.
    The thumbnail is attempted, and when the imaging step raises, the error
    is swallowed and the upload still succeeds with the original in place.
    When opening or writing the original fails, nothing is left at its path
    and the failure is reported as 500. *)
Theorem C7_save_image
    (env : Env) (file : UploadFile) (subdir : string) (fs : Fs) :
  let saved := save_image env file subdir fs in
  let ext := lower (suffix (path_of (or_default (filename file) ""))) in
  let name :=
    generate_filename (uuid4 env) (or_default (filename file) "image") in
  let file_path := path_join (path_join UPLOAD_DIR subdir) name in
  let thumbnail_path :=
    path_join (path_parent file_path) ("thumb_" ++ path_name file_path) in
  MAX_FILE_SIZE = 5242880%Z /\
  (forall e, e ∈ ALLOWED_EXTENSIONS <->
             e = ".jpg" \/ e = ".jpeg" \/ e = ".png" \/ e = ".gif" \/
             e = ".webp") /\
  (validate_image_file file = true <->
   (exists ct, content_type file = Some ct /\
               String.prefix "image/" ct = true) /\
   ext ∈ ALLOWED_EXTENSIONS) /\
  (validate_image_file file = false ->
   saved = (Raise (HTTPException 400 "Invalid image file" []), fs)) /\
  ((forall ct, content_type file = Some ct ->
               String.prefix "image/" ct = false) \/
   ext ∉ ALLOWED_EXTENSIONS ->
   saved = (Raise (HTTPException 400 "Invalid image file" []), fs)) /\
  ((Z.of_nat (List.length (content file)) > MAX_FILE_SIZE)%Z ->
   exists detail, saved = (Raise (HTTPException 400 detail []), fs)) /\
  (validate_image_file file = true ->
   ((Z.of_nat (List.length (content file)) > MAX_FILE_SIZE)%Z ->
    saved = (Raise (HTTPException 400 "File too large" []), fs)) /\
   ((Z.of_nat (List.length (content file)) <= MAX_FILE_SIZE)%Z ->
    (ext ∈ ALLOWED_EXTENSIONS /\ name = uuid4 env ++ ext) /\
    (forall env' file',
       validate_image_file file' = true ->
       uuid4 env' <> uuid4 env ->
       generate_filename (uuid4 env') (or_default (filename file') "image")
         <> name) /\
    (write_env env = WriteOk ->
     fst saved = Return name /\
     snd saved !! file_path = Some (content file) /\
     snd saved !! thumbnail_path =
       match thumbnail_env env with
       | ThumbSaved data => Some data
       | ThumbRaises _ (Some partial) => Some partial
       | ThumbRaises _ None => fs !! thumbnail_path
       end /\
     (forall p, p <> file_path -> p <> thumbnail_path ->
                snd saved !! p = fs !! p)) /\
    (forall msg,
       write_env env = OpenFails msg \/
       (exists written, write_env env = WriteFails written msg) ->
       fst saved =
         Raise (HTTPException 500 ("Failed to save image: " ++ msg) []) /\
       snd saved !! file_path = None /\
       (forall p, p <> file_path -> snd saved !! p = fs !! p)))).
Proof.
  intros saved ext name file_path thumbnail_path.
  split; [reflexivity|].
  split; [exact allowed_extensions|].
  split; [apply validate_image_file_spec|].
  assert (Hinvalid : validate_image_file file = false ->
            saved = (Raise (HTTPException 400 "Invalid image file" []), fs)).
  { intros Hv. subst saved. unfold save_image. rewrite Hv. reflexivity. }
  split; [exact Hinvalid|].
  split.
  { intros Hbad. apply Hinvalid.
    destruct (validate_image_file file) eqn:Hv; [|reflexivity].
    apply validate_image_file_spec in Hv as [(ct & Hct & Himg) Hext].
    destruct Hbad as [Hbad|Hbad]; [|contradiction].
    rewrite (Hbad ct Hct) in Himg. discriminate Himg. }
  assert (Hlarge : validate_image_file file = true ->
            (Z.of_nat (List.length (content file)) > MAX_FILE_SIZE)%Z ->
            saved = (Raise (HTTPException 400 "File too large" []), fs)).
  { intros Hv Hbig. subst saved. unfold save_image. rewrite Hv. simpl.
    apply Z.gtb_gt in Hbig. rewrite Hbig. reflexivity. }
  split.
  { intros Hbig. destruct (validate_image_file file) eqn:Hv.
    - eexists. apply Hlarge; [reflexivity|exact Hbig].
    - eexists. apply Hinvalid. reflexivity. }
  intros Hv. split; [apply Hlarge, Hv|].
  intros Hsmall.
  assert (Hsize : (Z.of_nat (List.length (content file)) >? MAX_FILE_SIZE)%Z
                  = false).
  { destruct (Z.gtb_spec (Z.of_nat (List.length (content file)))
                         MAX_FILE_SIZE); [lia|reflexivity]. }
  assert (Hdistinct : thumbnail_path <> file_path).
  { apply thumbnail_path_distinct, upload_path_canonical. }
  destruct (generated_name (uuid4 env) file Hv) as [Hext Hname].
  split; [split; [exact Hext|exact Hname]|].
  split.
  { intros env' file' Hv' Hother Hsame.
    destruct (generated_name (uuid4 env') file' Hv') as [Hext' Hname'].
    subst name. rewrite Hname, Hname' in Hsame.
    apply Hother. exact (stored_name_inj _ _ _ _ Hext' Hext Hsame). }
  split.
  - intros Hw. subst saved. unfold save_image. rewrite Hv, Hsize. simpl.
    fold name. fold file_path.
    unfold io_bind, io_ret, write_file, create_thumbnail. rewrite Hw.
    fold thumbnail_path.
    destruct (thumbnail_env env) as [data|msg [partial|]]; simpl.
    + split; [reflexivity|]. split.
      { rewrite lookup_insert_ne by exact Hdistinct. apply lookup_insert_eq. }
      split; [apply lookup_insert_eq|].
      intros p Hf Ht. rewrite !lookup_insert_ne by congruence. reflexivity.
    + split; [reflexivity|]. split.
      { rewrite lookup_insert_ne by exact Hdistinct. apply lookup_insert_eq. }
      split; [apply lookup_insert_eq|].
      intros p Hf Ht. rewrite !lookup_insert_ne by congruence. reflexivity.
    + split; [reflexivity|]. split; [apply lookup_insert_eq|].
      split; [apply lookup_insert_ne; congruence|].
      intros p Hf Ht. rewrite lookup_insert_ne by congruence. reflexivity.
  - intros msg Hw. subst saved. unfold save_image. rewrite Hv, Hsize. simpl.
    fold name. fold file_path.
    unfold io_bind, io_ret, write_file.
    destruct Hw as [Hw|[written Hw]]; rewrite Hw; simpl.
    + split; [reflexivity|].
      unfold path_exists. case_bool_decide as Hex.
      * split; [apply lookup_delete_eq|].
        intros p Hp. apply lookup_delete_ne. congruence.
      * split; [|reflexivity].
        destruct (fs !! file_path) eqn:E; [|reflexivity].
        exfalso. apply Hex. eexists. reflexivity.
    + split; [reflexivity|].
      unfold path_exists. rewrite lookup_insert_eq.
      rewrite bool_decide_eq_true_2 by (eexists; reflexivity).
      split; [apply lookup_delete_eq|].
      intros p Hp.
      rewrite lookup_delete_ne, lookup_insert_ne by congruence. reflexivity.
Qed.

Lemma C7_save_image_witness :
  fst (save_image sample_env_disk_full sample_upload "products" ∅) =
    Raise (HTTPException 500 "Failed to save image: disk full" []) /\
  snd (save_image sample_env_disk_full sample_upload "products" ∅)
    !! ["uploads"; "products"; "u1.png"] = None /\
  fst (save_image sample_env_no_thumbnail sample_upload "products" ∅) =
    Return "u1.png" /\
  snd (save_image sample_env_no_thumbnail sample_upload "products" ∅)
    !! ["uploads"; "products"; "u1.png"] = Some (content sample_upload).
Proof.
  pose proof (C7_save_image sample_env_disk_full sample_upload "products" ∅)
    as Hfull.
  pose proof (C7_save_image sample_env_no_thumbnail sample_upload
                            "products" ∅) as Hthumb.
  cbv zeta in Hfull, Hthumb.
  destruct Hfull as (_ & _ & _ & _ & _ & _ & Hfull).
  destruct Hthumb as (_ & _ & _ & _ & _ & _ & Hthumb).
  destruct (Hfull eq_refl) as [_ Hfull'].
  destruct (Hthumb eq_refl) as [_ Hthumb'].
  assert (Hsize : (Z.of_nat (List.length (content sample_upload))
                   <= MAX_FILE_SIZE)%Z) by (vm_compute; discriminate).
  destruct (Hfull' Hsize) as (_ & _ & _ & Hfail).
  destruct (Hthumb' Hsize) as (_ & _ & Hok & _).
  destruct (Hok eq_refl) as (Hname & Hfile & _).
  destruct (Hfail "disk full" (or_intror (ex_intro _ 1%nat eq_refl)))
    as (Hraise & Hgone & _).
  split; [exact Hraise|]. split; [exact Hgone|].
  split; [exact Hname|exact Hfile].
Defined.

(** C7 as stated, refuted: an upload can be accepted, its original written
    and its name returned, with no thumbnail derived.  The client declares
    the content type and the extension; when the bytes are not an image the
    imaging step raises inside [create_thumbnail] and the error is only
    printed. *)
Lemma C7_counterexample :
  ~ (forall env file subdir fs name,
       fst (save_image env file subdir fs) = Return name ->
       is_Some (snd (save_image env file subdir fs)
                  !! path_join (path_join UPLOAD_DIR subdir)
                               ("thumb_" ++ name))).
Proof.
  intros H.
  specialize (H sample_env_no_thumbnail sample_upload "products" ∅ "u1.png"
                eq_refl).
  vm_compute in H. destruct H as [data H]. discriminate H.
Qed.

(** * Further properties *)

(** ** Registration, passwords and the active flag *)

Lemma query_first_none {A} (p : A -> bool) (rows : list A) :
  query_first p rows = None <-> forall x, In x rows -> p x = false.
Proof.
  unfold query_first. split.
  - intros H x Hx. exact (List.find_none p rows H x Hx).
  - intros H. induction rows as [|x rows IH]; [reflexivity|].
    simpl. rewrite (H x) by (left; reflexivity).
    apply IH. intros y Hy. apply H. right. exact Hy.
Qed.

Lemma query_first_app {A} (p : A -> bool) (rows more : list A) :
  query_first p (rows ++ more) =
  match query_first p rows with
  | Some x => Some x
  | None => query_first p more
  end.
Proof.
  unfold query_first. induction rows as [|x rows IH]; [reflexivity|].
  simpl. destruct (p x); [reflexivity|exact IH].
Qed.

(** What a successful registration stored. *)
Lemma register_user_stored get_password_hash user_data db user db' :
  register_user get_password_hash user_data db = Return (user, db') ->
  query_first (fun u => email u =? uc_email user_data) (users db) = None /\
  db' = add_user user db /\
  user =
    mkUser (next_user_id db) (uc_email user_data) (uc_phone user_data)
           (get_password_hash (uc_password user_data))
           (uc_full_name user_data) (uc_role user_data) (Some true)
           (Some false) None (uc_address user_data) (uc_city user_data)
           (uc_prefecture user_data) (Some (uc_country user_data))
           (uc_postal_code user_data).
Proof.
  unfold register_user.
  destruct (query_first _ (users db)) eqn:Hemail; [discriminate|].
  destruct (truthy_str _ && _); [discriminate|].
  destruct (bool_decide _); [discriminate|].
  intros [= <- <-]. repeat split.
Qed.

(** X1.  A user who has just registered can log in: with a codec that
    verifies the registered password against its own hash, logging in with
    the registered e-mail and password on the database the registration left
    returns a token pair minted from the new row. *)
Theorem X1_register_then_login
    (verify_password : string -> string -> bool)
    (get_password_hash : string -> string)
    (create_access_token : Payload -> Z -> string)
    (create_refresh_token : Payload -> string)
    (user_data : UserCreate) (db db' : Db) (user : User) :
  verify_password (uc_password user_data)
                  (get_password_hash (uc_password user_data)) = true ->
  register_user get_password_hash user_data db = Return (user, db') ->
  login_user verify_password create_access_token create_refresh_token
             (mkUserLogin (uc_email user_data) (uc_password user_data)) db' =
    Return (issue_tokens create_access_token create_refresh_token user) /\
  role user = uc_role user_data /\
  is_active user = Some true.
Proof.
  intros Hverify Hreg.
  destruct (register_user_stored _ _ _ _ _ Hreg) as (Hnone & -> & ->).
  split; [|split; reflexivity].
  unfold login_user. cbn [ul_email ul_password users add_user].
  rewrite query_first_app, Hnone.
  unfold query_first. cbn [List.find email]. rewrite String.eqb_refl.
  cbn [hashed_password]. rewrite Hverify. reflexivity.
Qed.

Lemma X1_register_then_login_witness :
  login_user sample_verify sample_access sample_refresh
             (mkUserLogin "dave@example.com" "davedave1")
             (state_after sample_db
                (register_user sample_hash dave_data sample_db)) =
    Return (mkToken "token-of-dave@example.com"
                    "refresh-of-dave@example.com" "bearer" 1800).
Proof.
  refine (proj1 (X1_register_then_login sample_verify sample_hash
                   sample_access sample_refresh dave_data sample_db _ _
                   eq_refl eq_refl)).
Defined.

Lemma map_update_same {A B} (g : A -> B) (f : A -> A) (c : A -> bool)
      (rows : list A) :
  (forall x, g (f x) = g x) ->
  List.map g (List.map (fun x => if c x then f x else x) rows) =
  List.map g rows.
Proof.
  intros Hg. rewrite List.map_map. apply List.map_ext.
  intros x. destruct (c x); [apply Hg|reflexivity].
Qed.

Lemma users_wf_update_user pk f db :
  (forall u, id (f u) = id u) ->
  (forall u, email (f u) = email u) ->
  users_wf db -> users_wf (update_user pk f db).
Proof.
  intros Hid Hemail (Hids & Hemails & Hnext).
  unfold users_wf. rewrite users_update_user.
  rewrite !map_update_same by assumption.
  split; [exact Hids|]. split; [exact Hemails|].
  apply List.Forall_forall. intros u Hu.
  apply List.in_map_iff in Hu as (u0 & <- & Hu0).
  rewrite List.Forall_forall in Hnext. specialize (Hnext u0 Hu0).
  simpl. destruct (id u0 =? pk)%Z; [rewrite Hid|]; exact Hnext.
Qed.

Lemma users_wf_register get_password_hash user_data db :
  users_wf db ->
  users_wf (state_after db (register_user get_password_hash user_data db)).
Proof.
  intros Hwf.
  destruct (register_user get_password_hash user_data db)
    as [e|[user db']] eqn:Hreg; [exact Hwf|].
  destruct (register_user_stored _ _ _ _ _ Hreg) as (Hnone & -> & Huser).
  destruct Hwf as (Hids & Hemails & Hnext).
  assert (Hid : id user = next_user_id db) by (rewrite Huser; reflexivity).
  assert (Hmail : email user = uc_email user_data)
    by (rewrite Huser; reflexivity).
  unfold users_wf. simpl. rewrite !List.map_app. simpl.
  rewrite List.Forall_forall in Hnext.
  split; [|split].
  - apply NoDup_app. split; [exact Hids|]. split; [|apply NoDup_singleton].
    intros i Hi Hin. apply list_elem_of_singleton in Hin. subst i.
    apply list_elem_of_In, List.in_map_iff in Hi as (u & Hu & Hin).
    specialize (Hnext u Hin). lia.
  - apply NoDup_app. split; [exact Hemails|]. split; [|apply NoDup_singleton].
    intros e He Hin. apply list_elem_of_singleton in Hin. subst e.
    apply list_elem_of_In, List.in_map_iff in He as (u & Hu & Hin).
    apply (proj1 (query_first_none _ _) Hnone) in Hin.
    simpl in Hin. rewrite Hu, Hmail, String.eqb_refl in Hin. discriminate.
  - apply List.Forall_forall. intros u Hu.
    apply List.in_app_iff in Hu as [Hu|[<-|[]]].
    + specialize (Hnext u Hu). lia.
    + lia.
Qed.

(** X2.  Every request to the /auth router keeps the [users] table
    well-formed: ids stay distinct, e-mails stay distinct, and the id sequence
    stays ahead of every id in use. *)
Theorem X2_auth_keeps_users_wf
    (decode_access_token : string -> option Payload)
    (verify_password : string -> string -> bool)
    (get_password_hash : string -> string)
    (req : AuthRequest) (db : Db) :
  users_wf db ->
  users_wf (serve_auth decode_access_token verify_password get_password_hash
                       req db).
Proof.
  intros Hwf. destruct req; simpl; try exact Hwf.
  - apply users_wf_register, Hwf.
  - destruct (Depends _ _ _ _) as [|current_user]; [exact Hwf|].
    unfold change_password. destruct (negb _); [exact Hwf|].
    simpl. apply users_wf_update_user; [reflexivity|reflexivity|exact Hwf].
  - destruct (Depends _ _ _ _) as [|current_user]; [exact Hwf|].
    unfold toggle_user_active_status.
    destruct (query_first _ (users db)); [|exact Hwf].
    simpl. apply users_wf_update_user; [reflexivity|reflexivity|exact Hwf].
Qed.

Lemma sample_db_users_wf : users_wf sample_db.
Proof.
  unfold users_wf. simpl. repeat split.
  - repeat (apply NoDup_cons; split;
            [intros H; repeat (apply elem_of_cons in H as [H|H];
                                 [discriminate H|]); inversion H|]).
    apply NoDup_nil. exact I.
  - repeat (apply NoDup_cons; split;
            [intros H; repeat (apply elem_of_cons in H as [H|H];
                                 [discriminate H|]); inversion H|]).
    apply NoDup_nil. exact I.
  - repeat constructor.
Defined.

Lemma X2_auth_keeps_users_wf_witness :
  users_wf (serve_auth sample_decode sample_verify sample_hash
                       (Register dave_data) sample_db).
Proof.
  apply X2_auth_keeps_users_wf. exact sample_db_users_wf.
Defined.

(** X3.  Registration refuses a telephone number that another user holds:
    with 400 "Phone number already registered" when the number is a
    non-empty string, and, because an empty string is falsy and skips that
    check, with the unique index's error when the number is the empty
    string.  Either way nothing is stored. *)
Theorem X3_register_phone_taken
    (get_password_hash : string -> string)
    (user_data : UserCreate) (db : Db) (number : string) (holder : User) :
  query_first (fun u => email u =? uc_email user_data) (users db) = None ->
  uc_phone user_data = Some number ->
  In holder (users db) ->
  phone holder = Some number ->
  register_user get_password_hash user_data db =
    (if number =? "" then
       Raise (DatabaseError "unique constraint: users.phone")
     else Raise (HTTPException 400 "Phone number already registered" [])) /\
  state_after db (register_user get_password_hash user_data db) = db.
Proof.
  intros Hemail Hphone Hin Hholder.
  assert (Hreg : register_user get_password_hash user_data db =
            if number =? "" then
              Raise (DatabaseError "unique constraint: users.phone")
            else Raise (HTTPException 400 "Phone number already registered"
                          [])).
  { unfold register_user. rewrite Hemail, Hphone. cbv zeta.
    destruct (query_first
                (fun u => match phone u with
                          | Some q => q =? number
                          | None => false
                          end) (users db)) as [found|] eqn:Hq.
    - rewrite (bool_decide_eq_true_2 (is_Some (Some found)))
        by (eexists; reflexivity).
      destruct number; reflexivity.
    - apply (proj1 (query_first_none _ _)) with (x := holder) in Hq;
        [|exact Hin].
      simpl in Hq. rewrite Hholder, String.eqb_refl in Hq. discriminate. }
  split; [exact Hreg|]. rewrite Hreg. destruct (number =? ""); reflexivity.
Qed.

Lemma X3_register_phone_taken_witness :
  register_user sample_hash (grace_data "") phone_db =
    Raise (DatabaseError "unique constraint: users.phone") /\
  register_user sample_hash (grace_data "0312345678") phone_db =
    Raise (HTTPException 400 "Phone number already registered" []).
Proof.
  split.
  - refine (proj1 (X3_register_phone_taken sample_hash (grace_data "")
                     phone_db "" erin eq_refl eq_refl _ eq_refl)).
    left. reflexivity.
  - refine (proj1 (X3_register_phone_taken sample_hash
                     (grace_data "0312345678") phone_db "0312345678" frank
                     eq_refl eq_refl _ eq_refl)).
    right. left. reflexivity.
Defined.

(** X4.  After a successful password change the user logs in with the new
    password and no longer with the old one: for an active user whose row is
    the one found under its e-mail, and a codec that verifies the new
    password against its hash and rejects the old one against it. *)
Theorem X4_change_password_then_login
    (verify_password : string -> string -> bool)
    (get_password_hash : string -> string)
    (create_access_token : Payload -> Z -> string)
    (create_refresh_token : Payload -> string)
    (password_data : PasswordChange) (current_user : User) (db : Db) :
  query_first (fun u => email u =? email current_user) (users db) =
    Some current_user ->
  truthy (is_active current_user) = true ->
  verify_password (current_password password_data)
                  (hashed_password current_user) = true ->
  verify_password (new_password password_data)
                  (get_password_hash (new_password password_data)) = true ->
  verify_password (current_password password_data)
                  (get_password_hash (new_password password_data)) = false ->
  exists db',
    change_password verify_password get_password_hash password_data
                    current_user db =
      Return ("Password changed successfully", db') /\
    login_user verify_password create_access_token create_refresh_token
               (mkUserLogin (email current_user)
                            (new_password password_data)) db' =
      Return (issue_tokens create_access_token create_refresh_token
                (set_hashed_password
                   (get_password_hash (new_password password_data))
                   current_user)) /\
    login_user verify_password create_access_token create_refresh_token
               (mkUserLogin (email current_user)
                            (current_password password_data)) db' =
      Raise invalid_credentials.
Proof.
  intros Hfound Hactive Hcurrent Hnew Hold.
  unfold change_password. rewrite Hcurrent. simpl negb. cbv iota.
  eexists. split; [reflexivity|].
  assert (Hq : query_first (fun u => email u =? email current_user)
                 (users (update_user (id current_user)
                           (set_hashed_password
                              (get_password_hash
                                 (new_password password_data))) db)) =
               Some (set_hashed_password
                       (get_password_hash (new_password password_data))
                       current_user)).
  { rewrite users_update_user.
    rewrite (query_first_map (fun u => email u =? email current_user)).
    - rewrite Hfound. simpl. rewrite Z.eqb_refl. reflexivity.
    - intros u. destruct (id u =? id current_user)%Z; reflexivity. }
  unfold login_user. cbn [ul_email ul_password]. rewrite Hq.
  cbn [hashed_password set_hashed_password is_active].
  rewrite Hnew, Hold, Hactive. split; reflexivity.
Qed.

Lemma X4_change_password_then_login_witness :
  exists db',
    change_password sample_verify sample_hash
                    (mkPasswordChange "hunter2hunter2" "correct-horse") bob
                    sample_db =
      Return ("Password changed successfully", db') /\
    login_user sample_verify sample_access sample_refresh
               (mkUserLogin "bob@example.com" "correct-horse") db' =
      Return (mkToken "token-of-bob@example.com"
                      "refresh-of-bob@example.com" "bearer" 1800) /\
    login_user sample_verify sample_access sample_refresh
               (mkUserLogin "bob@example.com" "hunter2hunter2") db' =
      Raise invalid_credentials.
Proof.
  exact (X4_change_password_then_login sample_verify sample_hash
           sample_access sample_refresh
           (mkPasswordChange "hunter2hunter2" "correct-horse") bob sample_db
           eq_refl eq_refl eq_refl eq_refl eq_refl).
Defined.

Lemma NoDup_key_inj {A B} (key : A -> B) (rows : list A) (x y : A) :
  NoDup (List.map key rows) -> In x rows -> In y rows -> key x = key y ->
  x = y.
Proof.
  induction rows as [|r rows IH]; intros Hnd Hx Hy Hkey; [destruct Hx|].
  simpl in Hnd. apply NoDup_cons in Hnd as [Hr Hnd].
  destruct Hx as [<-|Hx], Hy as [<-|Hy]; [reflexivity| | |auto].
  - exfalso. apply Hr. rewrite Hkey.
    apply list_elem_of_In, List.in_map, Hy.
  - exfalso. apply Hr. rewrite <- Hkey.
    apply list_elem_of_In, List.in_map, Hx.
Qed.

Lemma set_is_active_same u b :
  is_active u = Some b ->
  set_is_active (Some b) (set_is_active (Some (negb b)) u) = u.
Proof. destruct u. simpl. intros ->. reflexivity. Qed.

(** X5.  The admin toggle undoes itself on a well-keyed table: for a user
    whose active flag is set, toggling deactivates or activates the user,
    and toggling again puts the flag back, so that every row of [users]
    agrees with the row it started as on every column but the timestamps
    (each of the two UPDATEs rewrites [updated_at], which the model leaves
    out). *)
Theorem X5_toggle_twice
    (uid : Z) (admin1 admin2 : User) (db : Db) (user : User) (b : bool) :
  NoDup (List.map id (users db)) ->
  query_first (fun u => (id u =? uid)%Z) (users db) = Some user ->
  is_active user = Some b ->
  exists db1 db2,
    toggle_user_active_status uid admin1 db =
      Return ("User " ++ (if negb b then "activated" else "deactivated")
                ++ " successfully", db1) /\
    query_first (fun u => (id u =? uid)%Z) (users db1) =
      Some (set_is_active (Some (negb b)) user) /\
    toggle_user_active_status uid admin2 db1 =
      Return ("User " ++ (if b then "activated" else "deactivated")
                ++ " successfully", db2) /\
    Forall2 same_user_columns (users db) (users db2).
Proof.
  intros Hnd Hq Hact.
  destruct (query_first_holds _ _ _ Hq) as [Hid Hin].
  apply Z.eqb_eq in Hid.
  assert (Htruthy : truthy (is_active user) = b)
    by (rewrite Hact; destruct b; reflexivity).
  set (db1 := update_user (id user) (set_is_active (Some (negb b))) db).
  set (db2 := update_user (id user) (set_is_active (Some b)) db1).
  exists db1, db2.
  assert (Hq1 : query_first (fun u => (id u =? uid)%Z) (users db1) =
                Some (set_is_active (Some (negb b)) user)).
  { subst db1. rewrite query_first_update_user by apply id_set_is_active.
    rewrite Hq. simpl. rewrite Z.eqb_refl. reflexivity. }
  assert (Husers : users db2 = users db).
  { subst db2 db1. rewrite !users_update_user.
    rewrite List.map_map.
    rewrite <- (List.map_id (users db)) at 2.
    apply List.map_ext_in. intros u Hu.
    destruct (id u =? id user)%Z eqn:E.
    + apply Z.eqb_eq in E.
      assert (u = user) by (apply (NoDup_key_inj id (users db)); assumption).
      subst u. cbn [id set_is_active]. rewrite Z.eqb_refl.
      apply set_is_active_same, Hact.
    + rewrite E. reflexivity. }
  split; [|split; [exact Hq1|split]].
  - unfold toggle_user_active_status. rewrite Hq. cbv zeta.
    rewrite Htruthy. reflexivity.
  - unfold toggle_user_active_status. rewrite Hq1. cbv zeta.
    cbn [is_active set_is_active id].
    replace (negb (truthy (Some (negb b)))) with b by (destruct b; reflexivity).
    reflexivity.
  - rewrite Husers. clear. induction (users db) as [|u rest IH];
      constructor; [repeat split|exact IH].
Qed.

Lemma X5_toggle_twice_witness :
  exists db1 db2,
    toggle_user_active_status 2 alice sample_db =
      Return ("User deactivated successfully", db1) /\
    query_first (fun u => (id u =? 2)%Z) (users db1) =
      Some (set_is_active (Some false) bob) /\
    toggle_user_active_status 2 alice db1 =
      Return ("User activated successfully", db2) /\
    Forall2 same_user_columns (users sample_db) (users db2).
Proof.
  exact (X5_toggle_twice 2 alice alice sample_db bob true
           (proj1 sample_db_users_wf) eq_refl eq_refl).
Defined.

(** X6.  Toggling one user never changes how another user's token
    resolves: a bearer token whose user id is not the toggled one resolves
    after the toggle exactly as before. *)
Theorem X6_toggle_leaves_others
    (decode_access_token : string -> option Payload)
    (credentials : string) (uid : Z) (admin : User) (db : Db) :
  (forall payload, decode_access_token credentials = Some payload ->
                   user_id payload <> Some uid) ->
  get_current_user decode_access_token credentials
    (state_after db (toggle_user_active_status uid admin db)) =
  get_current_user decode_access_token credentials db.
Proof.
  intros Hother. unfold toggle_user_active_status.
  destruct (query_first _ (users db)) as [user|] eqn:Hq; [|reflexivity].
  destruct (query_first_holds _ _ _ Hq) as [Hid _]. apply Z.eqb_eq in Hid.
  simpl. unfold get_current_user.
  destruct (decode_access_token credentials) as [payload|] eqn:Hdec;
    [|reflexivity].
  specialize (Hother payload eq_refl).
  destruct (sub payload); [|reflexivity].
  destruct (user_id payload) as [k|]; [|reflexivity].
  rewrite query_first_update_user by apply id_set_is_active.
  destruct (query_first (fun u => (id u =? k)%Z) (users db)) as [found|] eqn:Hk;
    [|reflexivity].
  destruct (query_first_holds _ _ _ Hk) as [Hfid _]. apply Z.eqb_eq in Hfid.
  simpl.
  destruct (id found =? id user)%Z eqn:E; [|reflexivity].
  apply Z.eqb_eq in E. exfalso. apply Hother. congruence.
Qed.

Lemma X6_toggle_leaves_others_witness :
  get_current_user sample_decode "token-of-alice@example.com"
    (state_after sample_db (toggle_user_active_status 2 alice sample_db)) =
  get_current_user sample_decode "token-of-alice@example.com" sample_db.
Proof.
  apply X6_toggle_leaves_others.
  intros payload [= <-]. discriminate.
Defined.

(** X7.  The admin user listing pages the table: for a non-negative offset
    and limits, a page holds at most [limit] users, two consecutive pages
    joined are the page of their joint size, and an offset at or past the end
    of the table gives the empty page. *)
Theorem X7_list_all_users_pages
    (skip n m : Z) (current_user : User) (db : Db) :
  (0 <= skip)%Z -> (0 <= n)%Z -> (0 <= m)%Z ->
  exists page1 page2,
    list_all_users skip n current_user db = Return page1 /\
    list_all_users (skip + n) m current_user db = Return page2 /\
    list_all_users skip (n + m) current_user db =
      Return (page1 ++ page2)%list /\
    (Z.of_nat (List.length page1) <= n)%Z /\
    (forall u, In u page1 -> In u (users db)) /\
    ((Z.of_nat (List.length (users db)) <= skip)%Z -> page1 = []).
Proof.
  intros Hs Hn Hm. unfold list_all_users.
  assert (H1 : (skip <? 0)%Z = false) by (apply Z.ltb_ge; lia).
  assert (H2 : (n <? 0)%Z = false) by (apply Z.ltb_ge; lia).
  assert (H3 : (m <? 0)%Z = false) by (apply Z.ltb_ge; lia).
  assert (H4 : (skip + n <? 0)%Z = false) by (apply Z.ltb_ge; lia).
  assert (H5 : (n + m <? 0)%Z = false) by (apply Z.ltb_ge; lia).
  rewrite H1, H2, H3, H4, H5. simpl.
  eexists. eexists. split; [reflexivity|]. split; [reflexivity|].
  split; [|split; [|split]].
  - rewrite !Z2Nat.inj_add by lia.
    rewrite <- drop_drop, take_take_drop. reflexivity.
  - pose proof (firstn_le_length (Z.to_nat n)
                  (drop (Z.to_nat skip) (users db))). lia.
  - intros u Hu. apply list_elem_of_In in Hu.
    apply list_elem_of_In.
    eapply (subseteq_drop (Z.to_nat skip)).
    eapply (subseteq_take (Z.to_nat n)). exact Hu.
  - intros Hend. rewrite drop_ge by lia. apply take_nil.
Qed.

Lemma X7_list_all_users_pages_witness :
  list_all_users 0 3 alice sample_db = Return ([alice; bob] ++ [carol])%list /\
  list_all_users 5 10 alice sample_db = Return [].
Proof.
  destruct (X7_list_all_users_pages 0 2 1 alice sample_db)
    as (p1 & p2 & H1 & H2 & H3 & _); [lia|lia|lia|].
  destruct (X7_list_all_users_pages 5 10 0 alice sample_db)
    as (q1 & q2 & G1 & _ & _ & _ & _ & G2); [lia|lia|lia|].
  injection H1 as <-. injection H2 as <-.
  split; [exact H3|].
  rewrite G1, G2; [reflexivity|simpl; lia].
Defined.

(** ** The dependency chain *)

Lemma get_current_user_raises decode_access_token credentials db e :
  get_current_user decode_access_token credentials db = Raise e ->
  e = credentials_exception \/ e = inactive_user.
Proof.
  unfold get_current_user.
  destruct (decode_access_token credentials) as [payload|];
    [|intros [= <-]; left; reflexivity].
  destruct (sub payload); [|intros [= <-]; left; reflexivity].
  destruct (user_id payload); [|intros [= <-]; left; reflexivity].
  destruct (query_first _ _) as [user|];
    [|intros [= <-]; left; reflexivity].
  destruct (negb _); [intros [= <-]; right; reflexivity|discriminate].
Qed.

(** X8.  A protected route is the bearer scheme, then the resolver, then
    the gate alone: behind [get_current_user] the second active check of
    [get_current_active_user] never fires.  Once the bearer scheme has
    handed credentials on, a request that fails to resolve gets the
    resolver's 401 or 400 whatever the gate; whatever else the chain raises
    was raised by the bearer scheme on the header, or by the gate on a
    resolved user. *)
Theorem X8_depends_is_resolver_then_gate
    (security : option string -> result string)
    (decode_access_token : string -> option Payload)
    (gate : User -> result User) (authorization : option string) (db : Db) :
  secured security decode_access_token gate authorization db =
    match security authorization with
    | Raise e => Raise e
    | Return credentials =>
        match get_current_user decode_access_token credentials db with
        | Raise e => Raise e
        | Return user => gate user
        end
    end /\
  (forall credentials e,
     security authorization = Return credentials ->
     get_current_user decode_access_token credentials db = Raise e ->
     secured security decode_access_token gate authorization db = Raise e /\
     Depends decode_access_token gate credentials db = Raise e /\
     (e = credentials_exception \/ e = inactive_user)) /\
  (forall e,
     secured security decode_access_token gate authorization db = Raise e ->
     e <> credentials_exception -> e <> inactive_user ->
     security authorization = Raise e \/
     exists credentials user,
       security authorization = Return credentials /\
       get_current_user decode_access_token credentials db = Return user /\
       gate user = Raise e).
Proof.
  assert (Hchain : forall credentials,
            Depends decode_access_token gate credentials db =
            match get_current_user decode_access_token credentials db with
            | Raise e => Raise e
            | Return user => gate user
            end).
  { intros credentials.
    destruct (get_current_user decode_access_token credentials db)
      as [e|user] eqn:Hres.
    - unfold Depends. rewrite Hres. reflexivity.
    - apply Depends_resolved, Hres. }
  assert (Hsecured :
            secured security decode_access_token gate authorization db =
            match security authorization with
            | Raise e => Raise e
            | Return credentials =>
                match get_current_user decode_access_token credentials db with
                | Raise e => Raise e
                | Return user => gate user
                end
            end).
  { unfold secured. destruct (security authorization) as [e|credentials];
      [reflexivity|]. apply Hchain. }
  split; [exact Hsecured|]. split.
  - intros credentials e Hsec Hres. split; [|split].
    + rewrite Hsecured, Hsec, Hres. reflexivity.
    + rewrite Hchain, Hres. reflexivity.
    + apply (get_current_user_raises _ _ _ _ Hres).
  - intros e Hraise Hnot401 Hnot400. rewrite Hsecured in Hraise.
    destruct (security authorization) as [e'|credentials];
      [left; injection Hraise as ->; reflexivity|].
    right.
    destruct (get_current_user decode_access_token credentials db)
      as [e'|user] eqn:Hres.
    + injection Hraise as ->.
      destruct (get_current_user_raises _ _ _ _ Hres); contradiction.
    + exists credentials, user. repeat split; assumption.
Qed.

(** X9.  Role lists compose: the gate over two role lists joined admits a
    user exactly when the gate over one of them does, the gate over a single
    role is the single-role gate up to the wording of its 403, and the gate
    over no role admits nobody. *)
Theorem X9_role_lists_compose
    (allowed1 allowed2 : list UserRole) (r : UserRole) (user : User) :
  (require_roles (allowed1 ++ allowed2) user = Return user <->
   require_roles allowed1 user = Return user \/
   require_roles allowed2 user = Return user) /\
  (require_roles [r] user = Return user <->
   require_role r user = Return user) /\
  (status_of <$> (match require_roles [r] user with
                  | Raise e => Some e | Return _ => None end) =
   status_of <$> (match require_role r user with
                  | Raise e => Some e | Return _ => None end)) /\
  require_roles [] user <> Return user.
Proof.
  assert (Hpass : forall allowed,
            require_roles allowed user = Return user <->
            existsb (UserRole_eqb (role user)) allowed = true).
  { intros allowed. unfold require_roles.
    destruct (existsb _ allowed); simpl; split; congruence. }
  split; [|split; [|split]].
  - rewrite !Hpass, existsb_app. apply orb_true_iff.
  - rewrite Hpass, require_role_exact. simpl. rewrite orb_false_r.
    apply UserRole_eqb_eq.
  - unfold require_roles, require_role. simpl. rewrite orb_false_r.
    destruct (UserRole_eqb (role user) r); reflexivity.
  - unfold require_roles. simpl. discriminate.
Qed.

(** X10.  Nothing stops an administrator from deactivating their own
    account, and nothing lets them undo it: after an active admin toggles
    their own id, every request with their token, a further toggle included,
    fails with "Inactive user" and leaves the database as it is. *)
Theorem X10_admin_self_lockout
    (decode_access_token : string -> option Payload)
    (verify_password : string -> string -> bool)
    (get_password_hash : string -> string)
    (credentials : string) (db : Db) (admin : User) :
  get_current_user decode_access_token credentials db = Return admin ->
  role admin = ADMIN ->
  let db' :=
    serve_auth decode_access_token verify_password get_password_hash
               (ToggleActive credentials (id admin)) db in
  get_current_user decode_access_token credentials db' = Raise inactive_user /\
  (forall gate,
     Depends decode_access_token gate credentials db' = Raise inactive_user) /\
  (forall uid,
     serve_auth decode_access_token verify_password get_password_hash
                (ToggleActive credentials uid) db' = db').
Proof.
  intros Hres Hadmin db'.
  pose proof (resolved_user_is_active _ _ _ _ Hres) as Hactive.
  assert (Hshape : exists payload subject,
            decode_access_token credentials = Some payload /\
            sub payload = Some subject /\
            user_id payload = Some (id admin) /\
            query_first (fun u => (id u =? id admin)%Z) (users db) =
              Some admin).
  { revert Hres. unfold get_current_user.
    destruct (decode_access_token credentials) as [payload|]; [|discriminate].
    destruct (sub payload) as [subject|] eqn:Hsub; [|discriminate].
    destruct (user_id payload) as [uid|] eqn:Huid; [|discriminate].
    destruct (query_first _ _) as [found|] eqn:Hq; [|discriminate].
    destruct (negb _); [discriminate|]. intros [= ->].
    destruct (query_first_holds _ _ _ Hq) as [Hid _]. apply Z.eqb_eq in Hid.
    subst uid. exists payload, subject. repeat split; assumption. }
  destruct Hshape as (payload & subject & Hdec & Hsub & Huid & Hq).
  destruct (toggle_deactivates (id admin) admin db admin Hq Hactive)
    as (db1 & Htoggle & Hq1).
  assert (Hdb' : db' = db1).
  { subst db'. simpl.
    rewrite (Depends_resolved _ _ _ _ _ Hres).
    unfold require_admin.
    rewrite (proj2 (require_role_exact ADMIN admin) Hadmin).
    rewrite Htoggle. reflexivity. }
  assert (Hlocked : get_current_user decode_access_token credentials db' =
                    Raise inactive_user).
  { rewrite Hdb', (resolve_found _ _ _ _ _ _ Hdec Hsub Huid), Hq1.
    reflexivity. }
  split; [exact Hlocked|]. split.
  - intros gate. unfold Depends. rewrite Hlocked. reflexivity.
  - intros uid. simpl. unfold Depends. rewrite Hlocked. reflexivity.
Qed.

Lemma X10_admin_self_lockout_witness :
  get_current_user sample_decode "token-of-alice@example.com"
    (serve_auth sample_decode sample_verify sample_hash
                (ToggleActive "token-of-alice@example.com" 1) sample_db) =
    Raise inactive_user.
Proof.
  exact (proj1 (X10_admin_self_lockout sample_decode sample_verify
                  sample_hash "token-of-alice@example.com" sample_db alice
                  eq_refl eq_refl)).
Defined.

(** ** Categories *)

Lemma category_response_returns category product_count response :
  category_response category product_count = Return response ->
  cr_id response = Category.id category /\
  cr_name response = Category.name category /\
  Category.is_active category = Some (cr_is_active response) /\
  cr_product_count response = product_count.
Proof.
  unfold category_response.
  destruct (Category.is_active category); [|discriminate].
  intros [= <-]. repeat split.
Qed.

Lemma query_first_unique {A B} `{EqDecision B} (key : A -> B)
      (rows : list A) (x : A) :
  NoDup (List.map key rows) -> In x rows ->
  query_first (fun y => bool_decide (key y = key x)) rows = Some x.
Proof.
  intros Hnd Hin.
  destruct (query_first _ rows) as [y|] eqn:Hq.
  - destruct (query_first_holds _ _ _ Hq) as [Hy Hyin].
    apply bool_decide_eq_true in Hy.
    f_equal. apply (NoDup_key_inj key rows); assumption.
  - apply (proj1 (query_first_none _ _)) with (x := x) in Hq; [|exact Hin].
    apply bool_decide_eq_false in Hq. contradiction.
Qed.

Lemma query_first_ext {A} (p q : A -> bool) (rows : list A) :
  (forall x, p x = q x) -> query_first p rows = query_first q rows.
Proof.
  intros H. unfold query_first.
  induction rows as [|x rows IH]; [reflexivity|].
  simpl. rewrite H, IH. reflexivity.
Qed.

Lemma category_by_id (db : Db) (c : Category.t) :
  NoDup (List.map Category.id (categories db)) -> In c (categories db) ->
  query_first (fun y => (Category.id y =? Category.id c)%Z) (categories db) =
    Some c.
Proof.
  intros Hnd Hin.
  rewrite <- (query_first_unique Category.id (categories db) c Hnd Hin).
  apply query_first_ext. intros y.
  destruct (Z.eqb_spec (Category.id y) (Category.id c)).
  - symmetry. apply bool_decide_eq_true. assumption.
  - symmetry. apply bool_decide_eq_false. assumption.
Qed.

(** X11.  A created category can be fetched: on a well-formed database whose
    products all reference existing categories, creating a category under a
    name not yet in use stores it under the next id, active and with no
    products, and fetching that id returns the very response the creation
    gave; the tables stay well-formed.  A name already in use is refused
    with 400 and nothing is stored. *)
Theorem X11_create_category_then_get
    (category_data : CategoryCreate) (current_user : User) (db : Db) :
  categories_wf db ->
  products_categorised db ->
  (query_first (fun c => Category.name c =? cc_name category_data)
               (categories db) = None ->
   exists response db',
     create_category category_data current_user db = Return (response, db') /\
     cr_id response = next_category_id db /\
     cr_name response = cc_name category_data /\
     cr_is_active response = true /\
     cr_product_count response = 0%Z /\
     get_category (cr_id response) db' = Return response /\
     categories_wf db' /\ products_categorised db') /\
  (forall existing,
     query_first (fun c => Category.name c =? cc_name category_data)
                 (categories db) = Some existing ->
     create_category category_data current_user db =
       Raise (HTTPException 400 "Category with this name already exists" [])).
Proof.
  intros (Hids & Hnames & Hnext) Hprod. split.
  - intros Hfree. unfold create_category. rewrite Hfree.
    eexists. eexists. split; [reflexivity|].
    unfold products_categorised in Hprod.
    rewrite List.Forall_forall in Hnext, Hprod.
    repeat split.
    + unfold get_category. simpl.
      rewrite query_first_app.
      rewrite (proj2 (query_first_none _ (categories db))).
      2:{ intros c Hc. specialize (Hnext c Hc). apply Z.eqb_neq. lia. }
      unfold query_first. simpl. rewrite Z.eqb_refl.
      rewrite query_count_zero; [reflexivity|].
      intros p Hp.
      destruct (Hprod p Hp) as (c & Hc & Hcid).
      specialize (Hnext c Hc). apply Z.eqb_neq. lia.
    + simpl. rewrite List.map_app. simpl.
      apply NoDup_app. split; [exact Hids|]. split; [|apply NoDup_singleton].
      intros i Hi Hin. apply list_elem_of_singleton in Hin. subst i.
      apply list_elem_of_In, List.in_map_iff in Hi as (c & Hc & Hin).
      specialize (Hnext c Hin). lia.
    + simpl. rewrite List.map_app. simpl.
      apply NoDup_app. split; [exact Hnames|]. split; [|apply NoDup_singleton].
      intros n Hn Hin. apply list_elem_of_singleton in Hin. subst n.
      apply list_elem_of_In, List.in_map_iff in Hn as (c & Hc & Hin).
      apply (proj1 (query_first_none _ _) Hfree) in Hin.
      simpl in Hin. rewrite Hc, String.eqb_refl in Hin. discriminate.
    + simpl. apply List.Forall_forall. intros c Hc.
      apply List.in_app_iff in Hc as [Hc|[<-|[]]].
      * specialize (Hnext c Hc). lia.
      * simpl. lia.
    + unfold products_categorised. simpl.
      apply List.Forall_forall. intros p Hp.
      destruct (Hprod p Hp) as (c & Hc & Hcid).
      exists c. split; [apply List.in_app_iff; left; exact Hc|exact Hcid].
  - intros existing Hq. unfold create_category. rewrite Hq. reflexivity.
Qed.

Lemma sample_db_categories_wf : categories_wf sample_db.
Proof.
  unfold categories_wf. simpl. repeat split.
  - repeat (apply NoDup_cons; split;
            [intros H; repeat (apply elem_of_cons in H as [H|H];
                                 [discriminate H|]); inversion H|]).
    apply NoDup_nil. exact I.
  - repeat (apply NoDup_cons; split;
            [intros H; repeat (apply elem_of_cons in H as [H|H];
                                 [discriminate H|]); inversion H|]).
    apply NoDup_nil. exact I.
  - repeat constructor.
Defined.

Lemma sample_db_products_categorised : products_categorised sample_db.
Proof.
  unfold products_categorised. simpl. repeat constructor.
  eexists. split; [left; reflexivity|reflexivity].
Defined.

Lemma X11_create_category_then_get_witness :
  exists response db',
    create_category (mkCategoryCreate "Honey" None None None None) alice
                    sample_db = Return (response, db') /\
    cr_id response = 3%Z /\
    get_category 3 db' = Return response.
Proof.
  destruct (X11_create_category_then_get
              (mkCategoryCreate "Honey" None None None None) alice sample_db
              sample_db_categories_wf sample_db_products_categorised)
    as [Hnew _].
  destruct (Hnew eq_refl) as (response & db' & Hc & Hid & _ & _ & _ & Hg & _).
  exists response, db'. rewrite Hid in Hg. auto.
Defined.

Lemma updated_category_id category_data category category' :
  updated_category category_data category = Some category' ->
  Category.id category' = Category.id category.
Proof.
  unfold updated_category. destruct (assign _ _); [|discriminate].
  intros [= <-]. reflexivity.
Qed.

Lemma NoDup_names_replace (rows : list Category.t) (pk : Z)
      (row' : Category.t) :
  NoDup (List.map Category.id rows) ->
  NoDup (List.map Category.name rows) ->
  (forall c, In c rows -> Category.id c <> pk ->
             Category.name c <> Category.name row') ->
  NoDup (List.map Category.name
           (List.map (fun c => if (Category.id c =? pk)%Z then row' else c)
                     rows)).
Proof.
  induction rows as [|r rows IH]; intros Hids Hnames Hother; [constructor|].
  simpl in Hids, Hnames.
  apply NoDup_cons in Hids as [Hrid Hids].
  apply NoDup_cons in Hnames as [Hrname Hnames].
  simpl. destruct (Z.eqb_spec (Category.id r) pk) as [Heq|Hne].
  - assert (Hrest : List.map (fun c => if (Category.id c =? pk)%Z
                                       then row' else c) rows = rows).
    { rewrite <- (List.map_id rows) at 2. apply List.map_ext_in.
      intros c Hc. destruct (Z.eqb_spec (Category.id c) pk) as [Hc'|];
        [|reflexivity].
      exfalso. apply Hrid. rewrite Heq, <- Hc'.
      apply list_elem_of_In, List.in_map, Hc. }
    rewrite Hrest. apply NoDup_cons. split; [|exact Hnames].
    intros Hin. apply list_elem_of_In, List.in_map_iff in Hin
      as (c & Hc & Hcin).
    apply (Hother c); [right; exact Hcin| |exact Hc].
    intros Hcid. apply Hrid. rewrite Heq, <- Hcid.
    apply list_elem_of_In, List.in_map, Hcin.
  - apply NoDup_cons. split.
    + intros Hin. apply list_elem_of_In, List.in_map_iff in Hin
        as (c' & Hc' & Hin).
      apply List.in_map_iff in Hin as (c & Hgc & Hcin). subst c'.
      destruct (Z.eqb_spec (Category.id c) pk).
      * apply (Hother r); [left; reflexivity|exact Hne|]. symmetry. exact Hc'.
      * apply Hrname. rewrite <- Hc'.
        apply list_elem_of_In, List.in_map, Hcin.
    + apply IH; [exact Hids|exact Hnames|].
      intros c Hc. apply Hother. right. exact Hc.
Qed.

Lemma set_categories_same db : set_categories (categories db) db = db.
Proof. destruct db. reflexivity. Qed.

(** X12.  Whatever [update_category] answers, it leaves the categories
    well-formed: ids distinct, names distinct, the sequence ahead.  A name
    held by another category is refused by the unique index and nothing is
    stored; an id that is not there gives 404; and an update that sets no
    field changes nothing and answers what [get_category] answers. *)
Theorem X12_update_category_keeps_wf
    (category_id : Z) (category_data : CategoryUpdate) (current_user : User)
    (db : Db) :
  categories_wf db ->
  let updated := update_category category_id category_data current_user db in
  categories_wf (snd updated) /\
  (query_first (fun c => (Category.id c =? category_id)%Z) (categories db) =
     None -> updated = (Raise category_not_found, db)) /\
  (forall name other,
     cu_name category_data = Given (Some name) ->
     In other (categories db) ->
     Category.id other <> category_id ->
     Category.name other = name ->
     fst updated <> Raise category_not_found ->
     snd updated = db /\ exists msg, fst updated = Raise (DatabaseError msg)) /\
  (category_data = mkCategoryUpdate Unset Unset Unset Unset Unset Unset ->
   updated = (get_category category_id db, db)).
Proof.
  intros Hwf updated. pose proof Hwf as (Hids & Hnames & Hnext).
  subst updated. unfold update_category.
  destruct (query_first _ (categories db)) as [category|] eqn:Hq.
  2:{ simpl. split; [exact Hwf|]. split; [reflexivity|].
      split; [intros ? ? _ _ _ _ H; contradiction H; reflexivity|].
      intros _. unfold get_category. rewrite Hq. reflexivity. }
  destruct (query_first_holds _ _ _ Hq) as [Hid Hin].
  apply Z.eqb_eq in Hid.
  split; [|split; [discriminate|split]].
  - destruct (updated_category category_data category) as [category'|] eqn:Hu;
      [|exact Hwf].
    pose proof (updated_category_id _ _ _ Hu) as Hid'.
    destruct (negb _ && _) eqn:Hclash; [exact Hwf|].
    unfold categories_wf. simpl.
    split; [|split].
    + rewrite List.map_map.
      erewrite List.map_ext; [exact Hids|].
      intros c. simpl.
      destruct (Z.eqb_spec (Category.id c) (Category.id category));
        [congruence|reflexivity].
    + apply NoDup_names_replace; [exact Hids|exact Hnames|].
      intros c Hc Hcid Hcname.
      apply andb_false_iff in Hclash as [Hsame|Hnone].
      * apply negb_false_iff, String.eqb_eq in Hsame.
        apply Hcid. f_equal.
        apply (NoDup_key_inj Category.name (categories db)); congruence.
      * rewrite <- not_true_iff_false in Hnone. apply Hnone.
        apply existsb_exists. exists c. split; [exact Hc|].
        apply andb_true_iff. split.
        -- apply negb_true_iff, Z.eqb_neq, Hcid.
        -- apply String.eqb_eq, Hcname.
    + rewrite List.Forall_forall in Hnext.
      apply List.Forall_forall. intros c Hc.
      apply List.in_map_iff in Hc as (c0 & <- & Hc0).
      destruct (Category.id c0 =? Category.id category)%Z.
      * rewrite Hid'. apply Hnext, Hin.
      * apply Hnext, Hc0.
  - intros name other Hname Hother Hoid Honame _.
    unfold updated_category. rewrite Hname. cbn [assign].
    cbn [Category.name].
    assert (Hdiff : (name =? Category.name category) = false).
    { apply String.eqb_neq. intros ->. apply Hoid. rewrite <- Hid. f_equal.
      apply (NoDup_key_inj Category.name (categories db)); assumption. }
    rewrite Hdiff. simpl negb.
    replace (existsb _ (categories db)) with true.
    { simpl. split; [reflexivity|]. eexists. reflexivity. }
    symmetry. apply existsb_exists. exists other. split; [exact Hother|].
    apply andb_true_iff. split.
    + apply negb_true_iff, Z.eqb_neq. congruence.
    + apply String.eqb_eq, Honame.
  - intros ->. unfold updated_category. cbn [assign cu_name cu_name_ja
      cu_name_ne cu_description cu_icon cu_is_active].
    assert (Hsame : Category.mk (Category.id category) (Category.name category)
                      (Category.name_ja category) (Category.name_ne category)
                      (Category.description category) (Category.icon category)
                      (Category.is_active category) = category)
      by (destruct category; reflexivity).
    rewrite Hsame, String.eqb_refl. simpl negb. cbn [andb].
    assert (Hmap :
              List.map (fun c => if (Category.id c =? Category.id category)%Z
                                 then category else c) (categories db) =
              categories db).
    { rewrite <- (List.map_id (categories db)) at 2. apply List.map_ext_in.
      intros c Hc. destruct (Z.eqb_spec (Category.id c) (Category.id category));
        [|reflexivity].
      symmetry. apply (NoDup_key_inj Category.id (categories db)); assumption. }
    rewrite Hmap, set_categories_same.
    unfold get_category. rewrite Hq. reflexivity.
Qed.

Lemma X12_update_category_keeps_wf_witness :
  update_category 2 rename_to_vegetables alice sample_db =
    (Raise (DatabaseError "unique constraint: categories.name"), sample_db) /\
  categories_wf
    (snd (update_category 1 sample_category_update alice sample_db)).
Proof.
  pose proof (X12_update_category_keeps_wf 2 rename_to_vegetables alice
                sample_db sample_db_categories_wf) as H2.
  pose proof (X12_update_category_keeps_wf 1 sample_category_update alice
                sample_db sample_db_categories_wf) as H1.
  cbv zeta in H1, H2. split; [|exact (proj1 H1)].
  destruct H2 as (_ & _ & Hclash & _).
  destruct (Hclash "Vegetables"
              (Category.mk 1 "Vegetables" None None None None (Some true))
              eq_refl (or_introl eq_refl)) as [Hdb [msg Hmsg]];
    [discriminate|reflexivity|discriminate|].
  reflexivity.
Defined.

(** X13.  An update that nulls [is_active] is committed and then fails: the
    row is stored with a null flag, the handler raises the response's
    validation error instead of answering, and from then on fetching that
    category raises the same error. *)
Theorem X13_update_category_null_flag
    (category_id : Z) (category_data : CategoryUpdate) (current_user : User)
    (db : Db) (category : Category.t) :
  query_first (fun c => (Category.id c =? category_id)%Z) (categories db) =
    Some category ->
  cu_name category_data = Unset ->
  cu_is_active category_data = Given None ->
  let updated := update_category category_id category_data current_user db in
  fst updated = Raise (ValidationError "is_active") /\
  Category.is_active <$>
    query_first (fun c => (Category.id c =? category_id)%Z)
                (categories (snd updated)) = Some None /\
  get_category category_id (snd updated) =
    Raise (ValidationError "is_active").
Proof.
  intros Hq Hname Hflag updated. subst updated.
  destruct (query_first_holds _ _ _ Hq) as [Hid _]. apply Z.eqb_eq in Hid.
  unfold update_category, updated_category. rewrite Hq, Hname, Hflag.
  cbn [assign Category.name]. rewrite String.eqb_refl. cbn [negb andb].
  cbn [fst snd].
  set (row := Category.mk _ _ _ _ _ _ None).
  assert (Hq' : query_first (fun c => (Category.id c =? category_id)%Z)
                  (categories
                     (set_categories
                        (List.map
                           (fun c =>
                              if (Category.id c =? Category.id category)%Z
                              then row else c) (categories db)) db)) =
                Some row).
  { simpl categories.
    rewrite (query_first_map (fun c => (Category.id c =? category_id)%Z)).
    - rewrite Hq. simpl. rewrite Z.eqb_refl. reflexivity.
    - intros c. destruct (Z.eqb_spec (Category.id c) (Category.id category));
        [|reflexivity].
      subst row. simpl. congruence. }
  split; [reflexivity|]. split.
  - rewrite Hq'. reflexivity.
  - unfold get_category. rewrite Hq'. reflexivity.
Qed.

Lemma X13_update_category_null_flag_witness :
  fst (update_category 1 sample_category_update alice sample_db) =
    Raise (ValidationError "is_active") /\
  get_category 1
    (snd (update_category 1 sample_category_update alice sample_db)) =
    Raise (ValidationError "is_active").
Proof.
  destruct (X13_update_category_null_flag 1 sample_category_update alice
              sample_db _ eq_refl eq_refl eq_refl) as (H1 & _ & H2).
  split; assumption.
Defined.

Lemma collect_Forall2 {A B} (f : A -> result B) (rows : list A)
      (ys : list B) :
  collect f rows = Return ys ->
  Forall2 (fun x y => f x = Return y) rows ys.
Proof.
  revert ys. induction rows as [|x rows IH]; intros ys; simpl.
  - intros [= <-]. constructor.
  - destruct (f x) as [e|y] eqn:Hx; [discriminate|]. simpl.
    destruct (collect f rows) as [e|ys'] eqn:Hrest; [discriminate|]. simpl.
    intros [= <-]. constructor; [exact Hx|]. apply IH. reflexivity.
Qed.

Lemma collect_total {A B} (f : A -> result B) (rows : list A) :
  (forall x, In x rows -> exists y, f x = Return y) ->
  exists ys, collect f rows = Return ys.
Proof.
  induction rows as [|x rows IH]; intros H; simpl.
  - eexists. reflexivity.
  - destruct (H x (or_introl eq_refl)) as [y ->].
    destruct IH as [ys ->]; [intros z Hz; apply H; right; exact Hz|].
    eexists. reflexivity.
Qed.

Lemma Forall2_In_r {A B} (R : A -> B -> Prop) (xs : list A) (ys : list B)
      (y : B) :
  Forall2 R xs ys -> In y ys -> exists x, In x xs /\ R x y.
Proof.
  induction 1 as [|x0 y0 xs ys HR _ IH]; intros Hin; [destruct Hin|].
  destruct Hin as [<-|Hin].
  - exists x0. split; [left; reflexivity|exact HR].
  - destruct (IH Hin) as (x & Hx & Hxy). exists x. split; [right|]; assumption.
Qed.

(** X14.  The category listing agrees with the single fetch: on a table with
    distinct ids every listed entry is exactly what [get_category] answers
    for its id, a page holds at most [limit] entries, and with [active_only]
    every entry is active and the listing cannot fail on a null flag. *)
Theorem X14_get_categories_agrees
    (skip limit : Z) (active_only : bool) (db : Db) :
  NoDup (List.map Category.id (categories db)) ->
  (0 <= skip)%Z -> (0 <= limit)%Z ->
  (forall items,
     get_categories skip limit active_only db = Return items ->
     (Z.of_nat (List.length items) <= limit)%Z /\
     forall item, In item items ->
       get_category (cr_id item) db = Return item /\
       (active_only = true -> cr_is_active item = true)) /\
  (active_only = true ->
   exists items, get_categories skip limit active_only db = Return items).
Proof.
  intros Hids Hskip Hlimit.
  assert (H1 : (skip <? 0)%Z = false) by (apply Z.ltb_ge; lia).
  assert (H2 : (limit <? 0)%Z = false) by (apply Z.ltb_ge; lia).
  unfold get_categories. rewrite H1, H2. simpl orb. cbv iota zeta.
  set (query := if active_only then _ else _).
  assert (Hquery : forall c, In c (take (Z.to_nat limit)
                                        (drop (Z.to_nat skip) query)) ->
            In c (categories db) /\
            (active_only = true -> Category.is_active c = Some true)).
  { intros c Hc. apply list_elem_of_In in Hc.
    apply (subseteq_take (Z.to_nat limit)) in Hc.
    apply (subseteq_drop (Z.to_nat skip)) in Hc.
    apply list_elem_of_In in Hc. subst query.
    destruct active_only.
    - apply List.filter_In in Hc as [Hc Hact]. split; [exact Hc|].
      intros _. destruct (Category.is_active c) as [[|]|]; try discriminate.
      reflexivity.
    - split; [exact Hc|discriminate]. }
  split.
  - intros items Hitems. apply collect_Forall2 in Hitems.
    split.
    + rewrite <- (Forall2_length _ _ _ Hitems).
      pose proof (firstn_le_length (Z.to_nat limit)
                    (drop (Z.to_nat skip) query)). lia.
    + intros item Hitem.
      destruct (Forall2_In_r _ _ _ _ Hitems Hitem) as (c & Hc & Hresp).
      destruct (Hquery c Hc) as [Hin Hact].
      destruct (category_response_returns _ _ _ Hresp)
        as (Hid & _ & Hflag & _).
      split.
      * unfold get_category. rewrite Hid.
        rewrite (category_by_id db c Hids Hin). exact Hresp.
      * intros Hao. specialize (Hact Hao). congruence.
  - intros Hao. apply collect_total. intros c Hc.
    destruct (Hquery c Hc) as [_ Hact]. specialize (Hact Hao).
    unfold category_response. rewrite Hact. eexists. reflexivity.
Qed.

Lemma X14_get_categories_agrees_witness :
  exists items,
    get_categories 0 100 true sample_db = Return items /\
    forall item, In item items ->
                 get_category (cr_id item) sample_db = Return item.
Proof.
  destruct (X14_get_categories_agrees 0 100 true sample_db
              (proj1 sample_db_categories_wf)) as [Hagree Htotal];
    [lia|lia|].
  destruct (Htotal eq_refl) as [items Hitems].
  exists items. split; [exact Hitems|].
  intros item Hitem. apply (Hagree items Hitems), Hitem.
Defined.

(** ** Seeding *)

Lemma seed_category_keeps_names (db : Db) (cat_data : CategoryCreate)
      (name : string) :
  query_first (fun c => Category.name c =? name) (categories db) <> None ->
  query_first (fun c => Category.name c =? name)
              (categories (seed_category db cat_data)) <> None.
Proof.
  intros H. unfold seed_category.
  destruct (query_first (fun c => Category.name c =? cc_name cat_data)
                        (categories db)) eqn:E; [exact H|].
  simpl. rewrite query_first_app.
  destruct (query_first (fun c => Category.name c =? name) (categories db));
    [discriminate|contradiction].
Qed.

Lemma seed_category_adds_name (db : Db) (cat_data : CategoryCreate) :
  query_first (fun c => Category.name c =? cc_name cat_data)
              (categories (seed_category db cat_data)) <> None.
Proof.
  unfold seed_category.
  destruct (query_first _ (categories db)) eqn:E; [rewrite E; discriminate|].
  simpl. rewrite query_first_app, E. unfold query_first. simpl.
  rewrite String.eqb_refl. discriminate.
Qed.

Lemma seed_all_keeps_names (data : list CategoryCreate) (db : Db)
      (name : string) :
  query_first (fun c => Category.name c =? name) (categories db) <> None ->
  query_first (fun c => Category.name c =? name)
              (categories (fold_left seed_category data db)) <> None.
Proof.
  revert db. induction data as [|d data IH]; intros db H; [exact H|].
  simpl. apply IH, seed_category_keeps_names, H.
Qed.

Lemma seed_all_adds_names (data : list CategoryCreate) (db : Db)
      (d : CategoryCreate) :
  In d data ->
  query_first (fun c => Category.name c =? cc_name d)
              (categories (fold_left seed_category data db)) <> None.
Proof.
  revert db. induction data as [|d0 data IH]; intros db Hin; [destruct Hin|].
  simpl. destruct Hin as [->|Hin].
  - apply seed_all_keeps_names, seed_category_adds_name.
  - apply IH, Hin.
Qed.

Lemma seed_all_present (data : list CategoryCreate) (db : Db) :
  (forall d, In d data ->
     query_first (fun c => Category.name c =? cc_name d) (categories db)
       <> None) ->
  fold_left seed_category data db = db.
Proof.
  induction data as [|d data IH]; intros H; [reflexivity|].
  simpl.
  assert (Hd : seed_category db d = db).
  { unfold seed_category.
    destruct (query_first _ (categories db)) eqn:E; [reflexivity|].
    exfalso. apply (H d); [left; reflexivity|exact E]. }
  rewrite Hd. apply IH. intros d' Hd'. apply H. right. exact Hd'.
Qed.

Lemma seed_category_wf (db : Db) (cat_data : CategoryCreate) :
  categories_wf db -> categories_wf (seed_category db cat_data).
Proof.
  intros (Hids & Hnames & Hnext). unfold seed_category.
  destruct (query_first _ (categories db)) eqn:Hfree;
    [repeat split; assumption|].
  rewrite List.Forall_forall in Hnext.
  unfold categories_wf. simpl. rewrite !List.map_app. simpl.
  split; [|split].
  - apply NoDup_app. split; [exact Hids|]. split; [|apply NoDup_singleton].
    intros i Hi Hin. apply list_elem_of_singleton in Hin. subst i.
    apply list_elem_of_In, List.in_map_iff in Hi as (c & Hc & Hin).
    specialize (Hnext c Hin). lia.
  - apply NoDup_app. split; [exact Hnames|]. split; [|apply NoDup_singleton].
    intros n Hn Hin. apply list_elem_of_singleton in Hin. subst n.
    apply list_elem_of_In, List.in_map_iff in Hn as (c & Hc & Hin).
    apply (proj1 (query_first_none _ _) Hfree) in Hin.
    simpl in Hin. rewrite Hc, String.eqb_refl in Hin. discriminate.
  - apply List.Forall_forall. intros c Hc.
    apply List.in_app_iff in Hc as [Hc|[<-|[]]].
    + specialize (Hnext c Hc). lia.
    + simpl. lia.
Qed.

(** X15.  Seeding is idempotent and safe to run on a populated table:
    afterwards each of the six initial category names is present, a second
    run changes nothing, categories already there are kept in place, and a
    well-formed table stays well-formed. *)
Theorem X15_seed_idempotent (db : Db) :
  (forall d, In d initial_categories ->
     query_first (fun c => Category.name c =? cc_name d)
                 (categories (create_initial_categories db)) <> None) /\
  create_initial_categories (create_initial_categories db) =
    create_initial_categories db /\
  categories db `prefix_of` categories (create_initial_categories db) /\
  (categories_wf db -> categories_wf (create_initial_categories db)).
Proof.
  unfold create_initial_categories.
  split; [intros d Hd; apply seed_all_adds_names, Hd|].
  split; [apply seed_all_present; intros d Hd;
          apply seed_all_adds_names, Hd|].
  split.
  - generalize initial_categories. intros data. revert db.
    induction data as [|d data IH]; intros db; [reflexivity|].
    simpl. etrans; [|apply IH].
    unfold seed_category. destruct (query_first _ _); [reflexivity|].
    simpl. apply prefix_app_r. reflexivity.
  - generalize initial_categories. intros data. revert db.
    induction data as [|d data IH]; intros db Hwf; [exact Hwf|].
    simpl. apply IH, seed_category_wf, Hwf.
Qed.

Lemma X15_seed_idempotent_witness :
  categories_wf (create_initial_categories sample_db).
Proof.
  apply (proj2 (proj2 (proj2 (X15_seed_idempotent sample_db)))).
  exact sample_db_categories_wf.
Defined.

(** ** The media store: names and paths *)

Lemma has_char_app (c : ascii) (a b : string) :
  has_char c (a ++ b) = has_char c a || has_char c b.
Proof.
  induction a as [|x a IH]; [reflexivity|].
  change (has_char c (String x a ++ b))
    with (Ascii.eqb x c || has_char c (a ++ b)).
  rewrite IH. simpl. apply orb_assoc.
Qed.

Lemma path_of_plain (name : string) :
  plain_name name -> path_of name = [name].
Proof.
  intros (Hslash & Hempty & Hdot). unfold path_of.
  rewrite split_on_whole by exact Hslash.
  assert (Hprefix : String.prefix "/" name = false).
  { destruct name as [|a rest]; [reflexivity|].
    simpl in Hslash. apply orb_false_iff in Hslash as [Ha _].
    cbn [String.prefix].
    destruct (ascii_dec "/" a) as [<-|]; [discriminate Ha|reflexivity]. }
  rewrite Hprefix. simpl.
  apply String.eqb_neq in Hempty, Hdot. rewrite Hempty, Hdot. reflexivity.
Qed.

Lemma plain_not_root (name : string) :
  has_char "/" name = false -> (name =? "/") = false.
Proof.
  intros H. apply String.eqb_neq. intros ->. discriminate H.
Qed.

Lemma path_join_plain (base : Path) (name : string) :
  plain_name name -> path_join base name = (base ++ [name])%list.
Proof.
  intros Hplain. unfold path_join. rewrite (path_of_plain _ Hplain).
  simpl. rewrite (plain_not_root _ (proj1 Hplain)). reflexivity.
Qed.

Lemma path_name_snoc (base : Path) (name : string) :
  has_char "/" name = false -> path_name (base ++ [name]) = name.
Proof.
  intros H. unfold path_name.
  rewrite bool_decide_eq_false_2.
  - apply List.last_last.
  - intros Heq. destruct base as [|b [|b' base]]; simpl in Heq.
    + injection Heq as ->. discriminate H.
    + discriminate Heq.
    + discriminate Heq.
Qed.

Lemma path_parent_snoc (base : Path) (name : string) :
  has_char "/" name = false -> path_parent (base ++ [name]) = base.
Proof.
  intros H. unfold path_parent.
  rewrite bool_decide_eq_false_2.
  - apply List.removelast_last.
  - intros Heq. destruct base as [|b [|b' base]]; simpl in Heq.
    + injection Heq as ->. discriminate H.
    + discriminate Heq.
    + discriminate Heq.
Qed.

Lemma thumb_plain (name : string) :
  has_char "/" name = false -> plain_name ("thumb_" ++ name).
Proof. intros H. repeat split; [exact H|discriminate|discriminate]. Qed.

Lemma stored_name_plain (uuid ext : string) :
  has_char "/" uuid = false -> ext ∈ ALLOWED_EXTENSIONS ->
  plain_name (uuid ++ ext).
Proof.
  intros Huuid Hext.
  assert (Hfacts : has_char "/" ext = false /\ (4 <= String.length ext)%nat).
  { destruct (allowed_extension_cases _ Hext) as [->|[->|[->|[->| ->]]]];
      simpl; split; (reflexivity || lia). }
  destruct Hfacts as [Hslash Hlen].
  assert (Hl : (4 <= String.length (uuid ++ ext))%nat)
    by (rewrite string_length_append; lia).
  repeat split.
  - rewrite has_char_app, Huuid, Hslash. reflexivity.
  - intros Heq. rewrite Heq in Hl. simpl in Hl. lia.
  - intros Heq. rewrite Heq in Hl. simpl in Hl. lia.
Qed.

(** What [save_image] did when it returned a name. *)
Lemma save_image_returned env file subdir fs name :
  fst (save_image env file subdir fs) = Return name ->
  validate_image_file file = true /\
  write_env env = WriteOk /\
  name = generate_filename (uuid4 env) (or_default (filename file) "image") /\
  snd (save_image env file subdir fs) =
    snd (create_thumbnail (thumbnail_env env)
           (path_join (path_join UPLOAD_DIR subdir) name)
           (<[path_join (path_join UPLOAD_DIR subdir) name := content file]>
              fs)).
Proof.
  unfold save_image.
  destruct (validate_image_file file); [|discriminate]. simpl negb. cbv iota.
  destruct (_ >? _)%Z; [discriminate|].
  cbv zeta. unfold io_bind, io_ret, write_file.
  destruct (write_env env) as [|msg|written msg]; [|discriminate|discriminate].
  destruct (create_thumbnail _ _ _) as [[e|[]] fs'] eqn:Hthumb.
  - exfalso. revert Hthumb. unfold create_thumbnail.
    destruct (thumbnail_env env) as [|? [|]]; discriminate.
  - simpl. intros [= <-]. repeat split. rewrite Hthumb. reflexivity.
Qed.

(** X16.  What [save_image] stores, [delete_image] removes: when the drawn
    identifier holds no separator, the original lands directly in the upload
    sub-directory under the returned name, the thumbnail is written at the
    very path [delete_image] looks at, and deleting by the returned name
    leaves the store without both; a store that held neither path before the
    upload is given back as it was. *)
Theorem X16_save_then_delete
    (env : Env) (file : UploadFile) (subdir : string) (fs : Fs)
    (name : string) :
  has_char "/" (uuid4 env) = false ->
  fst (save_image env file subdir fs) = Return name ->
  let saved := snd (save_image env file subdir fs) in
  let file_path := (path_join UPLOAD_DIR subdir ++ [name])%list in
  let thumb_path :=
    (path_join UPLOAD_DIR subdir ++ [("thumb_" ++ name)%string])%list in
  saved !! file_path = Some (content file) /\
  (forall p, p <> file_path -> p <> thumb_path -> saved !! p = fs !! p) /\
  delete_image name subdir saved =
    (true, delete thumb_path (delete file_path fs)) /\
  (fs !! file_path = None -> fs !! thumb_path = None ->
   delete_image name subdir saved = (true, fs)).
Proof.
  intros Huuid Hret saved file_path thumb_path.
  destruct (save_image_returned _ _ _ _ _ Hret)
    as (Hvalid & Hwrite & Hname & Hsaved).
  destruct (validated_extension (uuid4 env) file Hvalid) as (ext & Hext & Hgen).
  assert (Hplain : plain_name name).
  { rewrite Hname, Hgen. apply stored_name_plain; assumption. }
  pose proof (proj1 Hplain) as Hslash.
  assert (Hfp : path_join (path_join UPLOAD_DIR subdir) name = file_path)
    by (apply path_join_plain, Hplain).
  assert (Htp : path_join (path_join UPLOAD_DIR subdir) ("thumb_" ++ name) =
                thumb_path)
    by (apply path_join_plain, thumb_plain, Hslash).
  assert (Hne : thumb_path <> file_path).
  { subst file_path thumb_path. intros Heq. apply app_inv_head in Heq.
    injection Heq as Heq. apply (f_equal String.length) in Heq.
    rewrite string_length_append in Heq. simpl in Heq. lia. }
  assert (Hshape : saved =
            match thumbnail_env env with
            | ThumbSaved data => <[thumb_path := data]>
                                   (<[file_path := content file]> fs)
            | ThumbRaises _ (Some partial) =>
                <[thumb_path := partial]> (<[file_path := content file]> fs)
            | ThumbRaises _ None => <[file_path := content file]> fs
            end).
  { subst saved. rewrite Hsaved, Hfp. unfold create_thumbnail.
    subst file_path. rewrite (path_parent_snoc _ _ Hslash).
    rewrite (path_name_snoc _ _ Hslash), Htp.
    destruct (thumbnail_env env) as [|? [|]]; reflexivity. }
  assert (Hdel : delete thumb_path (delete file_path saved) =
                 delete thumb_path (delete file_path fs)).
  { apply map_eq. intros p.
    destruct (decide (p = thumb_path)) as [->|Hpt];
      [rewrite !lookup_delete_eq; reflexivity|].
    rewrite !(lookup_delete_ne _ thumb_path p) by congruence.
    destruct (decide (p = file_path)) as [->|Hpf];
      [rewrite !lookup_delete_eq; reflexivity|].
    rewrite !(lookup_delete_ne _ file_path p) by congruence.
    rewrite Hshape.
    destruct (thumbnail_env env) as [|? [|]];
      rewrite ?lookup_insert_ne by congruence; reflexivity. }
  split; [|split; [|split]].
  - rewrite Hshape.
    destruct (thumbnail_env env) as [|? [|]];
      rewrite ?(lookup_insert_ne _ thumb_path file_path) by exact Hne;
      apply lookup_insert_eq.
  - intros p Hpf Hpt. rewrite Hshape.
    destruct (thumbnail_env env) as [|? [|]];
      rewrite ?lookup_insert_ne by congruence; reflexivity.
  - rewrite delete_image_removes, Hfp, Htp, Hdel. reflexivity.
  - intros Hf Ht. rewrite delete_image_removes, Hfp, Htp, Hdel.
    rewrite (delete_id fs file_path) by exact Hf.
    rewrite delete_id by exact Ht. reflexivity.
Qed.

Lemma X16_save_then_delete_witness :
  delete_image "u1.png" "products"
    (snd (save_image (mkEnv "u1" WriteOk (ThumbSaved [Byte.x89]))
                     sample_upload "products" ∅)) = (true, ∅).
Proof.
  refine (proj2 (proj2 (proj2
            (X16_save_then_delete (mkEnv "u1" WriteOk (ThumbSaved [Byte.x89]))
               sample_upload "products" ∅ "u1.png" eq_refl _))) _ _).
  - vm_compute. reflexivity.
  - reflexivity.
  - reflexivity.
Defined.

Lemma rfind_from_app (c : ascii) (a b : string) (i : nat) :
  rfind_from c (a ++ b) i =
  match rfind_from c b (i + String.length a) with
  | Some j => Some j
  | None => rfind_from c a i
  end.
Proof.
  revert i. induction a as [|x a IH]; intros i.
  - change ("" ++ b) with b. change (String.length "") with 0%nat.
    rewrite Nat.add_0_r. destruct (rfind_from c b i); reflexivity.
  - change (rfind_from c (String x a ++ b) i)
      with (match rfind_from c (a ++ b) (S i) with
            | Some j => Some j
            | None => if Ascii.eqb x c then Some i else None
            end).
    rewrite IH. simpl String.length.
    replace (i + S (String.length a))%nat with (S i + String.length a)%nat
      by lia.
    destruct (rfind_from c b (S i + String.length a)); [reflexivity|].
    reflexivity.
Qed.

Lemma substring_skip (a b : string) (m : nat) :
  String.substring (String.length a) m (a ++ b) = String.substring 0 m b.
Proof. induction a as [|x a IH]; [reflexivity|]. simpl. exact IH. Qed.

Lemma substring_all (b : string) :
  String.substring 0 (String.length b) b = b.
Proof.
  induction b as [|x b IH]; [reflexivity|]. simpl. rewrite IH. reflexivity.
Qed.

Lemma suffix_of_stored_name (uuid ext : string) :
  uuid <> "" -> has_char "/" uuid = false -> ext ∈ ALLOWED_EXTENSIONS ->
  lower (suffix (path_of (uuid ++ ext))) = ext.
Proof.
  intros Hne Hslash Hext.
  pose proof (stored_name_plain uuid ext Hslash Hext) as Hplain.
  rewrite (path_of_plain _ Hplain). unfold suffix.
  change [uuid ++ ext] with (([] : Path) ++ [(uuid ++ ext)%string])%list.
  rewrite (path_name_snoc [] _ (proj1 Hplain)).
  assert (Hfacts : (forall k, rfind_from "." ext k = Some k) /\
                   (4 <= String.length ext)%nat /\ lower ext = ext).
  { destruct (allowed_extension_cases _ Hext) as [->|[->|[->|[->| ->]]]];
      repeat split; simpl; lia. }
  destruct Hfacts as (Hdot & Hlen & Hlower).
  assert (Hpos : (0 < String.length uuid)%nat).
  { destruct uuid; [contradiction Hne; reflexivity|simpl; lia]. }
  unfold suffix_of_name. rewrite rfind_from_app, Hdot. simpl Nat.add.
  rewrite string_length_append.
  replace (0 <? String.length uuid)%nat with true
    by (symmetry; apply Nat.ltb_lt; lia).
  replace (String.length uuid <?
           String.length uuid + String.length ext - 1)%nat with true
    by (symmetry; apply Nat.ltb_lt; lia).
  simpl andb. cbv iota.
  replace (String.length uuid + String.length ext - String.length uuid)%nat
    with (String.length ext) by lia.
  rewrite substring_skip, substring_all. exact Hlower.
Qed.

Lemma validated_filename (file : UploadFile) :
  validate_image_file file = true ->
  exists a rest ct,
    filename file = Some (String a rest) /\
    content_type file = Some ct /\
    String.prefix "image/" ct = true /\
    lower (suffix (path_of (String a rest))) ∈ ALLOWED_EXTENSIONS.
Proof.
  intros Hv. apply validate_image_file_spec in Hv as [(ct & Hct & Himg) Hext].
  assert (Hempty : "" ∉ ALLOWED_EXTENSIONS).
  { apply (bool_decide_eq_false ("" ∈ ALLOWED_EXTENSIONS)).
    vm_compute. reflexivity. }
  destruct (filename file) as [[|a rest]|]; try contradiction.
  exists a, rest, ct. repeat split; assumption.
Qed.

(** X17.  A stored name keeps the upload's extension: for a validated upload
    and a non-empty drawn identifier without a separator, the name
    [save_image] generates has the upload's lower-cased extension as its own
    suffix, so a file offered again under its stored name validates and is
    stored under the same extension. *)
Theorem X17_stored_name_keeps_extension
    (uuid : string) (file : UploadFile) :
  uuid <> "" -> has_char "/" uuid = false ->
  validate_image_file file = true ->
  let ext := lower (suffix (path_of (or_default (filename file) ""))) in
  let name := generate_filename uuid (or_default (filename file) "image") in
  name = uuid ++ ext /\
  lower (suffix (path_of name)) = ext /\
  validate_image_file
    (mkUploadFile (Some name) (content_type file) (content file)) = true /\
  (forall uuid', generate_filename uuid' name = uuid' ++ ext).
Proof.
  intros Hne Hslash Hv ext name.
  destruct (validated_filename file Hv)
    as (a & rest & ct & Hfile & Hct & Himg & Hext).
  assert (Hname : name = uuid ++ ext).
  { subst name ext. unfold generate_filename. rewrite Hfile. reflexivity. }
  assert (Hallowed : ext ∈ ALLOWED_EXTENSIONS).
  { subst ext. rewrite Hfile. exact Hext. }
  assert (Hsuffix : lower (suffix (path_of name)) = ext).
  { rewrite Hname. apply suffix_of_stored_name; assumption. }
  split; [exact Hname|]. split; [exact Hsuffix|]. split.
  - apply validate_image_file_spec. cbn [content_type filename]. split.
    + exists ct. split; assumption.
    + assert (Hnonempty : or_default (Some name) "" = name).
      { rewrite Hname. destruct uuid; [contradiction Hne; reflexivity|].
        reflexivity. }
      rewrite Hnonempty, Hsuffix. exact Hallowed.
  - intros uuid'. unfold generate_filename at 1. fold name.
    rewrite Hsuffix. reflexivity.
Qed.

Lemma X17_stored_name_keeps_extension_witness :
  generate_filename "u1" "photo.PNG" = "u1.png" /\
  lower (suffix (path_of "u1.png")) = ".png".
Proof.
  destruct (X17_stored_name_keeps_extension "u1" sample_upload)
    as (H1 & H2 & _); [discriminate|reflexivity|vm_compute; reflexivity|].
  split; [exact H1|exact H2].
Defined.

(** ** Products *)

Lemma may_change_product_decides (user : User) (product : Product.t)
      (db : Db) :
  (may_change_product user product db ->
   (if UserRole_eqb (role user) VENDOR then
      match query_first (fun v => (Vendor.user_id v =? id user)%Z)
                        (vendors db) with
      | None => true
      | Some vendor => negb (Product.vendor_id product =? Vendor.id vendor)%Z
      end
    else negb (UserRole_eqb (role user) ADMIN)) = false) /\
  (~ may_change_product user product db ->
   (if UserRole_eqb (role user) VENDOR then
      match query_first (fun v => (Vendor.user_id v =? id user)%Z)
                        (vendors db) with
      | None => true
      | Some vendor => negb (Product.vendor_id product =? Vendor.id vendor)%Z
      end
    else negb (UserRole_eqb (role user) ADMIN)) = true).
Proof.
  unfold may_change_product. split.
  - intros [Hadmin|(Hvendor & vendor & Hq & Hown)].
    + rewrite Hadmin. reflexivity.
    + rewrite Hvendor, Hq. simpl. rewrite Hown, Z.eqb_refl. reflexivity.
  - intros Hnot. destruct (role user) eqn:Hrole; simpl.
    + exfalso. apply Hnot. left. reflexivity.
    + destruct (query_first _ (vendors db)) as [vendor|] eqn:Hq; [|reflexivity].
      destruct (Z.eqb_spec (Product.vendor_id product) (Vendor.id vendor));
        [|reflexivity].
      exfalso. apply Hnot. right. split; [reflexivity|].
      exists vendor. split; [reflexivity|assumption].
    + reflexivity.
Qed.

(** X18.  Only an admin or the owning vendor can delete a product or replace
    its image: any other user gets 403 from both handlers, and neither the
    database nor the upload directory is touched. *)
Theorem X18_product_changes_need_owner_or_admin
    (env : Env) (product_id : Z) (file : UploadFile) (user : User) (db : Db)
    (fs : Fs) (product : Product.t) :
  query_first (fun p => (Product.id p =? product_id)%Z) (products db) =
    Some product ->
  ~ may_change_product user product db ->
  (exists detail,
     delete_product product_id user db fs =
       Raise (HTTPException 403 detail [])) /\
  (exists detail,
     upload_product_image env product_id file user db fs =
       (Raise (HTTPException 403 detail []), db, fs)).
Proof.
  intros Hq Hnot.
  pose proof (proj2 (may_change_product_decides user product db) Hnot) as Hdec.
  split.
  - unfold delete_product. rewrite Hq.
    destruct (UserRole_eqb (role user) VENDOR).
    + destruct (query_first _ (vendors db)) as [vendor|];
        [rewrite Hdec|]; eexists; reflexivity.
    + rewrite Hdec. eexists. reflexivity.
  - unfold upload_product_image. rewrite Hq.
    destruct (UserRole_eqb (role user) VENDOR).
    + destruct (query_first _ (vendors db)) as [vendor|];
        [rewrite Hdec|]; eexists; reflexivity.
    + rewrite Hdec. eexists. reflexivity.
Qed.

Lemma X18_product_changes_need_owner_or_admin_witness :
  (exists detail,
     delete_product 2 bob image_db image_fs =
       Raise (HTTPException 403 detail [])) /\
  (exists detail,
     delete_product 1 carol image_db image_fs =
       Raise (HTTPException 403 detail [])).
Proof.
  split.
  - refine (proj1 (X18_product_changes_need_owner_or_admin
                     sample_env_no_thumbnail 2 sample_upload bob image_db
                     image_fs _ eq_refl _)).
    intros [H|(_ & vendor & Hq & Hown)]; [discriminate H|].
    injection Hq as <-. discriminate Hown.
  - refine (proj1 (X18_product_changes_need_owner_or_admin
                     sample_env_no_thumbnail 1 sample_upload carol image_db
                     image_fs _ eq_refl _)).
    intros [H|(H & _)]; discriminate H.
Defined.

Lemma delete_product_allowed product_id user db fs product :
  query_first (fun p => (Product.id p =? product_id)%Z) (products db) =
    Some product ->
  may_change_product user product db ->
  delete_product product_id user db fs =
    Return ("Product deleted successfully",
            set_products
              (List.filter
                 (fun p => negb (Product.id p =? Product.id product)%Z)
                 (products db)) db,
            match Product.main_image product with
            | Some (String a rest) =>
                snd (delete_image (String a rest) "products" fs)
            | _ => fs
            end).
Proof.
  intros Hq Hmay.
  pose proof (proj1 (may_change_product_decides user product db) Hmay) as Hdec.
  unfold delete_product. rewrite Hq.
  destruct (UserRole_eqb (role user) VENDOR).
  - destruct (query_first _ (vendors db)) as [vendor|]; [|discriminate Hdec].
    rewrite Hdec. reflexivity.
  - rewrite Hdec. reflexivity.
Qed.

(** X19.  A product deleted by its owner or an admin is gone with its
    image: the row can no longer be found, every other product row is kept,
    no other table changes, and when the product had an image neither the
    image nor its thumbnail is left in the upload directory while every other
    file stays. *)
Theorem X19_delete_product_effects
    (product_id : Z) (user : User) (db : Db) (fs : Fs)
    (product : Product.t) :
  query_first (fun p => (Product.id p =? product_id)%Z) (products db) =
    Some product ->
  may_change_product user product db ->
  exists db' fs',
    delete_product product_id user db fs =
      Return ("Product deleted successfully", db', fs') /\
    query_first (fun p => (Product.id p =? product_id)%Z) (products db') =
      None /\
    (forall p, Product.id p <> product_id ->
               (In p (products db') <-> In p (products db))) /\
    users db' = users db /\ vendors db' = vendors db /\
    categories db' = categories db /\ markets db' = markets db /\
    (forall image,
       Product.main_image product = Some image -> image <> "" ->
       fs' !! path_join (path_join UPLOAD_DIR "products") image = None /\
       fs' !! path_join (path_join UPLOAD_DIR "products")
                        ("thumb_" ++ image) = None /\
       forall p,
         p <> path_join (path_join UPLOAD_DIR "products") image ->
         p <> path_join (path_join UPLOAD_DIR "products")
                        ("thumb_" ++ image) ->
         fs' !! p = fs !! p) /\
    (truthy_str (Product.main_image product) = false -> fs' = fs).
Proof.
  intros Hq Hmay.
  destruct (query_first_holds _ _ _ Hq) as [Hid _]. apply Z.eqb_eq in Hid.
  rewrite (delete_product_allowed _ _ _ _ _ Hq Hmay).
  eexists. eexists. split; [reflexivity|].
  split; [|split; [|split; [reflexivity|]]].
  3: split; [reflexivity|]; split; [reflexivity|]; split; [reflexivity|];
     split; [intros image H H0; split; [|split]|].
  - simpl. apply query_first_filter_out.
    intros p Hp. apply Z.eqb_eq in Hp. rewrite Hp, Hid, Z.eqb_refl.
    reflexivity.
  - intros p Hp. simpl. rewrite List.filter_In. rewrite Hid.
    split; [tauto|]. intros Hin. split; [exact Hin|].
    apply negb_true_iff, Z.eqb_neq, Hp.
  - rewrite H. destruct image as [|a rest]; [contradiction H0; reflexivity|].
    rewrite delete_image_removes. simpl snd.
    destruct (decide (path_join (path_join UPLOAD_DIR "products")
                                ("thumb_" ++ String a rest) =
                      path_join (path_join UPLOAD_DIR "products")
                                (String a rest))) as [->|Hne].
    + apply lookup_delete_eq.
    + rewrite lookup_delete_ne by exact Hne. apply lookup_delete_eq.
  - rewrite H. destruct image as [|a rest]; [contradiction H0; reflexivity|].
    rewrite delete_image_removes. apply lookup_delete_eq.
  - intros p Hp1 Hp2. rewrite H.
    destruct image as [|a rest]; [contradiction H0; reflexivity|].
    rewrite delete_image_removes. simpl snd.
    rewrite !lookup_delete_ne by congruence. reflexivity.
  - intros Hfalsy. destruct (Product.main_image product) as [[|a rest]|];
      try reflexivity.
    discriminate Hfalsy.
Qed.

Lemma X19_delete_product_effects_witness :
  exists db',
    delete_product 1 bob image_db image_fs =
      Return ("Product deleted successfully", db', ∅) /\
    query_first (fun p => (Product.id p =? 1)%Z) (products db') = None.
Proof.
  destruct (X19_delete_product_effects 1 bob image_db image_fs _ eq_refl)
    as (db' & fs' & Hdel & Hgone & _).
  { right. split; [reflexivity|]. eexists. split; reflexivity. }
  exists db'. split; [|exact Hgone].
  rewrite Hdel.
  assert (Hfs : fs' = ∅).
  { assert (H : delete_product 1 bob image_db image_fs =
                Return ("Product deleted successfully",
                        set_products
                          [Product.mk 2 7 1 "Yuzu" float_150 "piece"
                                      (Some float_1) None (Some true)
                                      (Some true) None] image_db, ∅))
      by (vm_compute; reflexivity).
    rewrite H in Hdel. injection Hdel as _ Hfs. symmetry. exact Hfs. }
  rewrite Hfs. reflexivity.
Defined.

(** The store after a successful [save_image] with a plain identifier. *)
Lemma save_image_shape env file subdir fs name :
  has_char "/" (uuid4 env) = false ->
  fst (save_image env file subdir fs) = Return name ->
  plain_name name /\
  snd (save_image env file subdir fs) =
    match thumbnail_env env with
    | ThumbSaved data =>
        <[(path_join UPLOAD_DIR subdir ++ [("thumb_" ++ name)%string])%list
          := data]>
          (<[(path_join UPLOAD_DIR subdir ++ [name])%list := content file]> fs)
    | ThumbRaises _ (Some partial) =>
        <[(path_join UPLOAD_DIR subdir ++ [("thumb_" ++ name)%string])%list
          := partial]>
          (<[(path_join UPLOAD_DIR subdir ++ [name])%list := content file]> fs)
    | ThumbRaises _ None =>
        <[(path_join UPLOAD_DIR subdir ++ [name])%list := content file]> fs
    end.
Proof.
  intros Huuid Hret.
  destruct (save_image_returned _ _ _ _ _ Hret)
    as (Hvalid & Hwrite & Hname & Hsaved).
  destruct (validated_extension (uuid4 env) file Hvalid) as (ext & Hext & Hgen).
  assert (Hplain : plain_name name).
  { rewrite Hname, Hgen. apply stored_name_plain; assumption. }
  split; [exact Hplain|].
  pose proof (proj1 Hplain) as Hslash.
  rewrite Hsaved, (path_join_plain _ _ Hplain). unfold create_thumbnail.
  rewrite (path_parent_snoc _ _ Hslash), (path_name_snoc _ _ Hslash).
  rewrite (path_join_plain _ _ (thumb_plain _ Hslash)).
  destruct (thumbnail_env env) as [|? [|]]; reflexivity.
Qed.

(** X20.  Replacing a product image: for the owner or an admin, when
    [save_image] returns a name the product row points at that name, the
    previous image and its thumbnail are gone from the upload directory, and
    the new original is in place as long as its path is not one of the two
    paths of the previous image; when [save_image] fails, its error is
    passed on and the database is left alone. *)
Theorem X20_upload_product_image
    (env : Env) (product_id : Z) (file : UploadFile) (user : User) (db : Db)
    (fs : Fs) (product : Product.t) :
  query_first (fun p => (Product.id p =? product_id)%Z) (products db) =
    Some product ->
  may_change_product user product db ->
  has_char "/" (uuid4 env) = false ->
  let uploaded := upload_product_image env product_id file user db fs in
  let old_path image := path_join (path_join UPLOAD_DIR "products") image in
  (forall e,
     fst (save_image env file "products" fs) = Raise e ->
     uploaded = (Raise e, db, snd (save_image env file "products" fs))) /\
  (forall name,
     fst (save_image env file "products" fs) = Return name ->
     fst (fst uploaded) = Return ("Image uploaded successfully", name) /\
     query_first (fun p => (Product.id p =? product_id)%Z)
                 (products (snd (fst uploaded))) =
       Some (set_main_image (Some name) product) /\
     users (snd (fst uploaded)) = users db /\
     (forall image,
        Product.main_image product = Some image -> image <> "" ->
        snd uploaded !! old_path image = None /\
        snd uploaded !! old_path ("thumb_" ++ image) = None) /\
     ((forall image,
         Product.main_image product = Some image -> image <> "" ->
         old_path image <> ["uploads"; "products"; name] /\
         old_path ("thumb_" ++ image) <> ["uploads"; "products"; name]) ->
      snd uploaded !! ["uploads"; "products"; name] = Some (content file))).
Proof.
  intros Hq Hmay Huuid uploaded old_path.
  destruct (query_first_holds _ _ _ Hq) as [Hid _]. apply Z.eqb_eq in Hid.
  pose proof (proj1 (may_change_product_decides user product db) Hmay) as Hdec.
  assert (Hup : uploaded =
            match save_image env file "products" fs with
            | (Raise e, fs1) => (Raise e, db, fs1)
            | (Return filename, fs1) =>
                (Return ("Image uploaded successfully", filename),
                 set_products
                   (List.map
                      (fun p => if (Product.id p =? Product.id product)%Z
                                then set_main_image (Some filename) p else p)
                      (products db)) db,
                 match Product.main_image product with
                 | Some (String a rest) =>
                     snd (delete_image (String a rest) "products" fs1)
                 | _ => fs1
                 end)
            end).
  { subst uploaded. unfold upload_product_image. rewrite Hq.
    destruct (UserRole_eqb (role user) VENDOR).
    - destruct (query_first _ (vendors db)) as [vendor|]; [|discriminate Hdec].
      rewrite Hdec. reflexivity.
    - rewrite Hdec. reflexivity. }
  split.
  - intros e He. rewrite Hup.
    destruct (save_image env file "products" fs) as [r fs1].
    simpl in He. subst r. reflexivity.
  - intros name Hname.
    destruct (save_image_shape env file "products" fs name Huuid Hname)
      as [Hplain Hshape].
    rewrite Hup.
    destruct (save_image env file "products" fs) as [r fs1].
    simpl in Hname, Hshape. subst r. cbn [fst snd].
    split; [reflexivity|]. split; [|split; [reflexivity|split]].
    + simpl products.
      rewrite (query_first_map (fun p => (Product.id p =? product_id)%Z)).
      * rewrite Hq. simpl. rewrite Z.eqb_refl. reflexivity.
      * intros p. destruct (Product.id p =? Product.id product)%Z;
          reflexivity.
    + intros image Himage Hne. rewrite Himage.
      destruct image as [|a rest]; [contradiction Hne; reflexivity|].
      rewrite delete_image_removes. simpl snd. subst old_path. cbv beta.
      split; [|apply lookup_delete_eq].
      destruct (decide (path_join (path_join UPLOAD_DIR "products")
                                  ("thumb_" ++ String a rest) =
                        path_join (path_join UPLOAD_DIR "products")
                                  (String a rest))) as [->|Hdiff].
      * apply lookup_delete_eq.
      * rewrite lookup_delete_ne by exact Hdiff. apply lookup_delete_eq.
    + intros Hdistinct.
      assert (Hnew : fs1 !! ["uploads"; "products"; name] =
                     Some (content file)).
      { assert (Hne : (path_join UPLOAD_DIR "products" ++
                       [("thumb_" ++ name)%string])%list <>
                      (path_join UPLOAD_DIR "products" ++ [name])%list).
        { intros Heq. apply app_inv_head in Heq. injection Heq as Heq.
          apply (f_equal String.length) in Heq.
          rewrite string_length_append in Heq. simpl in Heq. lia. }
        rewrite Hshape.
        change ["uploads"; "products"; name]
          with (path_join UPLOAD_DIR "products" ++ [name])%list.
        destruct (thumbnail_env env) as [|? [|]];
          rewrite ?lookup_insert_ne by exact Hne; apply lookup_insert_eq. }
      destruct (Product.main_image product) as [[|a rest]|] eqn:Himage;
        try exact Hnew.
      destruct (Hdistinct (String a rest) eq_refl) as [Hd1 Hd2];
        [discriminate|].
      rewrite delete_image_removes. simpl snd. subst old_path. cbv beta in *.
      rewrite !lookup_delete_ne by congruence. exact Hnew.
Qed.

Lemma X20_upload_product_image_witness :
  let uploaded :=
    upload_product_image (mkEnv "u1" WriteOk (ThumbSaved [Byte.x89])) 1
                         sample_upload bob image_db image_fs in
  fst (fst uploaded) = Return ("Image uploaded successfully", "u1.png") /\
  snd uploaded !! ["uploads"; "products"; "old.png"] = None /\
  snd uploaded !! ["uploads"; "products"; "u1.png"] =
    Some (content sample_upload).
Proof.
  destruct (X20_upload_product_image
              (mkEnv "u1" WriteOk (ThumbSaved [Byte.x89])) 1 sample_upload bob
              image_db image_fs _ eq_refl) as [_ Hok].
  { right. split; [reflexivity|]. eexists. split; reflexivity. }
  { reflexivity. }
  destruct (Hok "u1.png") as (Hret & _ & _ & Hold & Hnew);
    [vm_compute; reflexivity|].
  cbv zeta. split; [exact Hret|]. split.
  - exact (proj1 (Hold "old.png" eq_refl ltac:(discriminate))).
  - apply Hnew. intros image [= <-] _. split; vm_compute; discriminate.
Defined.

Lemma row_by_key {A} (key : A -> Z) (rows : list A) (x : A) :
  NoDup (List.map key rows) -> In x rows ->
  query_first (fun y => (key y =? key x)%Z) rows = Some x.
Proof.
  intros Hnd Hin.
  rewrite <- (query_first_unique key rows x Hnd Hin).
  apply query_first_ext. intros y.
  destruct (Z.eqb_spec (key y) (key x)).
  - symmetry. apply bool_decide_eq_true. assumption.
  - symmetry. apply bool_decide_eq_false. assumption.
Qed.

Lemma Forall2_In_l {A B} (R : A -> B -> Prop) (xs : list A) (ys : list B)
      (x : A) :
  Forall2 R xs ys -> In x xs -> exists y, In y ys /\ R x y.
Proof.
  induction 1 as [|x0 y0 xs ys HR _ IH]; intros Hin; [destruct Hin|].
  destruct Hin as [<-|Hin].
  - exists y0. split; [left; reflexivity|exact HR].
  - destruct (IH Hin) as (y & Hy & Hxy). exists y. split; [right|]; assumption.
Qed.

Lemma products_with_category_In (db : Db) (p : Product.t) (name : string) :
  In (p, name) (products_with_category db) <->
  In p (products db) /\
  exists c, In c (categories db) /\
            Category.id c = Product.category_id p /\ Category.name c = name.
Proof.
  unfold products_with_category.
  rewrite <- list_elem_of_In, list_elem_of_bind. split.
  - intros (p0 & Hpc & Hp0).
    apply list_elem_of_bind in Hpc as (c & Hpc & Hc).
    apply list_elem_of_singleton in Hpc. injection Hpc as -> ->.
    apply list_elem_of_In, List.filter_In in Hc as [Hc Hid].
    apply Z.eqb_eq in Hid.
    split; [apply list_elem_of_In, Hp0|].
    exists c. repeat split; [exact Hc|symmetry; exact Hid].
  - intros (Hp & c & Hc & Hid & Hname).
    exists p. split; [|apply list_elem_of_In, Hp].
    apply list_elem_of_bind. exists c. split.
    + rewrite Hname. apply list_elem_of_singleton. reflexivity.
    + apply list_elem_of_In, List.filter_In. split; [exact Hc|].
      apply Z.eqb_eq. symmetry. exact Hid.
Qed.

Lemma product_list_response_returns product category_name vendor market
      item :
  product_list_response product category_name vendor market = Return item ->
  plr_id item = Product.id product /\
  plr_vendor_id item = Product.vendor_id product /\
  plr_vendor_name item = Vendor.business_name vendor /\
  plr_category_name item = category_name.
Proof.
  unfold product_list_response.
  destruct market; [|discriminate].
  destruct (Product.is_available product); [|discriminate].
  destruct (Product.is_organic product); [|discriminate].
  intros [= <-]. repeat split.
Qed.

(** X21.  "My products" lists the vendor's own products and nothing else:
    on a vendors table with distinct ids, every entry returned to a vendor
    user is a product row of that user's vendor profile, under that profile's
    business name and the name of its category, and every product of the
    profile whose category exists has an entry. *)
Theorem X21_my_products_are_mine
    (user : User) (db : Db) (vendor : Vendor.t)
    (items : list ProductListResponse) :
  NoDup (List.map Vendor.id (vendors db)) ->
  role user = VENDOR ->
  query_first (fun v => (Vendor.user_id v =? id user)%Z) (vendors db) =
    Some vendor ->
  get_my_products user db = Return items ->
  (forall item, In item items ->
     plr_vendor_id item = Vendor.id vendor /\
     plr_vendor_name item = Vendor.business_name vendor /\
     exists p c,
       In p (products db) /\ In c (categories db) /\
       Product.id p = plr_id item /\
       Product.vendor_id p = Vendor.id vendor /\
       Category.id c = Product.category_id p /\
       Category.name c = plr_category_name item) /\
  (forall p c,
     In p (products db) -> In c (categories db) ->
     Product.vendor_id p = Vendor.id vendor ->
     Category.id c = Product.category_id p ->
     exists item, In item items /\ plr_id item = Product.id p).
Proof.
  intros Hids Hrole Hq Hitems.
  destruct (query_first_holds _ _ _ Hq) as [_ Hin].
  unfold get_my_products in Hitems. rewrite Hrole, Hq in Hitems.
  simpl in Hitems. unfold get_vendor_products in Hitems.
  rewrite (row_by_key Vendor.id (vendors db) vendor Hids Hin) in Hitems.
  cbv zeta in Hitems. apply collect_Forall2 in Hitems.
  split.
  - intros item Hitem.
    destruct (Forall2_In_r _ _ _ _ Hitems Hitem) as ([p name] & Hpc & Hresp).
    apply List.filter_In in Hpc as [Hpc Hvid]. simpl in Hvid, Hresp.
    apply Z.eqb_eq in Hvid.
    apply products_with_category_In in Hpc as (Hp & c & Hc & Hcid & Hcname).
    destruct (product_list_response_returns _ _ _ _ _ Hresp)
      as (Hi & Hv & Hn & Hcat).
    split; [congruence|]. split; [exact Hn|].
    exists p, c. repeat split; congruence.
  - intros p c Hp Hc Hvid Hcid.
    assert (Hpc : In (p, Category.name c)
                     (List.filter
                        (fun pc => (Product.vendor_id (fst pc) =?
                                    Vendor.id vendor)%Z)
                        (products_with_category db))).
    { apply List.filter_In. split.
      - apply products_with_category_In. split; [exact Hp|].
        exists c. repeat split; assumption.
      - simpl. apply Z.eqb_eq, Hvid. }
    destruct (Forall2_In_l _ _ _ _ Hitems Hpc) as (item & Hitem & Hresp).
    simpl in Hresp.
    destruct (product_list_response_returns _ _ _ _ _ Hresp) as (Hi & _).
    exists item. split; [exact Hitem|exact Hi].
Qed.

Lemma X21_my_products_are_mine_witness :
  exists items,
    get_my_products bob sample_db = Return items /\
    forall item, In item items -> plr_vendor_id item = 1%Z.
Proof.
  assert (Hrun : exists items, get_my_products bob sample_db = Return items)
    by (eexists; vm_compute; reflexivity).
  destruct Hrun as [items Hitems]. exists items. split; [exact Hitems|].
  intros item Hitem.
  refine (proj1 (proj1 (X21_my_products_are_mine bob sample_db _ items
                          _ eq_refl eq_refl Hitems) item Hitem)).
  simpl. apply NoDup_singleton.
Defined.

(** ** Vendors and markets *)

Lemma query_count_none {A} (p : A -> bool) (rows : list A) :
  (query_count p rows >? 0)%Z = false -> forall x, In x rows -> p x = false.
Proof.
  intros Hcount x Hx. destruct (p x) eqn:Hp; [|reflexivity].
  pose proof (query_count_pos p rows x Hx Hp) as Hpos.
  apply Z.gtb_gt in Hpos. congruence.
Qed.

Lemma create_vendor_profile_stored vendor_data user db response db' :
  create_vendor_profile vendor_data user db = Return (response, db') ->
  role user = VENDOR /\
  query_first (fun v => (Vendor.user_id v =? id user)%Z) (vendors db) = None /\
  (exists market, In market (markets db) /\
                  Market.id market = vc_market_id vendor_data) /\
  db' = add_vendor (vr_vendor response) db /\
  Vendor.user_id (vr_vendor response) = id user /\
  Vendor.market_id (vr_vendor response) = vc_market_id vendor_data /\
  Vendor.is_verified (vr_vendor response) = Some false.
Proof.
  unfold create_vendor_profile.
  destruct (UserRole_eqb (role user) VENDOR) eqn:Hrole; [|discriminate].
  apply UserRole_eqb_eq in Hrole. simpl.
  destruct (query_first _ (vendors db)) eqn:Hexisting; [discriminate|].
  destruct (query_first _ (markets db)) as [market|] eqn:Hmarket;
    [|discriminate].
  destruct (query_first_holds _ _ _ Hmarket) as [Hid Hin].
  apply Z.eqb_eq in Hid.
  intros [= <- <-]. repeat split; try assumption.
  exists market. split; assumption.
Qed.

Lemma vendors_wf_update_rows pk b db :
  vendors_wf db ->
  vendors_wf (update_vendor_rows pk (set_vendor_is_verified b) db).
Proof.
  intros [Hmarkets Husers]. unfold vendors_wf, update_vendor_rows. simpl.
  split.
  - rewrite List.Forall_forall in Hmarkets.
    apply List.Forall_forall. intros v Hv.
    apply List.in_map_iff in Hv as (v0 & <- & Hv0).
    destruct (Vendor.id v0 =? pk)%Z; apply (Hmarkets v0 Hv0).
  - rewrite map_update_same; [exact Husers|reflexivity].
Qed.

(** X22.  Creating a vendor profile, verifying or unverifying a vendor and
    deleting a market all keep the vendors well-formed: every vendor still
    belongs to a market that is there, and no user has two profiles. *)
Theorem X22_vendors_stay_wf
    (vendor_data : VendorCreate) (vendor_id market_id : Z) (user : User)
    (db : Db) :
  vendors_wf db ->
  vendors_wf (state_after db (create_vendor_profile vendor_data user db)) /\
  vendors_wf (state_after db (verify_vendor vendor_id user db)) /\
  vendors_wf (state_after db (unverify_vendor vendor_id user db)) /\
  vendors_wf (state_after db (delete_market market_id user db)).
Proof.
  intros Hwf. pose proof Hwf as [Hmarkets Husers].
  rewrite List.Forall_forall in Hmarkets.
  split; [|split; [|split]].
  - destruct (create_vendor_profile vendor_data user db)
      as [e|[response db']] eqn:Hcreate; [exact Hwf|].
    destruct (create_vendor_profile_stored _ _ _ _ _ Hcreate)
      as (_ & Hnone & (market & Hmin & Hmid) & -> & Huid & Hvm & _).
    unfold vendors_wf. simpl. split.
    + apply List.Forall_forall. intros v Hv.
      apply List.in_app_iff in Hv as [Hv|[<-|[]]]; [apply Hmarkets, Hv|].
      exists market. split; [exact Hmin|congruence].
    + rewrite List.map_app. simpl.
      apply NoDup_app. split; [exact Husers|].
      split; [|apply NoDup_singleton].
      intros i Hi Hin. apply list_elem_of_singleton in Hin. subst i.
      apply list_elem_of_In, List.in_map_iff in Hi as (v & Hv & Hvin).
      apply (proj1 (query_first_none _ _) Hnone) in Hvin.
      simpl in Hvin. rewrite Hv, Huid, Z.eqb_refl in Hvin. discriminate.
  - unfold verify_vendor.
    destruct (query_first _ (vendors db)); [|exact Hwf].
    simpl. apply vendors_wf_update_rows, Hwf.
  - unfold unverify_vendor.
    destruct (query_first _ (vendors db)); [|exact Hwf].
    simpl. apply vendors_wf_update_rows, Hwf.
  - unfold delete_market.
    destruct (query_first _ (markets db)) as [market|] eqn:Hq; [|exact Hwf].
    destruct (query_first_holds _ _ _ Hq) as [Hid _]. apply Z.eqb_eq in Hid.
    destruct (_ >? 0)%Z eqn:Hcount; simpl.
    + unfold vendors_wf. simpl. split; [|exact Husers].
      apply List.Forall_forall. intros v Hv.
      destruct (Hmarkets v Hv) as (m & Hm & Hmid).
      exists (if (Market.id m =? Market.id market)%Z
              then set_market_is_active (Some false) m else m).
      split.
      * apply List.in_map_iff. exists m. split; [reflexivity|exact Hm].
      * destruct (Market.id m =? Market.id market)%Z; exact Hmid.
    + unfold vendors_wf. simpl. split; [|exact Husers].
      apply List.Forall_forall. intros v Hv.
      destruct (Hmarkets v Hv) as (m & Hm & Hmid).
      exists m. split; [|exact Hmid].
      apply List.filter_In. split; [exact Hm|].
      apply negb_true_iff, Z.eqb_neq. rewrite Hmid, Hid.
      pose proof (query_count_none _ _ Hcount v Hv) as Hv'.
      simpl in Hv'. apply Z.eqb_neq in Hv'. exact Hv'.
Qed.

Lemma sample_db_vendors_wf : vendors_wf sample_db.
Proof.
  unfold vendors_wf. simpl. split.
  - repeat constructor. eexists. split; [left; reflexivity|reflexivity].
  - apply NoDup_singleton.
Defined.

Lemma X22_vendors_stay_wf_witness :
  vendors_wf (state_after sample_db (delete_market 1 alice sample_db)).
Proof.
  exact (proj2 (proj2 (proj2
           (X22_vendors_stay_wf
              (mkVendorCreate "x" None None None None None None None None 1)
              1 1 alice sample_db sample_db_vendors_wf)))).
Defined.

(** X23.  One vendor profile per user: a profile can only be created by a
    user with the vendor role, it starts unverified, and once it is there
    every further attempt by that user is refused with 400 "User already has
    a vendor profile", whatever the data. *)
Theorem X23_one_vendor_profile
    (vendor_data vendor_data' : VendorCreate) (user : User) (db db' : Db)
    (response : VendorResponse) :
  create_vendor_profile vendor_data user db = Return (response, db') ->
  role user = VENDOR /\
  Vendor.user_id (vr_vendor response) = id user /\
  Vendor.is_verified (vr_vendor response) = Some false /\
  In (vr_vendor response) (vendors db') /\
  create_vendor_profile vendor_data' user db' =
    Raise (HTTPException 400 "User already has a vendor profile" []).
Proof.
  intros Hcreate.
  destruct (create_vendor_profile_stored _ _ _ _ _ Hcreate)
    as (Hrole & Hnone & _ & -> & Huid & _ & Hflag).
  split; [exact Hrole|]. split; [exact Huid|]. split; [exact Hflag|].
  split.
  - simpl. apply List.in_app_iff. right. left. reflexivity.
  - unfold create_vendor_profile. rewrite Hrole. simpl.
    rewrite query_first_app, Hnone. unfold query_first. simpl.
    rewrite Huid, Z.eqb_refl. reflexivity.
Qed.

(** X24.  Deleting a market is soft when vendors stand in it and hard when
    none does: with at least one vendor the market row stays, deactivated,
    and can still be found by its id; with none the row is removed and the
    id is no longer found.  The vendors are never touched. *)
Theorem X24_delete_market
    (market_id : Z) (user : User) (db : Db) (market : Market.t) :
  query_first (fun m => (Market.id m =? market_id)%Z) (markets db) =
    Some market ->
  let deleted := delete_market market_id user db in
  ((exists v, In v (vendors db) /\ Vendor.market_id v = market_id) ->
   exists db',
     deleted = Return ("Market deactivated successfully", db') /\
     query_first (fun m => (Market.id m =? market_id)%Z) (markets db') =
       Some (set_market_is_active (Some false) market) /\
     vendors db' = vendors db) /\
  ((forall v, In v (vendors db) -> Vendor.market_id v <> market_id) ->
   exists db',
     deleted = Return ("Market deleted successfully", db') /\
     query_first (fun m => (Market.id m =? market_id)%Z) (markets db') =
       None /\
     vendors db' = vendors db).
Proof.
  intros Hq deleted. subst deleted.
  destruct (query_first_holds _ _ _ Hq) as [Hid _]. apply Z.eqb_eq in Hid.
  unfold delete_market. rewrite Hq. cbv zeta. split.
  - intros (v & Hv & Hvm).
    assert (Hpos : (query_count (fun v => (Vendor.market_id v =? market_id)%Z)
                                (vendors db) >? 0)%Z = true).
    { apply Z.gtb_gt. apply (query_count_pos _ _ v Hv). apply Z.eqb_eq, Hvm. }
    rewrite Hpos. eexists. split; [reflexivity|]. split; [|reflexivity].
    simpl markets.
    rewrite (query_first_map (fun m => (Market.id m =? market_id)%Z)).
    + rewrite Hq. simpl. rewrite Z.eqb_refl. reflexivity.
    + intros m. destruct (Market.id m =? Market.id market)%Z; reflexivity.
  - intros Hnone.
    assert (Hzero : (query_count (fun v => (Vendor.market_id v =? market_id)%Z)
                                 (vendors db) >? 0)%Z = false).
    { rewrite query_count_zero; [reflexivity|].
      intros v Hv. apply Z.eqb_neq, Hnone, Hv. }
    rewrite Hzero. eexists. split; [reflexivity|]. split; [|reflexivity].
    simpl markets. apply query_first_filter_out.
    intros m Hm. apply Z.eqb_eq in Hm. rewrite Hm, Hid, Z.eqb_refl.
    reflexivity.
Qed.

Lemma X24_delete_market_witness :
  exists db',
    delete_market 1 alice sample_db =
      Return ("Market deactivated successfully", db') /\
    query_first (fun m => (Market.id m =? 1)%Z) (markets db') =
      Some (Market.mk 1 "Niji market" "1-2-3 Kita" "Sapporo" "Hokkaido"
                      (Some false) None).
Proof.
  destruct (proj1 (X24_delete_market 1 alice sample_db _ eq_refl))
    as (db' & Hdel & Hfound & _).
  { eexists. split; [left; reflexivity|reflexivity]. }
  exists db'. split; assumption.
Defined.

Lemma X23_one_vendor_profile_witness :
  create_vendor_profile (stall_data "Second stall") bob
    (state_after vendorless_db
       (create_vendor_profile (stall_data "Bob's farm") bob vendorless_db)) =
    Raise (HTTPException 400 "User already has a vendor profile" []).
Proof.
  refine (proj2 (proj2 (proj2 (proj2
            (X23_one_vendor_profile (stall_data "Bob's farm")
               (stall_data "Second stall") bob vendorless_db _ _
               eq_refl))))).
Defined.

Lemma X8_depends_is_resolver_then_gate_witness :
  secured sample_security sample_decode require_admin
          (Some "Bearer token-of-carol@example.com") sample_db =
    Raise inactive_user /\
  secured sample_security sample_decode require_admin None sample_db =
    Raise (HTTPException 403 "Not authenticated" []).
Proof.
  split.
  - destruct (X8_depends_is_resolver_then_gate sample_security sample_decode
                require_admin (Some "Bearer token-of-carol@example.com")
                sample_db) as (_ & H & _).
    exact (proj1 (H "token-of-carol@example.com" inactive_user
                    eq_refl eq_refl)).
  - destruct (X8_depends_is_resolver_then_gate sample_security sample_decode
                require_admin None sample_db) as (H & _).
    exact H.
Defined.

Lemma X9_role_lists_compose_witness :
  require_roles ([VENDOR] ++ [ADMIN]) alice = Return alice.
Proof.
  apply (proj1 (X9_role_lists_compose [VENDOR] [ADMIN] ADMIN alice)).
  right. reflexivity.
Defined.

(** ** Sessions end to end *)

Lemma login_user_returned verify_password create_access_token
      create_refresh_token login_data db token :
  login_user verify_password create_access_token create_refresh_token
             login_data db = Return token ->
  exists user,
    query_first (fun u => email u =? ul_email login_data) (users db) =
      Some user /\
    verify_password (ul_password login_data) (hashed_password user) = true /\
    truthy (is_active user) = true /\
    token = issue_tokens create_access_token create_refresh_token user.
Proof.
  unfold login_user.
  destruct (query_first _ (users db)) as [user|]; [|discriminate].
  destruct (verify_password _ _) eqn:Hverify; simpl; [|discriminate].
  destruct (truthy (is_active user)) eqn:Hactive; simpl; [|discriminate].
  intros [= <-]. exists user. repeat split; assumption.
Qed.

Lemma resolve_own_token decode_access_token credentials db user :
  NoDup (List.map id (users db)) -> In user (users db) ->
  decode_access_token credentials = Some (token_data user) ->
  get_current_user decode_access_token credentials db =
    if truthy (is_active user) then Return user else Raise inactive_user.
Proof.
  intros Hids Hin Hdec.
  rewrite (resolve_found _ _ _ _ _ _ Hdec eq_refl eq_refl).
  simpl. rewrite (row_by_key id (users db) user Hids Hin). reflexivity.
Qed.

(** X25.  The tokens login hands out are good for the session: on a table
    with distinct ids, and as long as the codec still decodes the tokens
    that were minted at login for the users on file, the access token of a
    successful login resolves to the very user who logged in, and presenting
    the refresh token is answered with a pair that the codec of that later
    moment mints from the same user's row. *)
Theorem X25_login_tokens_work
    (decode_access_token decode_refresh_token : string -> option Payload)
    (verify_password : string -> string -> bool)
    (create_access_token create_access_token' : Payload -> Z -> string)
    (create_refresh_token create_refresh_token' : Payload -> string)
    (login_data : UserLogin) (db : Db) (token : Token) :
  NoDup (List.map id (users db)) ->
  (forall u, In u (users db) ->
     decode_access_token
       (create_access_token (token_data u) ACCESS_TOKEN_EXPIRE_MINUTES) =
       Some (token_data u) /\
     decode_refresh_token (create_refresh_token (token_data u)) =
       Some (token_data u)) ->
  login_user verify_password create_access_token create_refresh_token
             login_data db = Return token ->
  exists user,
    In user (users db) /\
    email user = ul_email login_data /\
    get_current_user decode_access_token (access_token token) db =
      Return user /\
    refresh_access_token decode_refresh_token create_access_token'
                         create_refresh_token' (refresh_token token) db =
      Return (mkToken
                (create_access_token' (token_data user)
                                      ACCESS_TOKEN_EXPIRE_MINUTES)
                (create_refresh_token' (token_data user))
                "bearer" (ACCESS_TOKEN_EXPIRE_MINUTES * 60)).
Proof.
  intros Hids Hcodec Hlogin.
  destruct (login_user_returned _ _ _ _ _ _ Hlogin)
    as (user & Hq & _ & Hactive & ->).
  destruct (query_first_holds _ _ _ Hq) as [Hemail Hin].
  apply String.eqb_eq in Hemail.
  destruct (Hcodec user Hin) as [Haccess Hrefresh].
  exists user. split; [exact Hin|]. split; [exact Hemail|]. split.
  - unfold issue_tokens. cbn [access_token].
    rewrite (resolve_own_token _ _ _ user Hids Hin Haccess), Hactive.
    reflexivity.
  - unfold refresh_access_token, issue_tokens. cbn [refresh_token].
    rewrite Hrefresh. cbn [user_id token_data].
    rewrite (row_by_key id (users db) user Hids Hin).
    rewrite Hactive. reflexivity.
Qed.

Lemma sample_codec_round_trip (u : User) :
  In u (users sample_db) ->
  sample_decode (sample_access (token_data u) ACCESS_TOKEN_EXPIRE_MINUTES) =
    Some (token_data u) /\
  sample_refresh_decode (sample_refresh (token_data u)) = Some (token_data u).
Proof.
  intros [<-|[<-|[<-|[]]]]; split; reflexivity.
Defined.

Lemma X25_login_tokens_work_witness :
  exists user,
    In user (users sample_db) /\
    email user = "bob@example.com" /\
    get_current_user sample_decode "token-of-bob@example.com" sample_db =
      Return user /\
    refresh_access_token sample_refresh_decode later_access later_refresh
                         "refresh-of-bob@example.com" sample_db =
      Return (mkToken "token2-of-bob@example.com"
                      "refresh2-of-bob@example.com" "bearer" 1800).
Proof.
  destruct (X25_login_tokens_work sample_decode sample_refresh_decode
              sample_verify sample_access later_access sample_refresh
              later_refresh
              (mkUserLogin "bob@example.com" "hunter2hunter2") sample_db _
              (proj1 sample_db_users_wf) sample_codec_round_trip eq_refl)
    as (user & Hin & Hemail & Haccess & Hrefresh).
  exists user. split; [exact Hin|]. split; [exact Hemail|].
  split; [exact Haccess|].
  destruct Hin as [<-|[<-|[<-|[]]]]; try discriminate Hemail.
  exact Hrefresh.
Defined.

(** X26.  A deactivated user is shut out of every entry point at once: after
    the toggle deactivates an active user, a login with the right password
    is answered 400 "Inactive user account", a refresh with that user's token
    is answered 401, and the user's access token 400 "Inactive user". *)
Theorem X26_deactivated_user_is_shut_out
    (decode_access_token decode_refresh_token : string -> option Payload)
    (verify_password : string -> string -> bool)
    (create_access_token : Payload -> Z -> string)
    (create_refresh_token : Payload -> string)
    (password access refresh : string) (admin user : User) (db : Db) :
  query_first (fun u => (id u =? id user)%Z) (users db) = Some user ->
  query_first (fun u => email u =? email user) (users db) = Some user ->
  truthy (is_active user) = true ->
  verify_password password (hashed_password user) = true ->
  decode_access_token access = Some (token_data user) ->
  decode_refresh_token refresh = Some (token_data user) ->
  exists db',
    toggle_user_active_status (id user) admin db =
      Return ("User deactivated successfully", db') /\
    login_user verify_password create_access_token create_refresh_token
               (mkUserLogin (email user) password) db' =
      Raise (HTTPException 400 "Inactive user account" []) /\
    refresh_access_token decode_refresh_token create_access_token
                         create_refresh_token refresh db' =
      Raise (HTTPException 401 "User not found or inactive" []) /\
    get_current_user decode_access_token access db' = Raise inactive_user.
Proof.
  intros Hid Hemail Hactive Hverify Haccess Hrefresh.
  destruct (toggle_deactivates (id user) admin db user Hid Hactive)
    as (db' & Htoggle & Hid').
  exists db'. split; [exact Htoggle|].
  assert (Hdb' : db' = update_user (id user) (set_is_active (Some false)) db).
  { revert Htoggle. unfold toggle_user_active_status.
    rewrite Hid, Hactive. simpl. intros [= <-]. reflexivity. }
  assert (Hemail' : query_first (fun u => email u =? email user) (users db') =
                    Some (set_is_active (Some false) user)).
  { rewrite Hdb', users_update_user.
    rewrite (query_first_map (fun u => email u =? email user)).
    - rewrite Hemail. simpl. rewrite Z.eqb_refl. reflexivity.
    - intros u. destruct (id u =? id user)%Z; reflexivity. }
  split; [|split].
  - unfold login_user. cbn [ul_email ul_password]. rewrite Hemail'.
    cbn [hashed_password set_is_active is_active]. rewrite Hverify.
    reflexivity.
  - unfold refresh_access_token. rewrite Hrefresh.
    cbn [user_id token_data]. rewrite Hid'. reflexivity.
  - rewrite (resolve_found _ _ _ _ (email user) (id user) Haccess eq_refl
               eq_refl).
    rewrite Hid'. reflexivity.
Qed.

Lemma X26_deactivated_user_is_shut_out_witness :
  exists db',
    toggle_user_active_status 2 alice sample_db =
      Return ("User deactivated successfully", db') /\
    login_user sample_verify sample_access sample_refresh
               (mkUserLogin "bob@example.com" "hunter2hunter2") db' =
      Raise (HTTPException 400 "Inactive user account" []) /\
    refresh_access_token sample_refresh_decode sample_access sample_refresh
                         "refresh-of-bob@example.com" db' =
      Raise (HTTPException 401 "User not found or inactive" []) /\
    get_current_user sample_decode "token-of-bob@example.com" db' =
      Raise inactive_user.
Proof.
  exact (X26_deactivated_user_is_shut_out sample_decode sample_refresh_decode
           sample_verify sample_access sample_refresh "hunter2hunter2"
           "token-of-bob@example.com" "refresh-of-bob@example.com" alice bob
           sample_db eq_refl eq_refl eq_refl eq_refl eq_refl eq_refl).
Defined.

(** X27.  Changing the password revokes nothing: an access token and a
    refresh token that worked for the user before the change work after it,
    the access token resolving to the user's row with the new hash. *)
Theorem X27_password_change_keeps_tokens
    (decode_access_token decode_refresh_token : string -> option Payload)
    (verify_password : string -> string -> bool)
    (get_password_hash : string -> string)
    (create_access_token : Payload -> Z -> string)
    (create_refresh_token : Payload -> string)
    (password_data : PasswordChange) (access refresh : string)
    (user : User) (db : Db) :
  get_current_user decode_access_token access db = Return user ->
  decode_refresh_token refresh = Some (token_data user) ->
  verify_password (current_password password_data) (hashed_password user) =
    true ->
  exists db',
    change_password verify_password get_password_hash password_data user db =
      Return ("Password changed successfully", db') /\
    get_current_user decode_access_token access db' =
      Return (set_hashed_password
                (get_password_hash (new_password password_data)) user) /\
    exists token,
      refresh_access_token decode_refresh_token create_access_token
                           create_refresh_token refresh db' = Return token.
Proof.
  intros Hres Hrefresh Hverify.
  pose proof (resolved_user_is_active _ _ _ _ Hres) as Hactive.
  unfold change_password. rewrite Hverify. simpl negb. cbv iota.
  eexists. split; [reflexivity|].
  set (h := get_password_hash (new_password password_data)).
  assert (Hshape : exists payload subject,
            decode_access_token access = Some payload /\
            sub payload = Some subject /\
            user_id payload = Some (id user) /\
            query_first (fun u => (id u =? id user)%Z) (users db) =
              Some user).
  { revert Hres. unfold get_current_user.
    destruct (decode_access_token access) as [payload|]; [|discriminate].
    destruct (sub payload) as [subject|] eqn:Hsub; [|discriminate].
    destruct (user_id payload) as [uid|] eqn:Huid; [|discriminate].
    destruct (query_first _ _) as [found|] eqn:Hq; [|discriminate].
    destruct (negb _); [discriminate|]. intros [= ->].
    destruct (query_first_holds _ _ _ Hq) as [Hid _]. apply Z.eqb_eq in Hid.
    subst uid. exists payload, subject. repeat split; assumption. }
  destruct Hshape as (payload & subject & Hdec & Hsub & Huid & Hq).
  assert (Hq' : query_first (fun u => (id u =? id user)%Z)
                  (users (update_user (id user) (set_hashed_password h) db)) =
                Some (set_hashed_password h user)).
  { rewrite query_first_update_user by reflexivity.
    rewrite Hq. simpl. rewrite Z.eqb_refl. reflexivity. }
  split.
  - rewrite (resolve_found _ _ _ _ _ _ Hdec Hsub Huid), Hq'.
    cbn [is_active set_hashed_password]. rewrite Hactive. reflexivity.
  - unfold refresh_access_token. rewrite Hrefresh.
    cbn [user_id token_data]. rewrite Hq'.
    cbn [is_active set_hashed_password]. rewrite Hactive.
    eexists. reflexivity.
Qed.

Lemma X27_password_change_keeps_tokens_witness :
  exists db',
    change_password sample_verify sample_hash
                    (mkPasswordChange "hunter2hunter2" "correct-horse") bob
                    sample_db =
      Return ("Password changed successfully", db') /\
    get_current_user sample_decode "token-of-bob@example.com" db' =
      Return (set_hashed_password "h:correct-horse" bob).
Proof.
  destruct (X27_password_change_keeps_tokens sample_decode
              sample_refresh_decode sample_verify sample_hash sample_access
              sample_refresh
              (mkPasswordChange "hunter2hunter2" "correct-horse")
              "token-of-bob@example.com" "refresh-of-bob@example.com" bob
              sample_db eq_refl eq_refl eq_refl) as (db' & H1 & H2 & _).
  exists db'. split; assumption.
Defined.

(** X28.  Registration grants the role it is asked for, the admin role
    included: on a well-formed table, registering under a free e-mail with
    no telephone and the role admin succeeds, and a token that decodes to the
    new user's claims passes the admin-only gate on the database the
    registration left. *)
Theorem X28_register_grants_any_role
    (decode_access_token : string -> option Payload)
    (get_password_hash : string -> string)
    (user_data : UserCreate) (credentials : string) (db : Db) :
  users_wf db ->
  query_first (fun u => email u =? uc_email user_data) (users db) = None ->
  uc_phone user_data = None ->
  exists user db',
    register_user get_password_hash user_data db = Return (user, db') /\
    role user = uc_role user_data /\
    (decode_access_token credentials = Some (token_data user) ->
     Depends decode_access_token (require_role (uc_role user_data))
             credentials db' = Return user).
Proof.
  intros Hwf Hfree Hphone.
  assert (Hreg : exists user db',
            register_user get_password_hash user_data db = Return (user, db')).
  { unfold register_user. rewrite Hfree, Hphone. simpl.
    eexists. eexists. reflexivity. }
  destruct Hreg as (user & db' & Hreg). exists user, db'.
  split; [exact Hreg|].
  destruct (register_user_stored _ _ _ _ _ Hreg) as (_ & Hdb' & Huser).
  assert (Hrole : role user = uc_role user_data)
    by (rewrite Huser; reflexivity).
  split; [exact Hrole|].
  intros Hdec.
  pose proof (users_wf_register get_password_hash user_data db Hwf) as Hwf'.
  rewrite Hreg in Hwf'. simpl in Hwf'. destruct Hwf' as (Hids & _ & _).
  assert (Hin : In user (users db')).
  { rewrite Hdb'. simpl. apply List.in_app_iff. right. left. reflexivity. }
  assert (Hres : get_current_user decode_access_token credentials db' =
                 Return user).
  { rewrite (resolve_own_token _ _ _ user Hids Hin Hdec).
    rewrite Huser. reflexivity. }
  rewrite (Depends_resolved _ _ _ _ _ Hres).
  apply require_role_exact. exact Hrole.
Qed.

Lemma X28_register_grants_any_role_witness :
  exists user db',
    register_user sample_hash mallory_data sample_db = Return (user, db') /\
    role user = ADMIN /\
    Depends mallory_decode require_admin "token-of-mallory@example.com" db' =
      Return user.
Proof.
  destruct (X28_register_grants_any_role mallory_decode sample_hash
              mallory_data "token-of-mallory@example.com" sample_db
              sample_db_users_wf eq_refl eq_refl)
    as (user & db' & Hreg & Hrole & Hgate).
  exists user, db'. split; [exact Hreg|]. split; [exact Hrole|].
  apply Hgate.
  assert (Huser : register_user sample_hash mallory_data sample_db =
                  Return (user, db')) by exact Hreg.
  vm_compute in Huser. injection Huser as <- _. reflexivity.
Defined.

(** ** The product and market routes that cannot succeed *)



(** X30.  [upload_market_image] never stores a picture.  It calls
    [save_image] without awaiting it, so nothing is validated or written;
    for a market that is there the request always ends in a server error and
    the row keeps the [main_image] it had.  Before that the handler has
    deleted the picture the row still names: neither that file nor its
    thumbnail is left, and every other file is as it was. *)
Theorem X30_upload_market_image_stores_nothing
    (market_id : Z) (file : UploadFile) (user : User) (db : Db) (fs : Fs)
    (market : Market.t) :
  query_first (fun m => (Market.id m =? market_id)%Z) (markets db) =
    Some market ->
  exists e fs',
    upload_market_image market_id file user db fs = (Raise e, db, fs') /\
    status_of e = 500%Z /\
    (forall image,
       Market.main_image market = Some image -> image <> "" ->
       fs' !! path_join (path_join UPLOAD_DIR "markets") image = None /\
       fs' !! path_join (path_join UPLOAD_DIR "markets")
                        ("thumb_" ++ image) = None /\
       forall p,
         p <> path_join (path_join UPLOAD_DIR "markets") image ->
         p <> path_join (path_join UPLOAD_DIR "markets")
                        ("thumb_" ++ image) ->
         fs' !! p = fs !! p) /\
    (truthy_str (Market.main_image market) = false -> fs' = fs).
Proof.
  intros Hq. unfold upload_market_image. rewrite Hq.
  eexists. eexists. split; [reflexivity|]. split; [reflexivity|]. split.
  - intros image Himage Hne. rewrite Himage.
    destruct image as [|a rest]; [contradiction Hne; reflexivity|].
    rewrite delete_image_removes. simpl snd. split; [|split].
    + destruct (decide (path_join (path_join UPLOAD_DIR "markets")
                                  ("thumb_" ++ String a rest) =
                        path_join (path_join UPLOAD_DIR "markets")
                                  (String a rest))) as [->|Hdiff].
      * apply lookup_delete_eq.
      * rewrite lookup_delete_ne by exact Hdiff. apply lookup_delete_eq.
    + apply lookup_delete_eq.
    + intros p Hp1 Hp2. rewrite !lookup_delete_ne by congruence. reflexivity.
  - intros Hfalsy. destruct (Market.main_image market) as [[|a rest]|];
      try reflexivity.
    discriminate Hfalsy.
Qed.

Lemma X30_upload_market_image_stores_nothing_witness :
  exists e,
    upload_market_image 1 sample_upload alice pictured_db pictured_fs =
      (Raise e, pictured_db, ∅) /\
    status_of e = 500%Z.
Proof.
  destruct (X30_upload_market_image_stores_nothing 1 sample_upload alice
              pictured_db pictured_fs _ eq_refl)
    as (e & fs' & Hup & Hstatus & _).
  exists e. split; [|exact Hstatus].
  rewrite Hup. f_equal.
  assert (H : upload_market_image 1 sample_upload alice pictured_db
                pictured_fs =
              (Raise (DatabaseError "can't adapt type 'coroutine'"),
               pictured_db, ∅)) by (vm_compute; reflexivity).
  rewrite H in Hup. injection Hup as _ Hfs. symmetry. exact Hfs.
Defined.
